(** * nest-common: trust-boundary authenticator and secret resolver

    A shallow embedding of the authentication guard
    ([src/auth/auth.guard.ts]), the claim extractor helpers
    ([src/auth/utils/to-camel-case.ts], [parse-header-value.ts],
    [extract-user-from-headers.ts]) and the secrets providers
    ([src/secrets/providers/{gcp,aws,azure,local}.provider.ts]), and of
    the code around them: the provider factory, the adapter and the
    secrets service, the scheduler guard, the rate-limit guard, the
    Redis service and the health checks, header forwarding, the
    package-metadata helpers, the search for the framework
    configuration and the logger's redaction paths.

    Conventions of the embedding.
    - A JavaScript string is a [string]: a sequence of 8-bit code units.
      Node hands header names and values to the guard decoded as Latin-1,
      so every code unit of a header is below 256.
    - [Date.now()] is an explicit argument of type [Z] (milliseconds).
    - [Map<string, CacheEntry>] is a [gmap string CacheEntry].
    - The cloud client, the secrets file and the secrets service are
      explicit arguments (records of functions), as the tests mock them.
    - Code that throws returns a sum; code that mutates [request] or the
      provider cache threads the state explicitly. *)

From Stdlib Require Import DecimalString DecimalZ DecimalPos.
From Stdlib Require Import ZArith Ascii String List Lia Bool.
From stdpp Require Import gmap strings list fin_maps.

Import ListNotations.
Set Warnings "-register-all".

(** ** JavaScript string primitives used by the sources *)

Module JS.

Definition chars (s : string) : list ascii := list_ascii_of_string s.

(** [s.startsWith(p)] *)
Fixpoint startsWith (p s : string) : bool :=
  match p, s with
  | EmptyString, _ => true
  | String a p', String b s' => Ascii.eqb a b && startsWith p' s'
  | String _ _, EmptyString => false
  end.

(** [s.includes(needle)] *)
Fixpoint includes (needle s : string) : bool :=
  startsWith needle s
  || match s with
     | EmptyString => false
     | String _ s' => includes needle s'
     end.

(** [s.split(sep)] for a one-character separator: never empty. *)
Fixpoint split (sep : ascii) (s : string) : list string :=
  match s with
  | EmptyString => [EmptyString]
  | String c s' =>
      if Ascii.eqb c sep then EmptyString :: split sep s'
      else match split sep s' with
           | seg :: segs => String c seg :: segs
           | [] => [String c EmptyString]
           end
  end.

(** [segs.join(sep)] *)
Fixpoint join (sep : ascii) (segs : list string) : string :=
  match segs with
  | [] => EmptyString
  | [seg] => seg
  | seg :: segs' => String.append seg (String sep (join sep segs'))
  end.

(** ECMAScript WhiteSpace and LineTerminator code points below 256:
    TAB, LF, VT, FF, CR, SP and NBSP. *)
Definition isWhiteSpace (c : ascii) : bool :=
  let n := N_of_ascii c in
  ((9 <=? n) && (n <=? 13) || (n =? 32) || (n =? 160))%N.

Fixpoint trimStart (s : string) : string :=
  match s with
  | EmptyString => EmptyString
  | String c s' => if isWhiteSpace c then trimStart s' else s
  end.

(** Drop trailing white space: a character is kept when it is not white
    space or when something is kept after it. *)
Fixpoint trimEnd (s : string) : string :=
  match s with
  | EmptyString => EmptyString
  | String c s' =>
      match trimEnd s' with
      | EmptyString => if isWhiteSpace c then EmptyString else String c EmptyString
      | t => String c t
      end
  end.

(** [s.trim()] *)
Definition trim (s : string) : string := trimEnd (trimStart s).

(** The class [\d] of a non-unicode regular expression: [0-9]. *)
Definition isDigit (c : ascii) : bool :=
  let n := N_of_ascii c in ((48 <=? n) && (n <=? 57))%N.

(** The class [[a-z]]. *)
Definition isLowerAZ (c : ascii) : bool :=
  let n := N_of_ascii c in ((97 <=? n) && (n <=? 122))%N.

(** [c.toUpperCase()] on the ASCII range; the sources apply it to
    claim-name letters matched by [[a-z]] and to service names. *)
Definition toUpperChar (c : ascii) : ascii :=
  if isLowerAZ c then ascii_of_N (N_of_ascii c - 32) else c.

Fixpoint toUpperCase (s : string) : string :=
  match s with
  | EmptyString => EmptyString
  | String c s' => String (toUpperChar c) (toUpperCase s')
  end.

(** [s.replace(/x/g, y)] for single characters [x] and [y]. *)
Fixpoint replaceAll (x y : ascii) (s : string) : string :=
  match s with
  | EmptyString => EmptyString
  | String c s' => String (if Ascii.eqb c x then y else c) (replaceAll x y s')
  end.

(** [/^\d+$/.test(s)] *)
Fixpoint allDigits (s : string) : bool :=
  match s with
  | EmptyString => true
  | String c s' => isDigit c && allDigits s'
  end.

Definition testDigits (s : string) : bool :=
  match s with
  | EmptyString => false
  | _ => allDigits s
  end.

Definition digitValue (c : ascii) : Z := Z.of_N (N_of_ascii c) - 48.

Fixpoint parseDigits (acc : Z) (s : string) : Z :=
  match s with
  | EmptyString => acc
  | String c s' => parseDigits (acc * 10 + digitValue c) s'
  end.

(** The integer a string of decimal digits denotes. *)
Definition decimalValue (s : string) : Z := parseDigits 0 s.

(** A JavaScript Number, as far as [parseInt] of a string of digits
    returns one: a double that is an integer, or [Infinity]. *)
Inductive Number :=
| Integer (n : Z)
| Infinity.

(** The Number value for a non-negative integer [n]: [n] itself below
    2^53, where every integer is a double; otherwise the nearest integer
    with a significand of 53 bits, a tie going to the even significand,
    and [Infinity] when that is 2^1024. *)
Definition toNumber (n : Z) : Number :=
  if (n <? 2 ^ 53)%Z then Integer n
  else
    let e := (Z.log2 n - 52)%Z in
    let q := Z.shiftr n e in
    let r := (n - Z.shiftl q e)%Z in
    let half := (2 ^ (e - 1))%Z in
    let q' :=
      if (half <? r)%Z || ((r =? half)%Z && Z.odd q) then (q + 1)%Z else q in
    let m := Z.shiftl q' e in
    if (m <? 2 ^ 1024)%Z then Integer m else Infinity.

(** [parseInt(s, 10)] on a string of decimal digits: the Number value
    for the integer the digits denote.  (For more than 20 significant
    digits ECMAScript lets an implementation round a nearby integer
    instead; V8 rounds the integer itself.) *)
Definition parseInt10 (s : string) : Number := toNumber (decimalValue s).

(** [c.toLowerCase()] on code units below 256: the letters A-Z and the
    Latin-1 capitals from U+00C0 to U+00DE (the multiplication sign
    U+00D7 excepted) move up by 32; every other code unit is kept. *)
Definition toLowerChar (c : ascii) : ascii :=
  let n := N_of_ascii c in
  if ((65 <=? n) && (n <=? 90)
      || (192 <=? n) && (n <=? 222) && negb (n =? 215))%N
  then ascii_of_N (n + 32) else c.

Fixpoint toLowerCase (s : string) : string :=
  match s with
  | EmptyString => EmptyString
  | String c s' => String (toLowerChar c) (toLowerCase s')
  end.

(** JavaScript truthiness of [string | undefined]. *)
Definition truthy (v : option string) : bool :=
  match v with
  | Some (String _ _) => true
  | _ => false
  end.

(** [a || b] on [string | undefined] operands. *)
Definition orElse (a b : option string) : option string :=
  if truthy a then a else b.

End JS.

(** ** Claim extractor: [toCamelCase] and [parseHeaderValue] *)

Module ClaimExtractor.

(** [str.replace(/-([a-z])/g, (_, letter) => letter.toUpperCase())]:
    the scan goes left to right; a hyphen followed by a lower-case letter
    is consumed together with the letter, which is emitted in upper case;
    any other character is copied. *)
Fixpoint toCamelCase (str : string) : string :=
  match str with
  | EmptyString => EmptyString
  | String c rest =>
      match rest with
      | String d rest' =>
          if Ascii.eqb c "-" && JS.isLowerAZ d
          then String (JS.toUpperChar d) (toCamelCase rest')
          else String c (toCamelCase rest)
      | EmptyString => String c EmptyString
      end
  end.

(** The value a claim header parses to:
    [string | string[] | number | boolean]. *)
Inductive HeaderValue :=
| VArray (segments : list string)
| VNumber (n : JS.Number)
| VBoolean (b : bool)
| VString (s : string).

(** [parseHeaderValue] of [parse-header-value.ts]. *)
Definition parseHeaderValue (value : string) : HeaderValue :=
  if JS.includes "," value then VArray (map JS.trim (JS.split "," value))
  else if JS.testDigits value then VNumber (JS.parseInt10 value)
  else if String.eqb value "true" then VBoolean true
  else if String.eqb value "false" then VBoolean false
  else VString value.

(** [enum KongHeaders] of [auth-user.interface.ts]. *)
Definition CONSUMER_ID : string := "x-consumer-id".
Definition CONSUMER_USERNAME : string := "x-consumer-username".
Definition CREDENTIAL_IDENTIFIER : string := "x-credential-identifier".
Definition USERINFO : string := "x-userinfo".
Definition JWT_CLAIM_PREFIX : string := "x-jwt-claim-".

(** A parsed JSON value; a number keeps its literal text. *)
Inductive Json :=
| JNull
| JBool (b : bool)
| JNumber (literal : string)
| JString (s : string)
| JArray (items : list Json)
| JObject (fields : list (string * Json)).

(** A property of the [KongUser] object. *)
Inductive UserField :=
| FUndefined
| FText (s : string)
| FParsed (v : HeaderValue)
| FJson (j : Json).

(** A JavaScript object with string keys, in insertion order. *)
Definition Obj (V : Type) : Type := list (string * V).

(** [o[name]] *)
Fixpoint objGet {V} (name : string) (o : Obj V) : option V :=
  match o with
  | [] => None
  | (k, v) :: o' => if String.eqb k name then Some v else objGet name o'
  end.

(** [o[name] = v]: an existing key keeps its place, a new one is appended. *)
Fixpoint objSet {V} (name : string) (v : V) (o : Obj V) : Obj V :=
  match o with
  | [] => [(name, v)]
  | (k, w) :: o' =>
      if String.eqb k name then (k, v) :: o' else (k, w) :: objSet name v o'
  end.

(** The prototype of an object created by an object literal:
    [Object.prototype], until an assignment to [__proto__] puts a value
    in its place. *)
Inductive Prototype (V : Type) :=
| ObjectPrototype
| ReplacedBy (v : V).
Arguments ObjectPrototype {V}.
Arguments ReplacedBy {V} v.

(** [o[name] = v] on an object created by a literal, its own
    properties afterwards.  [Object.prototype] defines [__proto__] as an
    accessor, so an assignment to that name creates no own property; for
    every other name the assignment is [objSet]. *)
Definition assign {V} (name : string) (v : V) (o : Obj V) : Obj V :=
  if String.eqb name "__proto__" then o else objSet name v o.

(** [o[name] = v], the prototype of [o] afterwards: the setter of
    [__proto__] installs an object or [null] and ignores every other
    value; [isObject] tells the two kinds apart. *)
Definition assignPrototype {V} (isObject : V -> bool) (name : string) (v : V)
    (p : Prototype V) : Prototype V :=
  if String.eqb name "__proto__" && isObject v then ReplacedBy v else p.

(** The own properties of a [KongUser] object. *)
Definition KongUser : Type := Obj UserField.
Definition Headers : Type := Obj string.

(** The values the [__proto__] setter installs: arrays, objects and
    [null]. *)
Definition isObject (f : UserField) : bool :=
  match f with
  | FParsed (VArray _) => true
  | FJson (JArray _) => true
  | FJson (JObject _) => true
  | FJson JNull => true
  | _ => false
  end.

(** [key.replace(prefix, '')] for a key that starts with [prefix]. *)
Fixpoint dropPrefix (p s : string) : string :=
  match p, s with
  | String _ p', String _ s' => dropPrefix p' s'
  | _, _ => s
  end.

Definition fieldOfText (v : option string) : UserField :=
  match v with
  | Some s => FText s
  | None => FUndefined
  end.

(** [extractUserFromHeaders] of [extract-user-from-headers.ts]: the
    [forEach] over [Object.keys(headers)], then the function; the own
    properties of [user]. *)
Fixpoint copyClaimHeaders (hs : Headers) (u : KongUser) : KongUser :=
  match hs with
  | [] => u
  | (key, v) :: rest =>
      copyClaimHeaders rest
        (if JS.startsWith JWT_CLAIM_PREFIX key
         then assign (toCamelCase (dropPrefix JWT_CLAIM_PREFIX key))
                     (FParsed (parseHeaderValue v)) u
         else u)
  end.

Definition extractUserFromHeaders (hs : Headers) : KongUser :=
  copyClaimHeaders hs [("id", fieldOfText (objGet CONSUMER_ID hs))].

(** The same loop and function, the prototype of [user]. *)
Fixpoint claimHeadersPrototype (hs : Headers) (p : Prototype UserField)
  : Prototype UserField :=
  match hs with
  | [] => p
  | (key, v) :: rest =>
      claimHeadersPrototype rest
        (if JS.startsWith JWT_CLAIM_PREFIX key
         then assignPrototype isObject
                (toCamelCase (dropPrefix JWT_CLAIM_PREFIX key))
                (FParsed (parseHeaderValue v)) p
         else p)
  end.

Definition userPrototype (hs : Headers) : Prototype UserField :=
  claimHeadersPrototype hs ObjectPrototype.

(** The claim as the specification words it, position by position: the
    hyphen in front of a lower-case letter disappears, a lower-case letter
    right after a hyphen is upper-cased, everything else is kept. *)
Definition dropped (c : ascii) (next : option ascii) : bool :=
  match next with
  | Some d => Ascii.eqb c "-" && JS.isLowerAZ d
  | None => false
  end.

Definition capitalised (prev : option ascii) (c : ascii) : bool :=
  match prev with
  | Some p => Ascii.eqb p "-" && JS.isLowerAZ c
  | None => false
  end.

Definition camelAt (prev : option ascii) (c : ascii) (next : option ascii) : string :=
  if dropped c next then EmptyString
  else if capitalised prev c then String (JS.toUpperChar c) EmptyString
  else String c EmptyString.

(** The conditions of the parsing rules as the specification words
    them: "contains a comma" and "matches ^\d+$ exactly". *)
Definition hasComma (value : string) : Prop := In ","%char (JS.chars value).

Definition isDecimal (value : string) : Prop :=
  value <> EmptyString
  /\ Forall (fun c => In c (JS.chars "0123456789")) (JS.chars value).

Definition first (s : string) : option ascii :=
  match s with
  | EmptyString => None
  | String c _ => Some c
  end.

Fixpoint camelByPosition (prev : option ascii) (s : string) : string :=
  match s with
  | EmptyString => EmptyString
  | String c rest =>
      String.append (camelAt prev c (first rest)) (camelByPosition (Some c) rest)
  end.

End ClaimExtractor.

(** ** The authentication guard ([auth.guard.ts]) *)

Module AuthGuard.
Import JS ClaimExtractor.

(** [interface RequestWithHeaders] *)
Record Request := mkRequest {
  url : option string;
  path : option string;
  headers : Headers;
  user : option KongUser;
  service : option string
}.

Definition Buffer : Type := list Byte.byte.

(** What can be thrown inside [canActivate]: the two HTTP exceptions of
    the guard, the [RangeError] of [timingSafeEqual], and the plain
    [Error] a secrets provider rejects with. *)
Inductive Exception :=
| UnauthorizedException (message : string)
| ForbiddenException (message : string)
| RangeError (message : string)
| PlainError (message : string).

Inductive Outcome (A : Type) :=
| Returned (a : A)
| Thrown (e : Exception).
Arguments Returned {A} a.
Arguments Thrown {A} e.

(** What the guard asks of its collaborators, in order. *)
Inductive Event :=
| SecretsGet (key : string)
| TimingSafeEqual (a b : Buffer).

(** The collaborators: [SecretsService.get], which resolves or rejects,
    and the decoding of the [x-userinfo] blob
    ([JSON.parse(Buffer.from(v, 'base64').toString('utf-8'))] followed by
    the reads of the [try] block): the own properties of the parsed
    value in key order (the keys of a parsed object are distinct, the
    last duplicate of the text having won), or [None] when the block
    throws. *)
Record Collaborators := mkCollaborators {
  secrets_get : string -> Outcome string;
  decodeUserinfo : string -> option (Obj Json)
}.

Record State := mkState {
  request : Request;
  trace : list Event
}.

(** State and exceptions of one [canActivate] call. *)
Definition Guard (A : Type) : Type := State -> Outcome A * State.

Definition ret {A} (a : A) : Guard A := fun st => (Returned a, st).

Definition throw {A} (e : Exception) : Guard A := fun st => (Thrown e, st).

Definition bind {A B} (m : Guard A) (k : A -> Guard B) : Guard B :=
  fun st =>
    match m st with
    | (Returned a, st') => k a st'
    | (Thrown e, st') => (Thrown e, st')
    end.

Notation "'do' x <- m ; k" := (bind m (fun x => k))
  (at level 10, x name, m at level 100, k at level 200).
Notation "'run' m ; k" := (bind m (fun _ => k))
  (at level 10, m at level 100, k at level 200).

Definition getRequest : Guard Request := fun st => (Returned (request st), st).

Definition emit (ev : Event) : Guard unit :=
  fun st => (Returned tt, mkState (request st) (trace st ++ [ev])).

(** [request.user = u] *)
Definition setUser (u : KongUser) : Guard unit :=
  fun st =>
    let r := request st in
    (Returned tt,
     mkState (mkRequest (url r) (path r) (headers r) (Some u) (service r)) (trace st)).

(** [request.service = s] *)
Definition setService (s : string) : Guard unit :=
  fun st =>
    let r := request st in
    (Returned tt,
     mkState (mkRequest (url r) (path r) (headers r) (user r) (Some s)) (trace st)).

(** [await this.secrets.get(key)] *)
Definition secretsGet (c : Collaborators) (key : string) : Guard string :=
  run emit (SecretsGet key);
  match secrets_get c key with
  | Returned v => ret v
  | Thrown e => throw e
  end.

(** One code unit as UTF-8. *)
Definition encodeUnit (ch : ascii) : Buffer :=
  let n := N_of_ascii ch in
  if (n <? 128)%N then [byte_of_ascii ch]
  else [byte_of_ascii (ascii_of_N (192 + n / 64));
        byte_of_ascii (ascii_of_N (128 + n mod 64))].

(** [Buffer.from(s)]: the UTF-8 bytes of [s]. *)
Definition Buffer_from (s : string) : Buffer := flat_map encodeUnit (chars s).

Fixpoint bytesEqual (a b : Buffer) : bool :=
  match a, b with
  | [], [] => true
  | x :: a', y :: b' => Byte.eqb x y && bytesEqual a' b'
  | _, _ => false
  end.

(** [crypto.timingSafeEqual(a, b)]: throws on buffers of different
    length, otherwise compares every byte. *)
Definition timingSafeEqual (a b : Buffer) : Guard bool :=
  run emit (TimingSafeEqual a b);
  if Nat.eqb (length a) (length b) then ret (bytesEqual a b)
  else throw (RangeError "Input buffers must have the same byte length").

(** [provided.length !== expected.length || !timingSafeEqual(provided, expected)] *)
Definition mismatch (provided expected : Buffer) : Guard bool :=
  if negb (Nat.eqb (length provided) (length expected)) then ret true
  else do same <- timingSafeEqual provided expected; ret (negb same).

(** The condition of the infrastructure-endpoint branch. *)
Definition isInfrastructurePath (p : string) : bool :=
  includes "/.well-known/" p
  || String.eqb p "/health"
  || startsWith "/health/" p
  || String.eqb p "/metrics".

(** The bypass rule as the specification words it: exactly [/health],
    prefix [/health/], exactly [/metrics], or containing [/.well-known/]. *)
Definition bypassEligible (p : string) : Prop :=
  p = "/health"
  \/ (exists t, p = "/health/" +:+ t)
  \/ p = "/metrics"
  \/ (exists a b, p = a +:+ "/.well-known/" +:+ b).

(** The string the rule is applied to, as the amended claim words it:
    [request.url], the URL as received with its query string, when it is
    a non-empty string, and [request.path] when [request.url] is absent
    or empty. *)
Definition testedString (r : Request) (p : string) : Prop :=
  p <> ""
  /\ (url r = Some p \/ ((url r = None \/ url r = Some "") /\ path r = Some p)).

Definition verifyKongTrustHeader (c : Collaborators) : Guard unit :=
  do r <- getRequest;
  let p := orElse (url r) (path r) in
  if truthy p && isInfrastructurePath (default "" p) then ret tt
  else
    let kongTrustHeader := objGet "x-kong-trust" (headers r) in
    if negb (truthy kongTrustHeader) then
      throw (UnauthorizedException "Unauthorized request")
    else
      do expectedToken <- secretsGet c "KONG_TRUST_TOKEN";
      if negb (truthy (Some expectedToken)) then
        throw (UnauthorizedException "Authentication configuration error")
      else
        let provided := Buffer_from (default "" kongTrustHeader) in
        let expected := Buffer_from expectedToken in
        do bad <- mismatch provided expected;
        if bad then throw (UnauthorizedException "Unauthorized request")
        else ret tt.

Definition validateServiceApiKey (c : Collaborators) (apiKey : string) : Guard bool :=
  do r <- getRequest;
  do validApiKey <- secretsGet c "API_KEY";
  if negb (truthy (Some validApiKey)) then
    throw (UnauthorizedException "Server API key is not configured")
  else
    let provided := Buffer_from apiKey in
    let expected := Buffer_from validApiKey in
    do bad <- mismatch provided expected;
    if bad then throw (ForbiddenException "Invalid API key")
    else
      run setService (default "internal" (orElse (objGet "x-service-name" (headers r)) None));
      ret true.

(** [toCamelCase] and [parseValue], the guard's private methods. *)
Fixpoint toCamelCase (str : string) : string :=
  match str with
  | EmptyString => EmptyString
  | String c rest =>
      match rest with
      | String d rest' =>
          if Ascii.eqb c "-" && isLowerAZ d
          then String (toUpperChar d) (toCamelCase rest')
          else String c (toCamelCase rest)
      | EmptyString => String c EmptyString
      end
  end.

Definition parseValue (value : string) : HeaderValue :=
  if includes "," value then VArray (map trim (split "," value))
  else if testDigits value then VNumber (parseInt10 value)
  else if String.eqb value "true" then VBoolean true
  else if String.eqb value "false" then VBoolean false
  else VString value.

Definition fieldOfJson (v : option Json) : UserField :=
  match v with
  | Some j => FJson j
  | None => FUndefined
  end.

(** The [forEach] over [Object.keys(claims)] of the primary path. *)
Fixpoint copyClaims (claims : Obj Json) (u : KongUser) : KongUser :=
  match claims with
  | [] => u
  | (key, j) :: rest =>
      copyClaims rest (if String.eqb key "sub" then u else assign key (FJson j) u)
  end.

(** The [forEach] over [Object.keys(headers)] of the legacy path. *)
Fixpoint copyClaimHeaders (hs : Headers) (u : KongUser) : KongUser :=
  match hs with
  | [] => u
  | (key, v) :: rest =>
      copyClaimHeaders rest
        (if startsWith JWT_CLAIM_PREFIX key
         then assign (toCamelCase (dropPrefix JWT_CLAIM_PREFIX key)) (FParsed (parseValue v)) u
         else u)
  end.

Definition legacyUser (hs : Headers) : KongUser :=
  let userId := orElse (objGet CONSUMER_ID hs) (objGet CREDENTIAL_IDENTIFIER hs) in
  copyClaimHeaders hs [("id", fieldOfText userId)].

Definition extractUserFromHeaders (c : Collaborators) (hs : Headers) : KongUser :=
  let userinfo := objGet USERINFO hs in
  if truthy userinfo then
    match decodeUserinfo c (default "" userinfo) with
    | Some claims => copyClaims claims [("id", fieldOfJson (objGet "sub" claims))]
    | None => legacyUser hs
    end
  else legacyUser hs.

(** The same loops and function, the prototype of the [user] object
    they build. *)
Fixpoint claimsPrototype (claims : Obj Json) (p : Prototype UserField)
  : Prototype UserField :=
  match claims with
  | [] => p
  | (key, j) :: rest =>
      claimsPrototype rest
        (if String.eqb key "sub" then p else assignPrototype isObject key (FJson j) p)
  end.

Fixpoint claimHeadersPrototype (hs : Headers) (p : Prototype UserField)
  : Prototype UserField :=
  match hs with
  | [] => p
  | (key, v) :: rest =>
      claimHeadersPrototype rest
        (if startsWith JWT_CLAIM_PREFIX key
         then assignPrototype isObject
                (toCamelCase (dropPrefix JWT_CLAIM_PREFIX key)) (FParsed (parseValue v)) p
         else p)
  end.

Definition extractUserPrototype (c : Collaborators) (hs : Headers)
  : Prototype UserField :=
  let userinfo := objGet USERINFO hs in
  if truthy userinfo then
    match decodeUserinfo c (default "" userinfo) with
    | Some claims => claimsPrototype claims ObjectPrototype
    | None => claimHeadersPrototype hs ObjectPrototype
    end
  else claimHeadersPrototype hs ObjectPrototype.

Definition canActivate (c : Collaborators) (isPublic : bool) : Guard bool :=
  do r <- getRequest;
  let apiKey := objGet "x-api-key" (headers r) in
  let kongTrustHeader := objGet "x-kong-trust" (headers r) in
  let cameFromKong := truthy kongTrustHeader in
  run (if cameFromKong then verifyKongTrustHeader c
       else if truthy apiKey then
         (run validateServiceApiKey c (default "" apiKey); ret tt)
       else ret tt);
  if isPublic then ret true
  else
    let consumerId := objGet CONSUMER_ID (headers r) in
    let consumerUsername := objGet CONSUMER_USERNAME (headers r) in
    let credentialIdentifier := objGet CREDENTIAL_IDENTIFIER (headers r) in
    let userinfo := objGet USERINFO (headers r) in
    let hasKongHeaders :=
      truthy consumerId || truthy consumerUsername
      || truthy credentialIdentifier || truthy userinfo in
    if hasKongHeaders then
      run (if truthy consumerId || truthy credentialIdentifier || truthy userinfo
           then setUser (extractUserFromHeaders c (headers r))
           else if truthy consumerUsername
                then setService (default "" consumerUsername)
                else ret tt);
      ret true
    else if cameFromKong && truthy apiKey then
      (run setService "partner"; ret true)
    else if truthy apiKey then ret true
    else throw (UnauthorizedException "No authentication provided").

(** Every byte comparison in a trace is between buffers of equal length. *)
Definition equalLengthComparisons (evs : list Event) : Prop :=
  Forall (fun ev => match ev with
                    | TimingSafeEqual a b => length a = length b
                    | SecretsGet _ => True
                    end) evs.

End AuthGuard.

(** ** Secrets providers ([secrets/providers/*.provider.ts]) *)

Module Secrets.
Import JS.

(** [interface CacheEntry] *)
Record CacheEntry := mkCacheEntry {
  value : string;
  expiresAt : Z
}.

(** [interface CloudProviderConfig] *)
Record CloudProviderConfig := mkConfig {
  projectName : string;
  serviceName : string
}.

(** An error raised by the cloud client: its [code] property, if any, and
    the text [error instanceof Error ? error.message : String(error)]. *)
Record StoreError := mkStoreError {
  code : option Z;
  text : string
}.

(** What one call of the cloud client settles to. *)
Inductive Reply (A : Type) :=
| Ok (a : A)
| Fail (e : StoreError).
Arguments Ok {A} a.
Arguments Fail {A} e.

(** What a provider method settles to: a value or [new Error(message)]. *)
Inductive Result (A : Type) :=
| Resolved (a : A)
| Rejected (message : string).
Arguments Resolved {A} a.
Arguments Rejected {A} message.

(** What [get] leaves behind: the returned value ([None] is [null]), the
    cache, and the secret names fetched from the store, in order. *)
Record Lookup := mkLookup {
  found : option string;
  cacheAfter : gmap string CacheEntry;
  fetched : list string
}.

Definition CACHE_TTL_MS : Z := 5 * 60 * 1000.

(** [s.substring(n)] *)
Fixpoint substring (n : nat) (s : string) : string :=
  match n, s with
  | S n', String _ s' => substring n' s'
  | _, _ => s
  end.

(** [i = s.indexOf(c); i >= 0 ? s.substring(i + 1) : s] *)
Fixpoint afterFirst (c : ascii) (s : string) : option string :=
  match s with
  | EmptyString => None
  | String d s' => if Ascii.eqb d c then Some s' else afterFirst c s'
  end.

(** [v || null] on [string | undefined]. *)
Definition orNull (v : option string) : option string :=
  if truthy v then v else None.

Definition isOk {A} (r : Reply A) : bool :=
  match r with
  | Ok _ => true
  | Fail _ => false
  end.

(** "Looks like an absolute URL", as the specification words it. *)
Definition urlShaped (v : string) : Prop :=
  exists rest, v = "https://" +:+ rest \/ v = "http://" +:+ rest.

(** No cached value is URL-shaped. *)
Definition noUrlCached (cache : gmap string CacheEntry) : Prop :=
  forall key entry, cache !! key = Some entry -> ~ urlShaped (value entry).

(** *** Google Secret Manager *)
Module GCP.

(** [SecretManagerServiceClient], as far as the provider calls it.
    [accessSecretVersion] yields [version.payload?.data] decoded; the
    labels handed to [createSecret] do not steer the provider and are
    left out. *)
Record Client := mkClient {
  accessSecretVersion : string -> Reply (option string);
  getSecret : string -> Reply unit;
  createSecret : string -> string -> Reply unit;
  addSecretVersion : string -> string -> Reply unit;
  deleteSecret : string -> Reply unit;
  listSecrets : string -> string -> Reply (list (option string))
}.

Record Provider := mkProvider {
  config : CloudProviderConfig;
  gcpProjectId : string;
  client : Client
}.

(** The constructor: [env] is [process.env], [providerConfig] is
    [config.providerConfig], [sdk] the [new SecretManagerServiceClient()]. *)
Definition new (env providerConfig : gmap string string) (cfg : CloudProviderConfig)
    (sdk : Client) : Result Provider :=
  let gcpProjectId := orElse (env !! "GCP_PROJECT_ID") (providerConfig !! "projectId") in
  if negb (truthy gcpProjectId) then
    Rejected "GCP_PROJECT_ID environment variable is required for GCP secrets provider"
  else Resolved (mkProvider cfg (default "" gcpProjectId) sdk).

Definition buildSecretName (p : Provider) (key scope : string) : string :=
  projectName (config p) +:+ "-" +:+ scope +:+ "-" +:+ key.

Definition extractSecretId (secretName : string) : string := secretName.

Definition extractKeyFromSecretId (secretId : string) : string :=
  join "-" (drop 2 (split "-" secretId)).

Definition parent (p : Provider) : string := "projects/" +:+ gcpProjectId p.

Definition versionName (p : Provider) (secretName : string) : string :=
  parent p +:+ "/secrets/" +:+ extractSecretId secretName +:+ "/versions/latest".

Definition fetchSecretFromGCP (p : Provider) (secretName : string) : option string :=
  match accessSecretVersion (client p) (versionName p secretName) with
  | Ok (Some data) => Some data
  | Ok None => None
  | Fail e =>
      match code e with
      | Some 5%Z => None
      | _ => None
      end
  end.

Definition getFromCache (now : Z) (key : string) (cache : gmap string CacheEntry)
  : option string * gmap string CacheEntry :=
  match cache !! key with
  | None => (None, cache)
  | Some entry =>
      if (now >? expiresAt entry)%Z then (None, delete key cache)
      else (Some (value entry), cache)
  end.

Definition isUrlValue (v : string) : bool :=
  startsWith "https://" v || startsWith "http://" v.

Definition setCache (now : Z) (key v : string) (cache : gmap string CacheEntry)
  : gmap string CacheEntry :=
  if isUrlValue v then cache
  else <[key := mkCacheEntry v (now + CACHE_TTL_MS)]> cache.

Definition invalidateCache (key : string) (cache : gmap string CacheEntry)
  : gmap string CacheEntry := delete key cache.

(** [`${this.serviceName.toUpperCase().replace(/-/g, '_')}_API_KEY`] *)
Definition sharedApiKey (p : Provider) : string :=
  replaceAll "-" "_" (toUpperCase (serviceName (config p))) +:+ "_API_KEY".

(** [get]: [now] is the clock at the cache check, [later] the clock
    when the fetched value is stored. *)
Definition get (p : Provider) (now later : Z) (key : string)
    (cache : gmap string CacheEntry) : Lookup :=
  match getFromCache now key cache with
  | (Some cached, cache1) => mkLookup (Some cached) cache1 []
  | (None, cache1) =>
      let '(v, names) :=
        if String.eqb key "API_KEY" then
          let sharedScopedName := buildSecretName p (sharedApiKey p) "shared" in
          (fetchSecretFromGCP p sharedScopedName, [sharedScopedName])
        else
          let serviceScopedName := buildSecretName p key (serviceName (config p)) in
          match fetchSecretFromGCP p serviceScopedName with
          | Some v => (Some v, [serviceScopedName])
          | None =>
              let sharedScopedName := buildSecretName p key "shared" in
              (fetchSecretFromGCP p sharedScopedName,
               [serviceScopedName; sharedScopedName])
          end in
      match v with
      | Some v' => mkLookup (Some v') (setCache later key v' cache1) names
      | None => mkLookup None cache1 names
      end
  end.

Definition exists_ (p : Provider) (key : string) : bool :=
  let serviceScopedId :=
    extractSecretId (buildSecretName p key (serviceName (config p))) in
  if isOk (getSecret (client p) (parent p +:+ "/secrets/" +:+ serviceScopedId))
  then true
  else
    let sharedScopedId := extractSecretId (buildSecretName p key "shared") in
    isOk (getSecret (client p) (parent p +:+ "/secrets/" +:+ sharedScopedId)).

Definition set (p : Provider) (key v : string) (cache : gmap string CacheEntry)
  : Result unit * gmap string CacheEntry :=
  let secretName := buildSecretName p key (serviceName (config p)) in
  let secretId := extractSecretId secretName in
  let wrap (e : StoreError) :=
    Rejected ("Failed to set secret " +:+ secretName +:+ " in GCP: " +:+ text e) in
  let add :=
    match addSecretVersion (client p) (parent p +:+ "/secrets/" +:+ secretId) v with
    | Ok _ => (Resolved tt, invalidateCache key cache)
    | Fail e => (wrap e, cache)
    end in
  if exists_ p key then add
  else
    match createSecret (client p) (parent p) secretId with
    | Ok _ => add
    | Fail e => (wrap e, cache)
    end.

Definition remove (p : Provider) (key : string) (cache : gmap string CacheEntry)
  : Result unit * gmap string CacheEntry :=
  let secretName := buildSecretName p key (serviceName (config p)) in
  let secretId := extractSecretId secretName in
  match deleteSecret (client p) (parent p +:+ "/secrets/" +:+ secretId) with
  | Ok _ => (Resolved tt, invalidateCache key cache)
  | Fail e =>
      (Rejected ("Failed to remove secret " +:+ secretName +:+ " from GCP: " +:+ text e),
       cache)
  end.

(** The body of the [for] loop of [list]. *)
Definition listedKey (name : option string) : list string :=
  if truthy name then
    let secretId := List.last (split "/" (default "" name)) "" in
    if truthy (Some secretId) then [extractKeyFromSecretId secretId] else []
  else [].

Definition list (p : Provider) : Result (list string) :=
  match listSecrets (client p) (parent p)
          ("labels.project-name=" +:+ projectName (config p)) with
  | Ok secretsResponse => Resolved (flat_map listedKey secretsResponse)
  | Fail e => Rejected ("Failed to list secrets from GCP: " +:+ text e)
  end.

End GCP.

(** *** AWS Secrets Manager *)
Module AWS.

(** One response of [ListSecretsCommand]: [LastPage] carries no
    [NextToken], [NextPage] carries one and is followed by the
    responses to the requests that pass it on. *)
Inductive Pages :=
| LastPage (r : Reply (option (list (option string))))
| NextPage (r : Reply (option (list (option string)))) (rest : Pages).

(** The error of the first response the store gives as an error, if
    there is one. *)
Fixpoint firstError (pages : Pages) : option StoreError :=
  match pages with
  | LastPage (Ok _) => None
  | LastPage (Fail e) => Some e
  | NextPage (Ok _) rest => firstError rest
  | NextPage (Fail e) _ => Some e
  end.

(** [SecretsManagerClient.send], one field per command.  The tags
    handed to [CreateSecretCommand] are left out. *)
Record Client := mkClient {
  getSecretValue : string -> Reply (option string);
  describeSecret : string -> Reply unit;
  createSecret : string -> string -> Reply unit;
  putSecretValue : string -> string -> Reply unit;
  deleteSecret : string -> Reply unit;
  listSecrets : Pages
}.

Record Provider := mkProvider {
  config : CloudProviderConfig;
  client : Client
}.

(** The constructor: [sdk region] is
    [new SecretsManagerClient({ region })]. *)
Definition new (providerConfig : gmap string string) (cfg : CloudProviderConfig)
    (sdk : string -> Client) : Provider :=
  let region := default "us-east-1" (orElse (providerConfig !! "region") None) in
  mkProvider cfg (sdk region).

Definition buildSecretName (p : Provider) (key scope : string) : string :=
  projectName (config p) +:+ "-" +:+ scope +:+ "-" +:+ key.

Definition extractKeyFromSecretName (p : Provider) (secretName : string) : string :=
  let withoutProject :=
    substring (String.length (projectName (config p)) + 1) secretName in
  if startsWith (serviceName (config p) +:+ "-") withoutProject then
    substring (String.length (serviceName (config p)) + 1) withoutProject
  else if startsWith "shared-" withoutProject then
    substring (String.length "shared-") withoutProject
  else default withoutProject (afterFirst "-" withoutProject).

Definition fetchSecretFromAWS (p : Provider) (secretName : string) : option string :=
  match getSecretValue (client p) secretName with
  | Ok secretString => orNull secretString
  | Fail _ => None
  end.

Definition getFromCache (now : Z) (key : string) (cache : gmap string CacheEntry)
  : option string * gmap string CacheEntry :=
  match cache !! key with
  | None => (None, cache)
  | Some entry =>
      if (now >? expiresAt entry)%Z then (None, delete key cache)
      else (Some (value entry), cache)
  end.

Definition setCache (now : Z) (key v : string) (cache : gmap string CacheEntry)
  : gmap string CacheEntry :=
  <[key := mkCacheEntry v (now + CACHE_TTL_MS)]> cache.

Definition invalidateCache (key : string) (cache : gmap string CacheEntry)
  : gmap string CacheEntry := delete key cache.

Definition get (p : Provider) (now later : Z) (key : string)
    (cache : gmap string CacheEntry) : Lookup :=
  match getFromCache now key cache with
  | (Some cached, cache1) => mkLookup (Some cached) cache1 []
  | (None, cache1) =>
      let serviceScopedName := buildSecretName p key (serviceName (config p)) in
      let '(v, names) :=
        match fetchSecretFromAWS p serviceScopedName with
        | Some v => (Some v, [serviceScopedName])
        | None =>
            let sharedScopedName := buildSecretName p key "shared" in
            (fetchSecretFromAWS p sharedScopedName,
             [serviceScopedName; sharedScopedName])
        end in
      match v with
      | Some v' => mkLookup (Some v') (setCache later key v' cache1) names
      | None => mkLookup None cache1 names
      end
  end.

Definition exists_ (p : Provider) (key : string) : bool :=
  if isOk (describeSecret (client p) (buildSecretName p key (serviceName (config p))))
  then true
  else isOk (describeSecret (client p) (buildSecretName p key "shared")).

Definition set (p : Provider) (key v : string) (cache : gmap string CacheEntry)
  : Result unit * gmap string CacheEntry :=
  let secretName := buildSecretName p key (serviceName (config p)) in
  let sent :=
    if negb (exists_ p key) then createSecret (client p) secretName v
    else putSecretValue (client p) secretName v in
  match sent with
  | Ok _ => (Resolved tt, invalidateCache key cache)
  | Fail e =>
      (Rejected ("Failed to set secret " +:+ secretName +:+ " in AWS: " +:+ text e),
       cache)
  end.

Definition remove (p : Provider) (key : string) (cache : gmap string CacheEntry)
  : Result unit * gmap string CacheEntry :=
  let secretName := buildSecretName p key (serviceName (config p)) in
  match deleteSecret (client p) secretName with
  | Ok _ => (Resolved tt, invalidateCache key cache)
  | Fail e =>
      (Rejected ("Failed to remove secret " +:+ secretName +:+ " from AWS: " +:+ text e),
       cache)
  end.

(** The [for] loop over [response.SecretList]. *)
Definition listedKeys (p : Provider) (secretList : option (list (option string)))
  : list string :=
  flat_map
    (fun name =>
       if truthy name then [extractKeyFromSecretName p (default "" name)] else [])
    (default [] secretList).

(** The [do ... while (nextToken)] loop, with the keys pushed so far. *)
Fixpoint listFrom (p : Provider) (pages : Pages) (secrets : list string)
  : Result (list string) :=
  let wrap (e : StoreError) :=
    Rejected ("Failed to list secrets from AWS: " +:+ text e) in
  match pages with
  | LastPage (Ok response) => Resolved (secrets ++ listedKeys p response)%list
  | LastPage (Fail e) => wrap e
  | NextPage (Ok response) rest => listFrom p rest (secrets ++ listedKeys p response)%list
  | NextPage (Fail e) _ => wrap e
  end.

Definition list (p : Provider) : Result (list string) :=
  listFrom p (listSecrets (client p)) [].

End AWS.

(** *** Azure Key Vault *)
Module Azure.

(** [SecretProperties]: the name and [tags?.['project-name']]. *)
Record SecretProperties := mkProperties {
  name : string;
  projectTag : option string
}.

(** [SecretClient].  [beginDeleteSecret] stands for the call and the
    poll until done; [listPropertiesOfSecrets] is what the async
    iterator yields, an error ending the iteration.  The tags handed
    to [setSecret] are left out. *)
Record Client := mkClient {
  getSecret : string -> Reply (option string);
  setSecret : string -> string -> Reply unit;
  beginDeleteSecret : string -> Reply unit;
  listPropertiesOfSecrets : list (Reply SecretProperties)
}.

Record Provider := mkProvider {
  config : CloudProviderConfig;
  client : Client
}.

(** The constructor: [sdk vaultUrl tenantId clientId clientSecret] is
    [new SecretClient(vaultUrl, new ClientSecretCredential(tenantId,
    clientId, clientSecret))]. *)
Definition new (env providerConfig : gmap string string) (cfg : CloudProviderConfig)
    (sdk : string -> string -> string -> string -> Client) : Result Provider :=
  let keyVaultName :=
    default "" (orElse (orElse (env !! "AZURE_KEYVAULT_NAME")
                               (providerConfig !! "keyVaultName"))
                       (Some "")) in
  if negb (truthy (Some keyVaultName)) then
    Rejected "Azure Key Vault name is required. Set AZURE_KEYVAULT_NAME environment variable."
  else
    let tenantId := env !! "AZURE_TENANT_ID" in
    let clientId := env !! "AZURE_CLIENT_ID" in
    let clientSecret := env !! "AZURE_CLIENT_SECRET" in
    if negb (truthy tenantId) || negb (truthy clientId) || negb (truthy clientSecret) then
      Rejected "Azure credentials are required. Set AZURE_TENANT_ID, AZURE_CLIENT_ID, and AZURE_CLIENT_SECRET environment variables."
    else
      let vaultUrl := "https://" +:+ keyVaultName +:+ ".vault.azure.net" in
      Resolved (mkProvider cfg
                  (sdk vaultUrl (default "" tenantId) (default "" clientId)
                       (default "" clientSecret))).

Definition transformKey (key : string) : string := replaceAll "_" "-" key.

Definition reverseTransformKey (key : string) : string := replaceAll "-" "_" key.

Definition buildSecretName (p : Provider) (key scope : string) : string :=
  projectName (config p) +:+ "-" +:+ scope +:+ "-" +:+ transformKey key.

Definition extractKeyFromSecretName (p : Provider) (secretName : string) : string :=
  let withoutProject :=
    substring (String.length (projectName (config p)) + 1) secretName in
  reverseTransformKey
    (if startsWith (serviceName (config p) +:+ "-") withoutProject then
       substring (String.length (serviceName (config p)) + 1) withoutProject
     else if startsWith "shared-" withoutProject then
       substring (String.length "shared-") withoutProject
     else default withoutProject (afterFirst "-" withoutProject)).

Definition fetchSecretFromAzure (p : Provider) (secretName : string) : option string :=
  match getSecret (client p) secretName with
  | Ok v => orNull v
  | Fail _ => None
  end.

Definition getFromCache (now : Z) (key : string) (cache : gmap string CacheEntry)
  : option string * gmap string CacheEntry :=
  match cache !! key with
  | None => (None, cache)
  | Some entry =>
      if (now >? expiresAt entry)%Z then (None, delete key cache)
      else (Some (value entry), cache)
  end.

Definition setCache (now : Z) (key v : string) (cache : gmap string CacheEntry)
  : gmap string CacheEntry :=
  <[key := mkCacheEntry v (now + CACHE_TTL_MS)]> cache.

Definition invalidateCache (key : string) (cache : gmap string CacheEntry)
  : gmap string CacheEntry := delete key cache.

Definition get (p : Provider) (now later : Z) (key : string)
    (cache : gmap string CacheEntry) : Lookup :=
  match getFromCache now key cache with
  | (Some cached, cache1) => mkLookup (Some cached) cache1 []
  | (None, cache1) =>
      let serviceScopedName := buildSecretName p key (serviceName (config p)) in
      let '(v, names) :=
        match fetchSecretFromAzure p serviceScopedName with
        | Some v => (Some v, [serviceScopedName])
        | None =>
            let sharedScopedName := buildSecretName p key "shared" in
            (fetchSecretFromAzure p sharedScopedName,
             [serviceScopedName; sharedScopedName])
        end in
      match v with
      | Some v' => mkLookup (Some v') (setCache later key v' cache1) names
      | None => mkLookup None cache1 names
      end
  end.

Definition exists_ (p : Provider) (key : string) : bool :=
  if isOk (getSecret (client p) (buildSecretName p key (serviceName (config p))))
  then true
  else isOk (getSecret (client p) (buildSecretName p key "shared")).

Definition set (p : Provider) (key v : string) (cache : gmap string CacheEntry)
  : Result unit * gmap string CacheEntry :=
  let secretName := buildSecretName p key (serviceName (config p)) in
  match setSecret (client p) secretName v with
  | Ok _ => (Resolved tt, invalidateCache key cache)
  | Fail e =>
      (Rejected ("Failed to set secret " +:+ secretName +:+ " in Azure: " +:+ text e),
       cache)
  end.

Definition remove (p : Provider) (key : string) (cache : gmap string CacheEntry)
  : Result unit * gmap string CacheEntry :=
  let secretName := buildSecretName p key (serviceName (config p)) in
  match beginDeleteSecret (client p) secretName with
  | Ok _ => (Resolved tt, invalidateCache key cache)
  | Fail e =>
      (Rejected ("Failed to remove secret " +:+ secretName +:+ " from Azure: " +:+ text e),
       cache)
  end.

(** The error of the first item the iterator rejects with, if there is
    one. *)
Fixpoint firstError (items : list (Reply SecretProperties)) : option StoreError :=
  match items with
  | [] => None
  | Ok _ :: rest => firstError rest
  | Fail e :: _ => Some e
  end.

(** The [for await] loop, with the keys pushed so far. *)
Fixpoint listFrom (p : Provider) (items : list (Reply SecretProperties))
    (secrets : list string) : Result (list string) :=
  match items with
  | [] => Resolved secrets
  | Ok properties :: rest =>
      listFrom p rest
        (if decide (projectTag properties = Some (projectName (config p)))
         then (secrets ++ [extractKeyFromSecretName p (name properties)])%list
         else secrets)
  | Fail e :: _ => Rejected ("Failed to list secrets from Azure: " +:+ text e)
  end.

Definition list (p : Provider) : Result (list string) :=
  listFrom p (listPropertiesOfSecrets (client p)) [].

End Azure.

(** *** The local file provider *)
Module Local.

(** [.secrets.local.json]: scope name to key to string value. *)
Record Provider := mkProvider {
  cacheTtl : Z
}.

Definition DEFAULT_CACHE_TTL : Z := 60000.

Record State := mkState {
  secrets : gmap string (gmap string string);
  cache : gmap string CacheEntry;
  serviceName : option string
}.

(** The state with another cache. *)
Definition withCache (st : State) (c : gmap string CacheEntry) : State :=
  mkState (secrets st) c (serviceName st).

Definition quote : string := String (ascii_of_N 34) EmptyString.

Definition notFound (key : string) (service : option string) : string :=
  "Secret " +:+ quote +:+ key +:+ quote +:+ " not found. " +:+
  (if truthy service
   then "Searched in service " +:+ quote +:+ default "" service +:+ quote
        +:+ " and top-level secrets."
   else "Searched in top-level secrets only. Use setServiceName() to search in a specific service.").

(** [scope && typeof scope[key] === 'string' ? scope[key] : undefined] *)
Definition scoped (file : gmap string (gmap string string)) (scope key : string)
  : option string :=
  match file !! scope with
  | Some entries => entries !! key
  | None => None
  end.

(** [get]: [load] is what [loadSecretsFile()] yields at this call,
    [now] the clock at the cache check, [later] the clock when the
    value is stored. *)
Definition get (p : Provider) (load : Result (gmap string (gmap string string)))
    (now later : Z) (key : string) (st : State) : Result string * State :=
  let reload :=
    match load with
    | Rejected message => (Rejected message, st)
    | Resolved file =>
        let st1 := mkState file (cache st) (serviceName st) in
        let v1 :=
          if truthy (serviceName st)
          then scoped file (default "" (serviceName st)) key
          else None in
        let v2 :=
          if truthy v1 then v1
          else match scoped file "secrets" key with
               | Some top => Some top
               | None => v1
               end in
        if truthy v2 then
          (Resolved (default "" v2),
           mkState file
             (<[key := mkCacheEntry (default "" v2) (later + cacheTtl p)]> (cache st))
             (serviceName st))
        else (Rejected (notFound key (serviceName st)), st1)
    end in
  match cache st !! key with
  | Some cached =>
      if (now <? expiresAt cached)%Z then (Resolved (value cached), st)
      else reload
  | None => reload
  end.

End Local.

End Secrets.

(** ** Fixtures: the collaborators of the guard's and providers' tests *)

Module Fixtures.
Import ClaimExtractor AuthGuard.

(** [mockSecretsService] of [auth.guard.test.ts]. *)
Definition mockSecrets : Collaborators :=
  mkCollaborators
    (fun key =>
       if String.eqb key "KONG_TRUST_TOKEN" then Returned "test-kong-trust-token-12345"
       else if String.eqb key "API_KEY" then Returned "direct-service-api-key"
       else Returned "mock-api-key")
    (fun _ => None).

(** [createMockExecutionContext(headers)]: a request with headers only. *)
Definition requestWith (hs : Headers) : State :=
  mkState (mkRequest None None hs None None) [].

Import Secrets.

(** [{ projectName: 'testproject', serviceName: 'test-service' }] of the
    provider tests. *)
Definition testConfig : CloudProviderConfig := mkConfig "testproject" "test-service".

(** A store that holds the listed secrets and answers not-found
    (gRPC code 5) for every other name. *)
Definition storeOf (entries : list (string * string)) (name : string)
  : Reply (option string) :=
  match objGet name entries with
  | Some v => Ok (Some v)
  | None => Fail (mkStoreError (Some 5%Z) "NOT_FOUND")
  end.

(** A store that cannot be reached (gRPC code 14). *)
Definition unreachable {A} : Reply A :=
  Fail (mkStoreError (Some 14%Z) "UNAVAILABLE: connection reset").

Definition gcpWith (access : string -> Reply (option string)) : GCP.Provider :=
  GCP.mkProvider testConfig "p"
    (GCP.mkClient access (fun _ => Ok tt) (fun _ _ => Ok tt) (fun _ _ => Ok tt)
                  (fun _ => Ok tt) (fun _ _ => Ok [])).

Definition awsWith (access : string -> Reply (option string)) : AWS.Provider :=
  AWS.mkProvider testConfig
    (AWS.mkClient access (fun _ => Ok tt) (fun _ _ => Ok tt) (fun _ _ => Ok tt)
                  (fun _ => Ok tt) (AWS.LastPage (Ok None))).

Definition azureWith (access : string -> Reply (option string)) : Azure.Provider :=
  Azure.mkProvider testConfig
    (Azure.mkClient access (fun _ _ => Ok tt) (fun _ => Ok tt) []).

(** A GCP provider whose store rejects every write. *)
Definition gcpReadOnly : GCP.Provider :=
  GCP.mkProvider testConfig "p"
    (GCP.mkClient (fun _ => unreachable) (fun _ => unreachable)
                  (fun _ _ => unreachable) (fun _ _ => unreachable)
                  (fun _ => unreachable) (fun _ _ => unreachable)).

End Fixtures.

(** ** Auxiliary definitions of the proofs about the guard *)

Section GuardStages.
Import JS ClaimExtractor AuthGuard.

(** The code of a byte. *)
Definition byteCode (b : Byte.byte) : N := N_of_ascii (ascii_of_byte b).

(** The first statement of [canActivate]: the trust-header check, or
    the API-key check of a direct call. *)
Definition credentialStage (c : Collaborators) (r : Request) : Guard unit :=
  if truthy (objGet "x-kong-trust" (headers r)) then verifyKongTrustHeader c
  else if truthy (objGet "x-api-key" (headers r)) then
    (run validateServiceApiKey c (default "" (objGet "x-api-key" (headers r))); ret tt)
  else ret tt.

End GuardStages.

(** ** The adapter and the secrets service
    ([cloud-provider-adapter.ts], [provider-factory.ts],
    [secrets.service.ts]) *)

(** [interface CloudSecretsProvider], over the provider's cache: a
    method resolves or rejects and leaves a cache.  [get] takes the clock
    at the cache check and the clock when a fetched value is stored. *)
Module CloudSecretsProvider.
Import Secrets.

Record t := mk {
  get : Z -> Z -> string -> gmap string CacheEntry
        -> Result (option string) * gmap string CacheEntry;
  set : string -> string -> gmap string CacheEntry
        -> Result unit * gmap string CacheEntry;
  remove : string -> gmap string CacheEntry -> Result unit * gmap string CacheEntry;
  exists_ : string -> bool;
  getProviderName : string;
  list : Result (list string)
}.

End CloudSecretsProvider.

Module CloudAdapter.
Import JS ClaimExtractor Secrets.

(** The three implementations of the interface. *)
Definition ofGCP (p : GCP.Provider) : CloudSecretsProvider.t :=
  CloudSecretsProvider.mk
    (fun now later key cache =>
       let l := GCP.get p now later key cache in (Resolved (found l), cacheAfter l))
    (GCP.set p) (GCP.remove p) (GCP.exists_ p) "gcp" (GCP.list p).

Definition ofAWS (p : AWS.Provider) : CloudSecretsProvider.t :=
  CloudSecretsProvider.mk
    (fun now later key cache =>
       let l := AWS.get p now later key cache in (Resolved (found l), cacheAfter l))
    (AWS.set p) (AWS.remove p) (AWS.exists_ p) "aws" (AWS.list p).

Definition ofAzure (p : Azure.Provider) : CloudSecretsProvider.t :=
  CloudSecretsProvider.mk
    (fun now later key cache =>
       let l := Azure.get p now later key cache in (Resolved (found l), cacheAfter l))
    (Azure.set p) (Azure.remove p) (Azure.exists_ p) "azure" (Azure.list p).

(** [class CloudProviderAdapter] *)
Record Adapter := mkAdapter {
  cloudProvider : CloudSecretsProvider.t;
  serviceName : string
}.

Definition notFound (a : Adapter) (key : string) : string :=
  "Secret " +:+ Local.quote +:+ key +:+ Local.quote +:+ " not found in "
  +:+ CloudSecretsProvider.getProviderName (cloudProvider a) +:+ " "
  +:+ "for service " +:+ Local.quote +:+ serviceName a +:+ Local.quote
  +:+ " or shared scope.".

Definition get (a : Adapter) (now later : Z) (key : string)
    (cache : gmap string CacheEntry) : Result string * gmap string CacheEntry :=
  match CloudSecretsProvider.get (cloudProvider a) now later key cache with
  | (Resolved (Some value), cache') => (Resolved value, cache')
  | (Resolved None, cache') => (Rejected (notFound a key), cache')
  | (Rejected message, cache') => (Rejected message, cache')
  end.

(** The [for (const key of allSecrets)] loop of [getAll]: [clock i] is
    the pair of clock readings of the [i]-th [get]; a [get] that rejects
    is skipped. *)
Fixpoint getAllFrom (a : Adapter) (clock : nat -> Z * Z) (i : nat)
    (keys : list string) (result : Obj string) (cache : gmap string CacheEntry)
  : Obj string * gmap string CacheEntry :=
  match keys with
  | [] => (result, cache)
  | key :: rest =>
      match CloudSecretsProvider.get (cloudProvider a)
              (fst (clock i)) (snd (clock i)) key cache with
      | (Resolved (Some value), cache') =>
          getAllFrom a clock (S i) rest (assign key value result) cache'
      | (_, cache') => getAllFrom a clock (S i) rest result cache'
      end
  end.

Definition getAll (a : Adapter) (clock : nat -> Z * Z) (cache : gmap string CacheEntry)
  : Result (Obj string) * gmap string CacheEntry :=
  match CloudSecretsProvider.list (cloudProvider a) with
  | Rejected message => (Rejected message, cache)
  | Resolved allSecrets =>
      let '(result, cache') := getAllFrom a clock 0 allSecrets [] cache in
      (Resolved result, cache')
  end.

(** [set] hands the labels [secret-type: user] and
    [managed-by: tsdevstack] to the provider, which the provider models
    leave out. *)
Definition set (a : Adapter) (key value : string) (cache : gmap string CacheEntry)
  : Result unit * gmap string CacheEntry :=
  CloudSecretsProvider.set (cloudProvider a) key value cache.

Definition delete (a : Adapter) (key : string) (cache : gmap string CacheEntry)
  : Result unit * gmap string CacheEntry :=
  CloudSecretsProvider.remove (cloudProvider a) key cache.

Definition getName (a : Adapter) : string :=
  CloudSecretsProvider.getProviderName (cloudProvider a).

(** [clearCache()]: an empty method body. *)
Definition clearCache (a : Adapter) (cache : gmap string CacheEntry)
  : gmap string CacheEntry := cache.

End CloudAdapter.

(** [class SecretsProviderFactory]: reads [process.env] only. *)
Module ProviderFactory.
Import JS Secrets.

(** [type SecretsProviderType = 'local' | 'gcp' | 'aws' | 'azure'] *)
Inductive SecretsProviderType := local | gcp | aws | azure.

Definition name (t : SecretsProviderType) : string :=
  match t with
  | local => "local"
  | gcp => "gcp"
  | aws => "aws"
  | azure => "azure"
  end.

(** The clients of the three SDKs, as the constructors create them. *)
Record Sdk := mkSdk {
  SecretManagerServiceClient : GCP.Client;
  SecretsManagerClient : string -> AWS.Client;
  SecretClient : string -> string -> string -> string -> Azure.Client
}.

(** What [createProvider] returns when it is not [null]. *)
Inductive Cloud :=
| GCPSecretsProvider (p : GCP.Provider)
| AWSSecretsProvider (p : AWS.Provider)
| AzureSecretsProvider (p : Azure.Provider).

Definition getProviderType (env : gmap string string) : Result SecretsProviderType :=
  let provider := option_map toLowerCase (env !! "SECRETS_PROVIDER") in
  if negb (truthy provider) then Resolved local
  else
    let given := default "" provider in
    if String.eqb given "local" then Resolved local
    else if String.eqb given "gcp" then Resolved gcp
    else if String.eqb given "aws" then Resolved aws
    else if String.eqb given "azure" then Resolved azure
    else Rejected ("Invalid SECRETS_PROVIDER: " +:+ given
                   +:+ ". Must be one of: local, gcp, aws, azure").

Definition getProjectName (env : gmap string string) : Result string :=
  let projectName := env !! "PROJECT_NAME" in
  if negb (truthy projectName) then
    Rejected ("PROJECT_NAME environment variable is required for cloud secrets providers. "
              +:+ "Set it in your deployment configuration or .env file.")
  else Resolved (default "" projectName).

(** The [missing] array of [validateProviderEnvVars], in push order. *)
Definition missing (env : gmap string string) (provider : SecretsProviderType)
  : list string :=
  let unset (v : string) := negb (truthy (env !! v)) in
  let need (b : bool) (v : string) : list string := if b then [v] else [] in
  match provider with
  | gcp =>
      need (unset "GCP_PROJECT_ID") "GCP_PROJECT_ID"
      ++ need (unset "K_SERVICE" && unset "GOOGLE_APPLICATION_CREDENTIALS")
              "GOOGLE_APPLICATION_CREDENTIALS"
  | aws =>
      need (unset "AWS_REGION") "AWS_REGION"
      ++ need (unset "AWS_CONTAINER_CREDENTIALS_RELATIVE_URI" && unset "AWS_ACCESS_KEY_ID")
              "AWS_ACCESS_KEY_ID"
      ++ need (unset "AWS_CONTAINER_CREDENTIALS_RELATIVE_URI"
               && unset "AWS_SECRET_ACCESS_KEY")
              "AWS_SECRET_ACCESS_KEY"
  | azure =>
      need (unset "AZURE_CLIENT_ID") "AZURE_CLIENT_ID"
      ++ need (unset "AZURE_CLIENT_SECRET") "AZURE_CLIENT_SECRET"
      ++ need (unset "AZURE_TENANT_ID") "AZURE_TENANT_ID"
      ++ need (unset "AZURE_KEYVAULT_NAME") "AZURE_KEYVAULT_NAME"
  | local => []
  end.

Definition validateProviderEnvVars (env : gmap string string)
    (provider : SecretsProviderType) : Result unit :=
  let missing := missing env provider in
  if (0 <? length missing)%nat then
    Rejected ("Missing required environment variables for "
              +:+ toUpperCase (name provider) +:+ ": "
              +:+ String.concat ", " missing +:+ ". "
              +:+ "Set these in your deployment configuration or .env file.")
  else Resolved tt.

(** [createProvider]: [None] is [null], "use the local files". *)
Definition createProvider (env : gmap string string) (serviceName : string)
    (sdk : Sdk) : Result (option Cloud) :=
  match getProviderType env with
  | Rejected message => Rejected message
  | Resolved local => Resolved None
  | Resolved providerType =>
      match getProjectName env with
      | Rejected message => Rejected message
      | Resolved projectName =>
          match validateProviderEnvVars env providerType with
          | Rejected message => Rejected message
          | Resolved _ =>
              let config := mkConfig projectName serviceName in
              let providerConfig : gmap string string := ∅ in
              match providerType with
              | gcp =>
                  match GCP.new env providerConfig config
                          (SecretManagerServiceClient sdk) with
                  | Resolved p => Resolved (Some (GCPSecretsProvider p))
                  | Rejected message => Rejected message
                  end
              | aws =>
                  Resolved (Some (AWSSecretsProvider
                                    (AWS.new providerConfig config
                                       (SecretsManagerClient sdk))))
              | azure =>
                  match Azure.new env providerConfig config (SecretClient sdk) with
                  | Resolved p => Resolved (Some (AzureSecretsProvider p))
                  | Rejected message => Rejected message
                  end
              | local => Rejected "Unknown secrets provider type: local"
              end
          end
      end
  end.

End ProviderFactory.

(** [class SecretsService]: the choice of the provider. *)
Module SecretsService.
Import JS Secrets.

Definition nl : string := String (ascii_of_N 10) EmptyString.

(** The provider [detectProvider] returns: the local provider the
    constructor of [LocalSecretsProvider] built (of some type [L]), or
    the adapter around a cloud provider. *)
Inductive Detected (L : Type) :=
| LocalSecretsProvider (l : L)
| CloudProviderAdapter (a : CloudAdapter.Adapter).
Arguments LocalSecretsProvider {L} l.
Arguments CloudProviderAdapter {L} a.

Definition adapt (c : ProviderFactory.Cloud) (serviceName : string)
  : CloudAdapter.Adapter :=
  CloudAdapter.mkAdapter
    match c with
    | ProviderFactory.GCPSecretsProvider p => CloudAdapter.ofGCP p
    | ProviderFactory.AWSSecretsProvider p => CloudAdapter.ofAWS p
    | ProviderFactory.AzureSecretsProvider p => CloudAdapter.ofAzure p
    end
    serviceName.

(** [detectProvider]: [newLocal] is what
    [new LocalSecretsProvider('.secrets.local.json')] followed by
    [setServiceName] comes to, a provider or the constructor's error. *)
Definition detectProvider {L} (env : gmap string string) (serviceName : string)
    (newLocal : Result L) (sdk : ProviderFactory.Sdk) : Result (Detected L) :=
  let provider := env !! "SECRETS_PROVIDER" in
  let localProvider :=
    match newLocal with
    | Resolved l => Resolved (LocalSecretsProvider l)
    | Rejected message => Rejected message
    end in
  if negb (truthy provider) then
    Rejected ("SECRETS_PROVIDER environment variable is required." +:+ nl
              +:+ "Set it to: local, aws, gcp, or azure" +:+ nl
              +:+ "For local development, tsdevstack automatically sets this in .env file.")
  else if String.eqb (default "" provider) "local" then localProvider
  else
    match ProviderFactory.createProvider env serviceName sdk with
    | Rejected message => Rejected message
    | Resolved None => localProvider
    | Resolved (Some cloudProvider) =>
        Resolved (CloudProviderAdapter (adapt cloudProvider serviceName))
    end.

(** The constructor's choice: [config.forceProvider || this.detectProvider()]. *)
Definition provider {L} (forceProvider : option (Detected L))
    (env : gmap string string) (serviceName : string)
    (newLocal : Result L) (sdk : ProviderFactory.Sdk) : Result (Detected L) :=
  match forceProvider with
  | Some forced => Resolved forced
  | None => detectProvider env serviceName newLocal sdk
  end.

End SecretsService.

(** ** The scheduler guard ([scheduler/scheduler.guard.ts]) *)

Module SchedulerGuard.
Import JS ClaimExtractor AuthGuard.

(** [SecretsService.get] and [OAuth2Client.verifyIdToken] with its
    [idToken] and [audience]; each resolves or rejects. *)
Record Collaborators := mkCollaborators {
  secrets_get : string -> Outcome string;
  verifyIdToken : string -> string -> Outcome unit
}.

(** [try { body } catch { handler }] *)
Definition tryCatch {A} (body : Outcome A) (handler : Exception -> Outcome A)
  : Outcome A :=
  match body with
  | Returned a => Returned a
  | Thrown e => handler e
  end.

Definition validateAwsJobSecret (c : Collaborators) (hs : Headers) : Outcome bool :=
  let jobSecret := objGet "x-job-secret" hs in
  if negb (truthy jobSecret) then Returned false
  else
    tryCatch
      match secrets_get c "JOB_AUTH_SECRET" with
      | Thrown e => Thrown e
      | Returned expectedSecret =>
          if negb (truthy (Some expectedSecret)) then Returned false
          else if String.eqb (default "" jobSecret) expectedSecret then Returned true
          else Returned false
      end
      (fun _ => Returned false).

Definition validateAzureJobSecret (c : Collaborators) (hs : Headers) : Outcome bool :=
  let jobSecret := objGet "x-job-secret" hs in
  if negb (truthy jobSecret) then Returned false
  else
    tryCatch
      match secrets_get c "JOB_SECRET" with
      | Thrown e => Thrown e
      | Returned expectedSecret =>
          if negb (truthy (Some expectedSecret)) then Returned false
          else if String.eqb (default "" jobSecret) expectedSecret then Returned true
          else Returned false
      end
      (fun _ => Returned false).

(** [`${serviceName.toUpperCase().replace(/-/g, '_')}_URL`] *)
Definition urlSecretKey (serviceName : string) : string :=
  replaceAll "-" "_" (toUpperCase serviceName) +:+ "_URL".

Definition validateGcpOidc (env : gmap string string) (c : Collaborators) (hs : Headers)
  : Outcome bool :=
  let authHeader := objGet "authorization" hs in
  if negb (match authHeader with
           | Some h => startsWith "Bearer " h
           | None => false
           end) then Returned false
  else
    tryCatch
      (let serviceName := env !! "SERVICE_NAME" in
       if negb (truthy serviceName) then Returned false
       else
         match secrets_get c (urlSecretKey (default "" serviceName)) with
         | Thrown e => Thrown e
         | Returned serviceUrl =>
             match verifyIdToken c (Secrets.substring 7 (default "" authHeader))
                     serviceUrl with
             | Thrown e => Thrown e
             | Returned _ => Returned true
             end
         end)
      (fun _ => Returned false).

Definition canActivate (env : gmap string string) (c : Collaborators) (hs : Headers)
  : Outcome bool :=
  let secretsProvider := env !! "SECRETS_PROVIDER" in
  if decide (secretsProvider = Some "local") then Returned true
  else if decide (secretsProvider = Some "gcp") then validateGcpOidc env c hs
  else if decide (secretsProvider = Some "aws") then validateAwsJobSecret c hs
  else if decide (secretsProvider = Some "azure") then validateAzureJobSecret c hs
  else Returned false.

End SchedulerGuard.

(** ** Rate limiting ([rate-limit/rate-limit.guard.ts],
    [rate-limit-headers.interceptor.ts]) *)

(** Node's [IncomingHttpHeaders]: a header is a string, an array of
    strings, or a key whose value is [undefined]. *)
Module Http.
Import ClaimExtractor.

Inductive HeaderValue :=
| Text (s : string)
| Many (items : list string)
| Undefined.

Definition IncomingHttpHeaders : Type := Obj HeaderValue.

End Http.

Module RateLimitGuard.
Import JS ClaimExtractor Secrets Http.

(** [String(n)] of an integer Number: its decimal digits.  Numbers are
    integers here ([Date.now()], window lengths in milliseconds,
    request counts), exact in a JavaScript Number below 2^53. *)
Definition numberToString (n : Z) : string := NilZero.string_of_int (Z.to_int n).

(** [interface RateLimitOptions]; the two callbacks are given by what
    they return for the context at hand. *)
Inductive KeyGenerator := Ip | ApiKey | UserId | Custom.

Record RateLimitOptions := mkOptions {
  windowMs : option Z;
  maxRequests : option Z;
  keyGenerator : option KeyGenerator;
  customKeyGenerator : option string;
  skipIf : option bool;
  message : option string
}.

Record RateLimit := mkRateLimit {
  limit : Z;
  remaining : Z;
  reset : Z
}.

Record User := mkUser {
  id : option string;
  sub : option string
}.

(** [interface RequestWithRateLimit] with [socket?.remoteAddress]. *)
Record Request := mkRequest {
  headers : IncomingHttpHeaders;
  user : option User;
  remoteAddress : option string;
  rateLimit : option RateLimit
}.

Record RateLimitResult := mkResult {
  success : bool;
  result_limit : Z;
  result_remaining : Z;
  result_reset : Z;
  current : Z
}.

(** What the guard throws: [UnauthorizedException(message)] and the
    [HttpException] with status 429, whose body holds the message, the
    [error] label and the three numbers. *)
Inductive Exception :=
| UnauthorizedException (message : string)
| TooManyRequests (message error : string) (limit remaining reset : Z).

Inductive Outcome (A : Type) :=
| Returned (a : A)
| Thrown (e : Exception).
Arguments Returned {A} a.
Arguments Thrown {A} e.

(** The ioredis client, as far as the guard calls it, and the calls made. *)
Record Redis := mkRedis {
  incr : string -> Reply Z;
  expire : string -> Z -> Reply Z
}.

Inductive Call :=
| Incr (key : string)
| Expire (key : string) (seconds : Z).

(** [header?.toString()] *)
Definition toString (h : HeaderValue) : option string :=
  match h with
  | Text s => Some s
  | Many items => Some (String.concat "," items)
  | Undefined => None
  end.

(** [request.headers[name]], [undefined] for a missing key. *)
Definition header (request : Request) (name : string) : HeaderValue :=
  default Undefined (objGet name (headers request)).

Definition getClientIp (request : Request) : string :=
  let forwarded :=
    match toString (header request "x-forwarded-for") with
    | Some s => Some (hd "" (split "," s))
    | None => None
    end in
  let ip :=
    default "unknown"
      (orElse (orElse (orElse forwarded (toString (header request "x-real-ip")))
                      (remoteAddress request))
              None) in
  "ip:" +:+ trim ip.

Definition generateKey (request : Request) (options : RateLimitOptions)
  : Outcome string :=
  match customKeyGenerator options with
  | Some key => Returned key
  | None =>
      let apiKeyHeader := header request "x-api-key" in
      let apiKey :=
        match apiKeyHeader with
        | Many items => hd_error items
        | Text s => Some s
        | Undefined => None
        end in
      let userId :=
        match user request with
        | Some u => orElse (id u) (sub u)
        | None => None
        end in
      match keyGenerator options with
      | Some ApiKey =>
          if negb (truthy apiKey) then
            Thrown (UnauthorizedException "API key required for this endpoint")
          else Returned ("api:" +:+ default "" apiKey)
      | Some UserId =>
          if negb (truthy userId) then
            Thrown (UnauthorizedException "User authentication required for this endpoint")
          else Returned ("user:" +:+ default "" userId)
      | _ => Returned (getClientIp request)
      end
  end.

(** [Math.ceil(a / b)] for integers, [b] positive. *)
Definition ceilDiv (a b : Z) : Z := (- ((- a) / b))%Z.

Definition windowKey (key : string) (window : Z) : string :=
  "rate_limit:" +:+ key +:+ ":" +:+ numberToString window.

(** [checkRateLimit]: [now] is the clock of the [try] block, [later]
    the clock of the [catch] block. *)
Definition checkRateLimit (redis : Redis) (now later : Z) (request : Request)
    (options : RateLimitOptions) : Outcome RateLimitResult * list Call :=
  let windowMs := default (15 * 60 * 1000)%Z (windowMs options) in
  let maxRequests := default 100%Z (maxRequests options) in
  match generateKey request options with
  | Thrown e => (Thrown e, [])
  | Returned key =>
      let window := (now / windowMs)%Z in
      let windowKey := windowKey key window in
      let failOpen :=
        Returned (mkResult true maxRequests maxRequests (later + windowMs)%Z 0%Z) in
      match incr redis windowKey with
      | Fail _ => (failOpen, [Incr windowKey])
      | Ok current =>
          let counted :=
            Returned (mkResult (current <=? maxRequests)%Z maxRequests
                               (Z.max 0 (maxRequests - current))
                               ((window + 1) * windowMs)%Z current) in
          if (current =? 1)%Z then
            let seconds := ceilDiv windowMs 1000 in
            match expire redis windowKey seconds with
            | Ok _ => (counted, [Incr windowKey; Expire windowKey seconds])
            | Fail _ => (failOpen, [Incr windowKey; Expire windowKey seconds])
            end
          else (counted, [Incr windowKey])
      end
  end.

(** [canActivate]: [rateLimitOptions] is what the reflector finds on
    the handler, [None] for a route without the decorator. *)
Definition canActivate (redis : Redis) (now later : Z)
    (rateLimitOptions : option RateLimitOptions) (request : Request)
  : Outcome bool * Request * list Call :=
  match rateLimitOptions with
  | None => (Returned true, request, [])
  | Some options =>
      if default false (skipIf options) then (Returned true, request, [])
      else
        match checkRateLimit redis now later request options with
        | (Thrown e, calls) => (Thrown e, request, calls)
        | (Returned result, calls) =>
            if negb (success result) then
              (Thrown (TooManyRequests
                         (default "Too many requests" (orElse (message options) None))
                         "Too Many Requests"
                         (result_limit result) (result_remaining result)
                         (result_reset result)),
               request, calls)
            else
              (Returned true,
               mkRequest (headers request) (user request) (remoteAddress request)
                 (Some (mkRateLimit (result_limit result) (result_remaining result)
                                    (result_reset result))),
               calls)
        end
  end.

(** [RateLimitHeadersInterceptor]: the headers set on the response. *)
Definition rateLimitHeaders (request : Request) : list (string * string) :=
  match rateLimit request with
  | Some info =>
      [("X-RateLimit-Limit", numberToString (limit info));
       ("X-RateLimit-Remaining", numberToString (remaining info));
       ("X-RateLimit-Reset", numberToString (reset info))]
  | None => []
  end.

End RateLimitGuard.

(** ** Header forwarding ([service-client/filter-forward-headers.ts]) *)

Module ServiceClient.
Import JS ClaimExtractor Http.

Definition SKIP_HEADERS : list string :=
  ["connection"; "keep-alive"; "transfer-encoding"; "upgrade";
   "host";
   "content-length"; "content-encoding";
   "proxy-authenticate"; "proxy-authorization"; "te"; "trailer"].

(** [SKIP_HEADERS.has(lowerKey)] *)
Definition skipped (lowerKey : string) : bool :=
  existsb (String.eqb lowerKey) SKIP_HEADERS.

(** The [for] loop over [Object.entries(headers)]. *)
Fixpoint filterFrom (entries : IncomingHttpHeaders) (result : Obj string)
  : Obj string :=
  match entries with
  | [] => result
  | (key, value) :: rest =>
      let lowerKey := toLowerCase key in
      if skipped lowerKey then filterFrom rest result
      else
        match value with
        | Text s => filterFrom rest (objSet key s result)
        | _ => filterFrom rest result
        end
  end.

Definition filterForwardHeaders (headers : IncomingHttpHeaders) : Obj string :=
  filterFrom headers [].

End ServiceClient.

(** ** Package metadata ([utils/package-json.ts]) *)

Module PackageJson.
Import JS.

(** [author?: string | { name: string }] *)
Inductive Author :=
| AuthorText (s : string)
| AuthorObject (name : option string).

Definition extractAuthor (author : option Author) : string :=
  match author with
  | None => "unknown"
  | Some (AuthorText s) => if truthy (Some s) then s else "unknown"
  | Some (AuthorObject name) => default "unknown" (orElse name None)
  end.

(** [word.charAt(0).toUpperCase() + word.slice(1)] *)
Definition capitalize (word : string) : string :=
  match word with
  | EmptyString => EmptyString
  | String c rest => String (toUpperChar c) rest
  end.

Definition titleCase (str : string) : string :=
  join " " (map capitalize (split "-" str)).

(** The reading of [titleCase] position by position: a hyphen becomes
    a space, a character at the start or right after a hyphen is
    upper-cased, any other character is kept. *)
Definition titleAt (prev : option ascii) (c : ascii) : ascii :=
  if Ascii.eqb c "-" then " "%char
  else match prev with
       | None => toUpperChar c
       | Some p => if Ascii.eqb p "-" then toUpperChar c else c
       end.

Fixpoint titleByPosition (prev : option ascii) (s : string) : string :=
  match s with
  | EmptyString => EmptyString
  | String c rest => String (titleAt prev c) (titleByPosition (Some c) rest)
  end.

(** Every code unit is ASCII, the range [toUpperChar] covers. *)
Definition isAscii (s : string) : Prop :=
  Forall (fun c => (N_of_ascii c < 128)%N) (chars s).

End PackageJson.

(** ** Health ([redis/redis.service.ts], [health/indicators/*.ts],
    [health/health.service.ts]) *)

Module RedisService.
Import Secrets AuthGuard.

(** A call of the ioredis client inside [try]: its reply resolves, or
    rejects with an error. *)
Definition await {A} (reply : Reply A) : Outcome A :=
  match reply with
  | Ok a => Returned a
  | Fail e => Thrown (PlainError (text e))
  end.

Definition map {A B} (f : A -> B) (o : Outcome A) : Outcome B :=
  match o with
  | Returned a => Returned (f a)
  | Thrown e => Thrown e
  end.

Definition get (reply : Reply (option string)) : Outcome (option string) :=
  SchedulerGuard.tryCatch (await reply) (fun _ => Returned None).

(** [set]: [reply] is what [setex] or [set] settles to. *)
Definition set (reply : Reply unit) : Outcome bool :=
  SchedulerGuard.tryCatch (map (fun _ => true) (await reply)) (fun _ => Returned false).

Definition incr (reply : Reply Z) : Outcome (option Z) :=
  SchedulerGuard.tryCatch (map Some (await reply)) (fun _ => Returned None).

Definition expire (reply : Reply Z) : Outcome bool :=
  SchedulerGuard.tryCatch (map (fun result => (result =? 1)%Z) (await reply))
    (fun _ => Returned false).

Definition del (reply : Reply Z) : Outcome bool :=
  SchedulerGuard.tryCatch (map (fun result => (0 <? result)%Z) (await reply))
    (fun _ => Returned false).

End RedisService.

Module Health.
Import Secrets AuthGuard.

(** ['up' | 'down'] and ['ok' | 'degraded' | 'down'], the overall
    ['down'] being [unhealthy] here. *)
Inductive IndicatorStatus := up | down.
Inductive HealthStatus := ok | degraded | unhealthy.

(** A value of [details]: a number or a string. *)
Inductive Detail := Num (n : Z) | Str (s : string).

(** [HealthIndicatorResult], [details] being optional. *)
Record HealthIndicatorResult := mkIndicator {
  status : IndicatorStatus;
  details : option (list (string * Detail))
}.

Definition DEFAULT_HEAP_THRESHOLD : Z := 500 * 1024 * 1024.

(** [Math.round(bytes / 1024 / 1024)] for an integer number of bytes. *)
Definition megabytes (bytes : Z) : Z := ((bytes + 524288) / 1048576)%Z.

(** [RedisHealthIndicator.check]: [probe] is what
    [redisService.get('health-check')] settles to. *)
Definition redisCheck (probe : Outcome (option string)) : HealthIndicatorResult :=
  match probe with
  | Returned _ => mkIndicator up None
  | Thrown _ => mkIndicator down (Some [("error", Str "Redis connection failed")])
  end.

(** [MemoryHealthIndicator.check]: [heapUsed] and [heapTotal] are the
    fields of [process.memoryUsage()]. *)
Definition memoryCheck (heapThreshold heapUsed heapTotal : Z) : HealthIndicatorResult :=
  if (heapUsed >? heapThreshold)%Z then
    mkIndicator down
      (Some [("heapUsed", Num (megabytes heapUsed));
             ("heapThreshold", Num (megabytes heapThreshold));
             ("unit", Str "MB")])
  else
    mkIndicator up
      (Some [("heapUsed", Num (megabytes heapUsed));
             ("heapTotal", Num (megabytes heapTotal));
             ("unit", Str "MB")]).

(** [interface HealthModuleOptions]: [memory] is absent, or present
    with or without [heapThreshold]. *)
Record HealthModuleOptions := mkOptions {
  redis : option bool;
  memory : option (option Z)
}.

(** The threshold of the injected memory indicator after
    [onModuleInit]. *)
Definition onModuleInit (options : HealthModuleOptions) : Z :=
  match memory options with
  | Some (Some heapThreshold) =>
      if (heapThreshold =? 0)%Z then DEFAULT_HEAP_THRESHOLD else heapThreshold
  | _ => DEFAULT_HEAP_THRESHOLD
  end.

(** [HealthCheckResult] without [timestamp] and [uptime]. *)
Record HealthCheckResult := mkHealth {
  overall : HealthStatus;
  checks : list (string * HealthIndicatorResult);
  used : Z;
  total : Z
}.

(** [HealthService.check]: [redisIndicator] is the reply of the Redis
    client to the probe when the indicator is injected,
    [memoryIndicator] the threshold of the injected memory indicator;
    [heapUsed] and [heapTotal] are read by the memory indicator,
    [reportUsed] and [reportTotal] by the service afterwards. *)
Definition check (options : HealthModuleOptions)
    (redisIndicator : option (Reply (option string))) (memoryIndicator : option Z)
    (heapUsed heapTotal reportUsed reportTotal : Z) : HealthCheckResult :=
  let redisResult :=
    match redisIndicator with
    | Some reply =>
        if default false (redis options) then Some (redisCheck (RedisService.get reply))
        else None
    | None => None
    end in
  let memoryResult :=
    match memory options, memoryIndicator with
    | Some _, Some heapThreshold => Some (memoryCheck heapThreshold heapUsed heapTotal)
    | _, _ => None
    end in
  let isDown (r : option HealthIndicatorResult) : bool :=
    match r with
    | Some (mkIndicator down _) => true
    | _ => false
    end in
  let entry (name : string) (r : option HealthIndicatorResult) :=
    match r with
    | Some result => [(name, result)]
    | None => []
    end in
  mkHealth (if isDown redisResult || isDown memoryResult then degraded else ok)
           (entry "redis" redisResult ++ entry "memory" memoryResult)
           (megabytes reportUsed) (megabytes reportTotal).

End Health.

(** ** Framework configuration ([config/load-framework-config.ts]) *)

Module FrameworkConfig.

(** A directory, as the names on the path from it up to the root,
    innermost first; the root is the empty path and its own parent. *)
Definition Dir : Type := list string.

Definition dirname (d : Dir) : Dir := tl d.

(** The [while (depth < maxDepth)] loop, [fuel] being
    [maxDepth - depth]; [hasConfig d] is
    [fs.existsSync(path.join(d, '.tsdevstack', 'config.json'))]. *)
Fixpoint search (hasConfig : Dir -> bool) (fuel : nat) (currentDir : Dir)
  : option Dir :=
  match fuel with
  | O => None
  | S fuel' =>
      if hasConfig currentDir then Some currentDir
      else
        match currentDir with
        | [] => None
        | _ :: parentDir => search hasConfig fuel' parentDir
        end
  end.

Definition maxDepth : nat := 10.

(** [findFrameworkConfigFile]: the directory that holds the file. *)
Definition findFrameworkConfigFile (hasConfig : Dir -> bool) (cwd : Dir) : option Dir :=
  search hasConfig maxDepth cwd.

End FrameworkConfig.

(** ** Logging ([logging/logger.service.ts]) *)

Module Logger.
Import JS.

Definition DEFAULT_REDACT_PATHS : list string :=
  ["password"; "*.password"; "email"; "*.email"; "ssn"; "*.ssn";
   "creditCard"; "*.creditCard"; "token"; "*.token"; "secret"; "*.secret";
   "apiKey"; "*.apiKey"].

(** [[...new Set(paths)]]: the first occurrence of each path, in order. *)
Fixpoint unique (seen paths : list string) : list string :=
  match paths with
  | [] => []
  | p :: rest =>
      if existsb (String.eqb p) seen then unique seen rest
      else p :: unique (p :: seen) rest
  end.

(** [buildRedactPaths]: the options [disableDefaultRedaction] and
    [redactPaths], and [process.env.LOG_REDACT_PATHS]. *)
Definition buildRedactPaths (disableDefaultRedaction : bool)
    (redactPaths : option (list string)) (envPaths : option string) : list string :=
  let paths :=
    ((if negb disableDefaultRedaction then DEFAULT_REDACT_PATHS else [])
     ++ default [] redactPaths
     ++ (if truthy envPaths then map trim (split "," (default "" envPaths)) else []))%list in
  unique [] paths.

End Logger.

(** * Properties *)

(** ** Strings *)

#[local] Arguments String.append !_ _ / : simpl nomatch.

Section StringFacts.
Import JS.

Lemma startsWith_spec (p s : string) :
  startsWith p s = true <-> exists t, s = p +:+ t.
Proof.
  revert s; induction p as [|a p IH]; intros s; simpl.
  - split; [intros _; now exists s | reflexivity].
  - destruct s as [|b s]; simpl.
    + split; [discriminate | intros [t Ht]; discriminate].
    + rewrite andb_true_iff, IH. split.
      * intros [Hab [t ->]]. apply Ascii.eqb_eq in Hab as ->. now exists t.
      * intros [t Ht]. injection Ht as -> ->. split; [apply Ascii.eqb_refl | now exists t].
Qed.

Lemma append_assoc (a b c : string) : (a +:+ b) +:+ c = a +:+ (b +:+ c).
Proof. induction a as [|x a IH]; simpl; [reflexivity | now rewrite IH]. Qed.

Lemma append_nil_r (a : string) : a +:+ "" = a.
Proof. induction a as [|x a IH]; simpl; [reflexivity | now rewrite IH]. Qed.

Lemma includes_spec (needle s : string) :
  includes needle s = true <-> exists a b, s = a +:+ needle +:+ b.
Proof.
  induction s as [|c s IH].
  - simpl. rewrite orb_false_r, startsWith_spec. split.
    + intros [t Ht]. now exists "", t.
    + intros [a [b Hab]]. destruct a; [now exists b | discriminate].
  - cbn [includes]. rewrite orb_true_iff, startsWith_spec, IH. split.
    + intros [[t Ht] | [a [b Hab]]].
      * now exists "", t.
      * exists (String c a), b. simpl. now rewrite Hab.
    + intros [a [b Hab]]. destruct a as [|x a]; simpl in Hab.
      * left. now exists b.
      * right. injection Hab as -> ->. now exists a, b.
Qed.

Lemma chars_app (a b : string) : chars (a +:+ b) = (chars a ++ chars b)%list.
Proof. induction a as [|x a IH]; simpl; [reflexivity | now rewrite <- IH]. Qed.

Lemma includes_char (c : ascii) (s : string) :
  includes (String c "") s = true <-> In c (chars s).
Proof.
  induction s as [|d s IH]; cbn [includes startsWith chars list_ascii_of_string In].
  - split; [discriminate | tauto].
  - rewrite orb_true_iff, andb_true_r, IH, Ascii.eqb_eq. unfold chars.
    split; (intros [H|H]; [left; congruence | now right]).
Qed.

Lemma isLowerAZ_hyphen (c : ascii) : isLowerAZ c = true -> Ascii.eqb c "-" = false.
Proof.
  intros H. destruct (Ascii.eqb_spec c "-") as [->|]; [discriminate H | reflexivity].
Qed.

Lemma split_nonempty (sep : ascii) (s : string) : split sep s <> [].
Proof.
  induction s as [|c s IH]; simpl; [discriminate |].
  destruct (Ascii.eqb c sep); [discriminate |].
  destruct (split sep s); [congruence | discriminate].
Qed.

(** Joining the segments of a split with the separator gives the string back. *)
Lemma join_split (sep : ascii) (s : string) : join sep (split sep s) = s.
Proof.
  induction s as [|c s IH]; simpl; [reflexivity |].
  pose proof (split_nonempty sep s) as Hne.
  destruct (Ascii.eqb_spec c sep) as [->|Hc].
  - destruct (split sep s) as [|seg segs] eqn:E; [congruence |].
    cbn [join]. simpl. now rewrite <- IH.
  - destruct (split sep s) as [|seg segs] eqn:E; [congruence |].
    destruct segs as [|seg' segs]; simpl in *; now rewrite <- IH.
Qed.

(** No segment of a split contains the separator. *)
Lemma split_no_sep (sep : ascii) (s : string) :
  Forall (fun seg => ~ In sep (chars seg)) (split sep s).
Proof.
  induction s as [|c s IH]; simpl.
  - constructor; [simpl; tauto | constructor].
  - destruct (Ascii.eqb_spec c sep) as [->|Hc].
    + constructor; [simpl; tauto | exact IH].
    + destruct (split sep s) as [|seg segs]; [constructor; [|constructor] |].
      * simpl. intros [H|[]]. congruence.
      * inversion IH as [|? ? Hseg Hsegs]; subst. constructor; [|exact Hsegs].
        simpl. intros [H|H]; [congruence | now apply Hseg].
Qed.

(** A split has one segment more than the string has separators. *)
Lemma split_length (sep : ascii) (s : string) :
  length (split sep s) = S (count_occ ascii_dec (chars s) sep).
Proof.
  induction s as [|c s IH]; simpl; [reflexivity |].
  pose proof (split_nonempty sep s) as Hne.
  destruct (Ascii.eqb_spec c sep) as [->|Hc].
  - destruct (ascii_dec sep sep); [|congruence]. simpl. now rewrite IH.
  - destruct (ascii_dec c sep); [congruence |].
    destruct (split sep s); [congruence | exact IH].
Qed.

Lemma trimStart_spec (s : string) :
  exists pre, s = pre +:+ trimStart s
              /\ Forall (fun c => isWhiteSpace c = true) (chars pre)
              /\ match trimStart s with
                 | String c _ => isWhiteSpace c = false
                 | EmptyString => True
                 end.
Proof.
  induction s as [|c s (pre & Hs & Hpre & Hfirst)]; simpl.
  - exists "". repeat split. constructor.
  - destruct (isWhiteSpace c) eqn:Hc.
    + exists (String c pre). simpl. repeat split; [now rewrite <- Hs | | exact Hfirst].
      constructor; assumption.
    + exists "". repeat split; [constructor | exact Hc].
Qed.

Lemma trimEnd_spec (s : string) :
  exists post, s = trimEnd s +:+ post
               /\ Forall (fun c => isWhiteSpace c = true) (chars post)
               /\ (forall t c, trimEnd s = t +:+ String c "" -> isWhiteSpace c = false).
Proof.
  induction s as [|c s (post & Hs & Hpost & Hlast)]; simpl.
  - exists "". repeat split; [constructor |]. intros [|] ? H; discriminate H.
  - destruct (trimEnd s) as [|x t'] eqn:E.
    + simpl in Hs. subst post. destruct (isWhiteSpace c) eqn:Hc.
      * exists (String c s). repeat split; [now constructor |].
        intros [|] ? H; discriminate H.
      * exists s. repeat split; [exact Hpost |].
        intros [|y t] d H; simpl in H.
        -- now injection H as <-.
        -- injection H as _ H. destruct t; discriminate H.
    + exists post. repeat split; [simpl; now rewrite Hs | exact Hpost |].
      intros [|y t] d H; simpl in H; [discriminate H |].
      injection H as _ H. now apply (Hlast t d).
Qed.

Lemma trimEnd_first (c : ascii) (s : string) :
  isWhiteSpace c = false -> exists t, trimEnd (String c s) = String c t.
Proof.
  intros Hc. simpl. destruct (trimEnd s); rewrite ?Hc; eauto.
Qed.

(** [trim] removes a run of white space at each end and nothing else,
    and what is left neither starts nor ends with white space. *)
Lemma trim_spec (s : string) :
  exists pre post,
    s = pre +:+ trim s +:+ post
    /\ Forall (fun c => isWhiteSpace c = true) (chars pre)
    /\ Forall (fun c => isWhiteSpace c = true) (chars post)
    /\ (forall c t, trim s = String c t -> isWhiteSpace c = false)
    /\ (forall t c, trim s = t +:+ String c "" -> isWhiteSpace c = false).
Proof.
  unfold trim.
  destruct (trimStart_spec s) as (pre & Hs & Hpre & Hfirst).
  destruct (trimEnd_spec (trimStart s)) as (post & Ht & Hpost & Hlast).
  exists pre, post. repeat split; [congruence | assumption | assumption | | assumption].
  intros c t Hc. destruct (trimStart s) as [|d u]; [discriminate Hc |].
  destruct (trimEnd_first d u Hfirst) as [t' Ht']. congruence.
Qed.

Lemma isDigit_spec (c : ascii) : isDigit c = true <-> In c (chars "0123456789").
Proof.
  destruct c as [[] [] [] [] [] [] [] []]; vm_compute;
    (split; [first [discriminate | tauto] | first [reflexivity | intuition discriminate]]).
Qed.

Lemma isLowerAZ_spec (c : ascii) :
  isLowerAZ c = true <-> In c (chars "abcdefghijklmnopqrstuvwxyz").
Proof.
  destruct c as [[] [] [] [] [] [] [] []]; vm_compute;
    (split; [first [discriminate | tauto] | first [reflexivity | intuition discriminate]]).
Qed.

Lemma allDigits_spec (s : string) :
  allDigits s = true <-> Forall (fun c => In c (chars "0123456789")) (chars s).
Proof.
  induction s as [|c s IH]; simpl.
  - split; [constructor | reflexivity].
  - rewrite andb_true_iff, IH, isDigit_spec. split.
    + intros [? ?]. now constructor.
    + intros H. inversion H; subst. now split.
Qed.

Lemma testDigits_spec (s : string) :
  testDigits s = true <-> ClaimExtractor.isDecimal s.
Proof.
  unfold ClaimExtractor.isDecimal. destruct s as [|c s].
  - simpl. split; [discriminate | intros [H _]; congruence].
  - unfold testDigits. rewrite allDigits_spec. split; [split; [discriminate | assumption] | tauto].
Qed.

(** Positional reading: appending a digit multiplies by ten and adds it. *)
Lemma parseDigits_snoc (acc : Z) (s : string) (d : ascii) :
  parseDigits acc (s +:+ String d "") = (parseDigits acc s * 10 + digitValue d)%Z.
Proof.
  revert acc; induction s as [|c s IH]; intros acc; simpl; [reflexivity | apply IH].
Qed.

Lemma isDigit_value (c : ascii) : isDigit c = true -> (0 <= digitValue c <= 9)%Z.
Proof.
  unfold isDigit, digitValue. cbv zeta. rewrite andb_true_iff, !N.leb_le. lia.
Qed.

(** A string of [n] digits denotes less than 10^n. *)
Lemma parseDigits_bound (s : string) :
  allDigits s = true ->
  forall acc, (0 <= acc)%Z ->
    (0 <= parseDigits acc s < (acc + 1) * 10 ^ Z.of_nat (String.length s))%Z.
Proof.
  induction s as [|c s IH]; intros Hd acc Hacc.
  - cbn [parseDigits String.length]. change (10 ^ Z.of_nat 0)%Z with 1%Z. lia.
  - cbn [allDigits] in Hd. apply andb_true_iff in Hd as [Hc Hs].
    apply isDigit_value in Hc. cbn [parseDigits String.length].
    specialize (IH Hs (acc * 10 + digitValue c)%Z ltac:(lia)).
    rewrite Nat2Z.inj_succ, Z.pow_succ_r by lia.
    assert (0 < 10 ^ Z.of_nat (String.length s))%Z by (apply Z.pow_pos_nonneg; lia).
    nia.
Qed.

(** Below 2^53 the Number value of an integer is the integer. *)
Lemma toNumber_exact (n : Z) : (n < 2 ^ 53)%Z -> toNumber n = Integer n.
Proof. intros H. unfold toNumber. apply Z.ltb_lt in H. now rewrite H. Qed.

(** From 2^53 on the Number value is a multiple of the unit in the last
    place that lies within half a unit of the integer, or [Infinity],
    and that only from 2^1024 - 2^970 on. *)
Lemma toNumber_rounds (n : Z) :
  (2 ^ 53 <= n)%Z ->
  let ulp := (2 ^ (Z.log2 n - 52))%Z in
  match toNumber n with
  | Integer m =>
      (exists k, m = k * ulp)%Z /\ (2 * Z.abs (m - n) <= ulp)%Z /\ (m < 2 ^ 1024)%Z
  | Infinity => (2 ^ 1024 - 2 ^ 970 <= n)%Z
  end.
Proof.
  intros Hn ulp. unfold toNumber.
  destruct (Z.ltb_spec n (2 ^ 53)) as [Hlt|_]; [lia |].
  assert (Hpos : (0 < n)%Z) by (assert (0 < 2 ^ 53)%Z by (now apply Z.pow_pos_nonneg); lia).
  assert (Hlog : (53 <= Z.log2 n)%Z) by (apply Z.log2_le_pow2; lia).
  set (e := (Z.log2 n - 52)%Z) in *. cbv zeta.
  assert (He : (1 <= e)%Z) by lia.
  rewrite Z.shiftr_div_pow2 by lia. rewrite !Z.shiftl_mul_pow2 by lia.
  fold ulp.
  assert (Hulp : (ulp = 2 * 2 ^ (e - 1))%Z).
  { unfold ulp. replace e with (Z.succ (e - 1)) at 1 by lia. apply Z.pow_succ_r. lia. }
  assert (Hhalf : (0 < 2 ^ (e - 1))%Z) by (apply Z.pow_pos_nonneg; lia).
  set (half := (2 ^ (e - 1))%Z) in *.
  pose proof (Z.div_mod n ulp ltac:(lia)) as Hdm.
  pose proof (Z.mod_pos_bound n ulp ltac:(lia)) as Hmod.
  set (q := (n / ulp)%Z) in *. set (r := (n mod ulp)%Z) in *.
  replace (n - q * ulp)%Z with r by lia.
  assert (Hround :
    forall q', (q' = q /\ r <= half)%Z \/ (q' = q + 1 /\ half <= r)%Z ->
      match (if (q' * ulp <? 2 ^ 1024)%Z then Integer (q' * ulp) else Infinity) with
      | Integer m =>
          (exists k, m = k * ulp)%Z /\ (2 * Z.abs (m - n) <= ulp)%Z /\ (m < 2 ^ 1024)%Z
      | Infinity => (2 ^ 1024 - 2 ^ 970 <= n)%Z
      end).
  { intros q' Hq'. destruct (Z.ltb_spec (q' * ulp) (2 ^ 1024)) as [Hfin|Hinf].
    - split; [now exists q' |]. split; [|exact Hfin].
      destruct Hq' as [[-> Hr]|[-> Hr]]; nia.
    - destruct (Z.le_gt_cases (2 ^ 1024) n) as [Hbig|Hsmall].
      + assert (0 < 2 ^ 970)%Z by (now apply Z.pow_pos_nonneg). lia.
      + assert (Hl : (Z.log2 n < 1024)%Z) by (apply Z.log2_lt_pow2; lia).
        assert (half <= 2 ^ 970)%Z by (unfold half; apply Z.pow_le_mono_r; lia).
        destruct Hq' as [[-> Hr]|[-> Hr]]; nia. }
  destruct (Z.ltb_spec half r) as [Hgt|Hle]; cbn [orb].
  - apply Hround. right. split; [reflexivity | lia].
  - destruct (Z.eqb_spec r half) as [Heq|Hne]; cbn [andb].
    + destruct (Z.odd q); apply Hround; [right | left]; split; first [reflexivity | lia].
    + apply Hround. left. split; [reflexivity | lia].
Qed.

(** From 2^1024 on the Number value is [Infinity]. *)
Lemma toNumber_overflow (n : Z) : (2 ^ 1024 <= n)%Z -> toNumber n = Infinity.
Proof.
  intros Hn.
  assert (H53 : (2 ^ 53 <= n)%Z).
  { assert (2 ^ 53 <= 2 ^ 1024)%Z by (apply Z.pow_le_mono_r; lia). lia. }
  pose proof (toNumber_rounds n H53) as H. cbv zeta in H.
  destruct (toNumber n) as [m|]; [|reflexivity]. exfalso.
  destruct H as ([k Hk] & Habs & Hfin).
  assert (Hpos : (0 < n)%Z) by (assert (0 < 2 ^ 53)%Z by (now apply Z.pow_pos_nonneg); lia).
  pose proof (Z.log2_spec n Hpos) as [Hlow _].
  assert (Hlog : (1024 <= Z.log2 n)%Z) by (apply Z.log2_le_pow2; lia).
  assert (Hsplit : (2 ^ Z.log2 n = 2 ^ 52 * 2 ^ (Z.log2 n - 52))%Z).
  { rewrite <- Z.pow_add_r by lia. f_equal. lia. }
  assert (Hmono : (2 ^ 1024 <= 2 ^ Z.log2 n)%Z) by (apply Z.pow_le_mono_r; lia).
  assert (Hulp : (0 < 2 ^ (Z.log2 n - 52))%Z) by (apply Z.pow_pos_nonneg; lia).
  set (ulp := (2 ^ (Z.log2 n - 52))%Z) in *.
  assert (Hk52 : (2 ^ 52 <= k)%Z).
  { change (2 ^ 52)%Z with 4503599627370496%Z in *. nia. }
  change (2 ^ 52)%Z with 4503599627370496%Z in *. nia.
Qed.

Lemma parseInt10_short (s : string) :
  allDigits s = true -> (String.length s <= 15)%nat ->
  parseInt10 s = Integer (decimalValue s).
Proof.
  intros Hd Hlen. apply toNumber_exact. unfold decimalValue.
  pose proof (parseDigits_bound s Hd 0%Z ltac:(lia)) as [_ Hlt].
  assert (10 ^ Z.of_nat (String.length s) <= 10 ^ 15)%Z
    by (apply Z.pow_le_mono_r; lia).
  change (2 ^ 53)%Z with 9007199254740992%Z.
  change (10 ^ 15)%Z with 1000000000000000%Z in H. lia.
Qed.

End StringFacts.

(** ** Claim extractor *)

Section ClaimExtractorFacts.
Import JS ClaimExtractor.

Lemma camelAt_plain (prev : option ascii) (c : ascii) (next : option ascii) :
  (prev = Some "-"%char -> isLowerAZ c = false) ->
  (forall d, next = Some d -> Ascii.eqb c "-" && isLowerAZ d = false) ->
  camelAt prev c next = String c "".
Proof.
  intros Hprev Hnext. unfold camelAt, dropped, capitalised.
  assert (Hd : match next with
               | Some d => Ascii.eqb c "-" && isLowerAZ d
               | None => false
               end = false).
  { destruct next as [d|]; [exact (Hnext d eq_refl) | reflexivity]. }
  rewrite Hd. destruct prev as [p|]; [|reflexivity].
  destruct (Ascii.eqb_spec p "-") as [->|]; [|reflexivity].
  now rewrite Hprev.
Qed.

Lemma toCamelCase_step (c d : ascii) (rest : string) :
  toCamelCase (String c (String d rest))
  = if Ascii.eqb c "-" && isLowerAZ d
    then String (toUpperChar d) (toCamelCase rest)
    else String c (toCamelCase (String d rest)).
Proof. reflexivity. Qed.

Lemma camelByPosition_step (prev : option ascii) (c : ascii) (rest : string) :
  camelByPosition prev (String c rest)
  = camelAt prev c (ClaimExtractor.first rest) +:+ camelByPosition (Some c) rest.
Proof. reflexivity. Qed.

(** The scan agrees with the position-by-position reading from any
    start where the previous character does not capitalise the first. *)
Lemma toCamelCase_position_from (n : nat) :
  forall (s : string) (prev : option ascii),
    String.length s <= n ->
    (forall c t, prev = Some "-"%char -> s = String c t -> isLowerAZ c = false) ->
    camelByPosition prev s = toCamelCase s.
Proof.
  induction n as [|n IH]; intros s prev Hlen Hprev.
  - destruct s; [reflexivity | simpl in Hlen; lia].
  - destruct s as [|c rest]; [reflexivity |].
    destruct rest as [|d rest'].
    + rewrite camelByPosition_step.
      rewrite camelAt_plain; [reflexivity | eauto | discriminate].
    + rewrite camelByPosition_step, toCamelCase_step.
      destruct (Ascii.eqb c "-" && isLowerAZ d) eqn:Hmatch.
      * apply andb_true_iff in Hmatch as [Hc Hd].
        apply Ascii.eqb_eq in Hc as ->.
        assert (HcamelAt : camelAt prev "-" (ClaimExtractor.first (String d rest')) = "").
        { unfold camelAt, dropped. simpl. now rewrite Hd. }
        rewrite HcamelAt, camelByPosition_step.
        assert (Hup : camelAt (Some "-"%char) d (ClaimExtractor.first rest')
                      = String (toUpperChar d) "").
        { unfold camelAt, dropped, capitalised.
          rewrite (isLowerAZ_hyphen d Hd), Hd. simpl.
          now destruct (ClaimExtractor.first rest'). }
        rewrite Hup.
        change ("" +:+ String (toUpperChar d) "" +:+ camelByPosition (Some d) rest')
          with (String (toUpperChar d) (camelByPosition (Some d) rest')).
        f_equal. apply IH.
        -- simpl in Hlen. lia.
        -- intros c t Hdash _. injection Hdash as ->. discriminate Hd.
      * rewrite camelAt_plain.
        -- change (String c "" +:+ camelByPosition (Some c) (String d rest'))
             with (String c (camelByPosition (Some c) (String d rest'))).
           f_equal. apply IH; [simpl in *; lia |].
           intros c' t Hdash Hs. injection Hdash as ->. injection Hs as <- _.
           exact Hmatch.
        -- intros Hdash. eapply Hprev; [exact Hdash | reflexivity].
        -- intros d' Hd'. injection Hd' as <-. exact Hmatch.
Qed.

Lemma toCamelCase_by_position (s : string) :
  toCamelCase s = camelByPosition None s.
Proof.
  symmetry. apply (toCamelCase_position_from (String.length s)); [lia | discriminate].
Qed.

Lemma toCamelCase_no_hyphen (s : string) :
  ~ In "-"%char (chars s) -> toCamelCase s = s.
Proof.
  induction s as [|c rest IH]; intros Hno; [reflexivity |].
  assert (Hc : Ascii.eqb c "-" = false).
  { apply Ascii.eqb_neq. intros ->. apply Hno. now left. }
  assert (Hrest : toCamelCase rest = rest).
  { apply IH. intros H. apply Hno. now right. }
  destruct rest as [|d rest']; [reflexivity |].
  rewrite toCamelCase_step, Hc. cbn [andb]. now rewrite Hrest.
Qed.

Lemma guard_toCamelCase (s : string) : AuthGuard.toCamelCase s = toCamelCase s.
Proof. reflexivity. Qed.

(** C9. The kebab-to-camelCase conversion upper-cases exactly the
    lower-case letters that come right after a hyphen, drops that hyphen
    and keeps every other character: it equals the position-by-position
    reading [camelByPosition]; [tenant-id] becomes [tenantId]; a string
    without a hyphen is returned unchanged; the documented edge cases hold
    ([user--id] becomes [user-Id], [user-ID] stays, [User-name] becomes
    [UserName], [-user-id] becomes [UserId], the empty string stays); the
    guard's private copy is the same function. *)
Theorem C9_toCamelCase_hyphen_letters :
  (forall s, toCamelCase s = camelByPosition None s)
  /\ toCamelCase "tenant-id" = "tenantId"
  /\ (forall s, ~ In "-"%char (chars s) -> toCamelCase s = s)
  /\ toCamelCase "user--id" = "user-Id"
  /\ toCamelCase "user-ID" = "user-ID"
  /\ toCamelCase "User-name" = "UserName"
  /\ toCamelCase "-user-id" = "UserId"
  /\ toCamelCase "" = ""
  /\ (forall s, AuthGuard.toCamelCase s = toCamelCase s).
Proof.
  split; [exact toCamelCase_by_position |].
  split; [reflexivity |].
  split; [exact toCamelCase_no_hyphen |].
  repeat (split; [reflexivity |]).
  exact guard_toCamelCase.
Qed.

(** A claim name without a hyphen, [email], goes through unchanged. *)
Lemma C9_witness_email : toCamelCase "email" = "email".
Proof.
  apply (proj1 (proj2 (proj2 C9_toCamelCase_hyphen_letters))).
  simpl. intros H. repeat (destruct H as [H|H]; [discriminate H |]). exact H.
Defined.

Lemma parseHeaderValue_cases (value : string) :
  (hasComma value ->
   parseHeaderValue value = VArray (map trim (split "," value)))
  /\ (~ hasComma value -> isDecimal value ->
      parseHeaderValue value = VNumber (parseInt10 value))
  /\ (~ hasComma value -> ~ isDecimal value -> value = "true" ->
      parseHeaderValue value = VBoolean true)
  /\ (~ hasComma value -> ~ isDecimal value -> value = "false" ->
      parseHeaderValue value = VBoolean false)
  /\ (~ hasComma value -> ~ isDecimal value ->
      value <> "true" -> value <> "false" ->
      parseHeaderValue value = VString value).
Proof.
  unfold parseHeaderValue, hasComma.
  destruct (includes "," value) eqn:Hc.
  - apply includes_char in Hc. repeat split; intros; first [contradiction | reflexivity].
  - assert (Hno : ~ In ","%char (chars value)).
    { intros H. apply includes_char in H. congruence. }
    destruct (testDigits value) eqn:Hd.
    + apply testDigits_spec in Hd.
      repeat split; intros; first [contradiction | reflexivity].
    + assert (Hnd : ~ isDecimal value).
      { intros H. apply testDigits_spec in H. congruence. }
      repeat split; intros; try contradiction.
      * subst value. reflexivity.
      * subst value. reflexivity.
      * destruct (String.eqb_spec value "true"); [contradiction |].
        destruct (String.eqb_spec value "false"); [contradiction | reflexivity].
Qed.

Lemma isDecimal_no_comma (value : string) : isDecimal value -> ~ hasComma value.
Proof.
  intros [_ Hd] Hc. unfold hasComma in Hc. rewrite List.Forall_forall in Hd.
  specialize (Hd _ Hc). cbn in Hd. intuition discriminate.
Qed.

(** C8 (amended). A claim-header value is parsed by these rules in this
    order: a value that contains a comma is split on commas, each
    segment trimmed, and yields an array of strings, whatever the
    segments look like ([1,2,3] yields the strings [1], [2], [3]);
    otherwise a value made of one or more decimal digits yields the
    number [parseInt] gives; otherwise [true] and [false] yield the
    booleans; otherwise the string itself is returned.  The number is
    the integer the digits denote whenever that integer is below 2^53,
    so for every value of at most fifteen digits; from 2^53 on it is
    that integer rounded to a double (a multiple of the unit in the last
    place, within half a unit of the integer), and from 2^1024 on it is
    [Infinity].  The split loses nothing (joining the segments with
    commas gives the value back, no segment contains a comma), trimming
    removes white space at both ends and nothing else, the digits are
    read positionally in base ten, and the guard's private [parseValue]
    is the same function. *)
Theorem C8_parseHeaderValue_precedence :
  (forall value : string,
      (hasComma value ->
       parseHeaderValue value = VArray (map trim (split "," value)))
      /\ (~ hasComma value -> isDecimal value ->
          parseHeaderValue value = VNumber (parseInt10 value))
      /\ (~ hasComma value -> ~ isDecimal value -> value = "true" ->
          parseHeaderValue value = VBoolean true)
      /\ (~ hasComma value -> ~ isDecimal value -> value = "false" ->
          parseHeaderValue value = VBoolean false)
      /\ (~ hasComma value -> ~ isDecimal value ->
          value <> "true" -> value <> "false" ->
          parseHeaderValue value = VString value))
  /\ (forall value : string,
         join "," (split "," value) = value
         /\ Forall (fun seg => ~ hasComma seg) (split "," value))
  /\ (forall seg : string,
         exists pre post,
           seg = pre +:+ trim seg +:+ post
           /\ Forall (fun c => isWhiteSpace c = true) (chars pre)
           /\ Forall (fun c => isWhiteSpace c = true) (chars post)
           /\ (forall c t, trim seg = String c t -> isWhiteSpace c = false)
           /\ (forall t c, trim seg = t +:+ String c "" -> isWhiteSpace c = false))
  /\ (forall value : string,
         isDecimal value -> (decimalValue value < 2 ^ 53)%Z ->
         parseHeaderValue value = VNumber (Integer (decimalValue value)))
  /\ (forall value : string,
         isDecimal value -> (String.length value <= 15)%nat ->
         parseHeaderValue value = VNumber (Integer (decimalValue value)))
  /\ (forall value : string,
         isDecimal value -> (2 ^ 53 <= decimalValue value)%Z ->
         let n := decimalValue value in
         let ulp := (2 ^ (Z.log2 n - 52))%Z in
         (exists m, parseHeaderValue value = VNumber (Integer m)
                    /\ (exists k, m = k * ulp)%Z
                    /\ (2 * Z.abs (m - n) <= ulp)%Z /\ (m < 2 ^ 1024)%Z)
         \/ (parseHeaderValue value = VNumber Infinity
             /\ (2 ^ 1024 - 2 ^ 970 <= n)%Z))
  /\ (forall value : string,
         isDecimal value -> (2 ^ 1024 <= decimalValue value)%Z ->
         parseHeaderValue value = VNumber Infinity)
  /\ (forall (digits : string) (d : ascii),
         decimalValue (digits +:+ String d "")
         = (decimalValue digits * 10 + digitValue d)%Z)
  /\ parseHeaderValue "1,2,3" = VArray ["1"; "2"; "3"]
  /\ parseHeaderValue "true,false" = VArray ["true"; "false"]
  /\ parseHeaderValue "read, write, delete" = VArray ["read"; "write"; "delete"]
  /\ parseHeaderValue "123" = VNumber (Integer 123)
  /\ parseHeaderValue "9007199254740991" = VNumber (Integer 9007199254740991)
  /\ parseHeaderValue "123abc" = VString "123abc"
  /\ (forall value : string, AuthGuard.parseValue value = parseHeaderValue value).
Proof.
  assert (Hnum : forall value, isDecimal value ->
                   parseHeaderValue value = VNumber (parseInt10 value)).
  { intros value Hd.
    exact (proj1 (proj2 (parseHeaderValue_cases value)) (isDecimal_no_comma value Hd) Hd). }
  split; [exact parseHeaderValue_cases |].
  split; [intros value; split; [apply join_split | apply split_no_sep] |].
  split; [exact trim_spec |].
  split.
  { intros value Hd Hlt. rewrite (Hnum value Hd). f_equal. now apply toNumber_exact. }
  split.
  { intros value Hd Hlen. rewrite (Hnum value Hd). f_equal.
    apply parseInt10_short; [|exact Hlen].
    apply testDigits_spec in Hd. destruct value; [discriminate Hd | exact Hd]. }
  split.
  { intros value Hd Hbig n ulp. rewrite (Hnum value Hd). unfold parseInt10. fold n.
    pose proof (toNumber_rounds n Hbig) as H. cbv zeta in H. fold ulp in H.
    destruct (toNumber n) as [m|]; [left; now exists m | right; now split]. }
  split.
  { intros value Hd Hbig. rewrite (Hnum value Hd). f_equal. now apply toNumber_overflow. }
  split; [intros digits d; apply parseDigits_snoc |].
  repeat (split; [reflexivity |]).
  reflexivity.
Qed.

(** The rules at work on a value with a comma. *)
Lemma C8_witness_roles :
  parseHeaderValue "USER,ADMIN" = VArray (map trim (split "," "USER,ADMIN")).
Proof.
  apply (proj1 (proj1 C8_parseHeaderValue_precedence "USER,ADMIN")).
  unfold hasComma. simpl. tauto.
Defined.

(** C8 as stated fails on long digit strings: a value of 310 nines
    matches [^\d+$] and yields [Infinity], which is no integer; and
    2^53 + 1 yields 2^53, not the integer its digits denote. *)
Lemma C8_counterexample_long_digit_strings :
  testDigits "9999999999999999999999999999999999999999999999999999999999999999999999999999999999999999999999999999999999999999999999999999999999999999999999999999999999999999999999999999999999999999999999999999999999999999999999999999999999999999999999999999999999999999999999999999999999999999999999999999999999999999999999" = true
  /\ parseHeaderValue "9999999999999999999999999999999999999999999999999999999999999999999999999999999999999999999999999999999999999999999999999999999999999999999999999999999999999999999999999999999999999999999999999999999999999999999999999999999999999999999999999999999999999999999999999999999999999999999999999999999999999999999999" = VNumber Infinity
  /\ parseHeaderValue "9007199254740993" = VNumber (Integer 9007199254740992).
Proof. repeat split; vm_compute; reflexivity. Qed.

End ClaimExtractorFacts.

(** ** The authentication guard *)

Section GuardFacts.
Import JS ClaimExtractor AuthGuard.

Lemma isInfrastructurePath_spec (p : string) :
  isInfrastructurePath p = true <-> bypassEligible p.
Proof.
  unfold isInfrastructurePath, bypassEligible.
  rewrite !orb_true_iff, includes_spec, startsWith_spec, !String.eqb_eq. tauto.
Qed.

Lemma truthy_Some (v : option string) :
  truthy v = true -> exists s, v = Some s /\ s <> "".
Proof.
  destruct v as [[|c s]|]; simpl; try discriminate. intros _. eexists; split; [reflexivity | discriminate].
Qed.

(** The effective path [request.url || request.path], when it is a
    non-empty string. *)
Lemma effective_path (r : Request) (p : string) :
  orElse (url r) (path r) = Some p -> bypassEligible p ->
  truthy (orElse (url r) (path r)) && isInfrastructurePath (default "" (orElse (url r) (path r))) = true.
Proof.
  intros Hp Hb. rewrite Hp. simpl. apply isInfrastructurePath_spec in Hb as Hi. rewrite Hi.
  destruct p; [|reflexivity]. discriminate Hi.
Qed.

Lemma mismatch_unequal (a b : Buffer) (st : State) :
  length a <> length b -> mismatch a b st = (Returned true, st).
Proof.
  intros H. unfold mismatch. apply Nat.eqb_neq in H. now rewrite H.
Qed.

Lemma mismatch_equal (a b : Buffer) (st : State) :
  length a = length b ->
  mismatch a b st
  = (Returned (negb (bytesEqual a b)),
     mkState (request st) (trace st ++ [TimingSafeEqual a b])).
Proof.
  intros H. unfold mismatch, timingSafeEqual, bind, emit, ret.
  apply Nat.eqb_eq in H. now rewrite H.
Qed.

(** Every step of the guard only appends to the trace. *)
Definition extends (m_st : State) (st' : State) : Prop :=
  exists evs, trace st' = trace m_st ++ evs.

Lemma mismatch_trace (a b : Buffer) (st : State) :
  exists bad, mismatch a b st = (Returned bad, mkState (request st) (trace st))
              \/ (length a = length b
                  /\ mismatch a b st
                     = (Returned bad, mkState (request st) (trace st ++ [TimingSafeEqual a b]))).
Proof.
  destruct (Nat.eq_dec (length a) (length b)) as [H|H].
  - eexists. right. split; [exact H | now apply mismatch_equal].
  - exists true. left. rewrite mismatch_unequal by exact H. now destruct st.
Qed.


Lemma trace_grows (r r' : Request) (tr evs : list Event) :
  evs <> [] -> mkState r' (tr ++ evs) <> mkState r tr.
Proof.
  intros Hne H. injection H as _ H.
  apply (f_equal (@length Event)) in H. rewrite length_app in H.
  destruct evs; [congruence | simpl in H; lia].
Qed.

(** What [verifyKongTrustHeader] does when the path is not an
    infrastructure path. *)
Lemma verify_checked (c : Collaborators) (r : Request) (tr : list Event) :
  truthy (orElse (url r) (path r))
  && isInfrastructurePath (default "" (orElse (url r) (path r))) = false ->
  verifyKongTrustHeader c (mkState r tr)
  = if negb (truthy (objGet "x-kong-trust" (headers r))) then
      (Thrown (UnauthorizedException "Unauthorized request"), mkState r tr)
    else
      match secrets_get c "KONG_TRUST_TOKEN" with
      | Thrown e => (Thrown e, mkState r (tr ++ [SecretsGet "KONG_TRUST_TOKEN"]))
      | Returned expectedToken =>
          if negb (truthy (Some expectedToken)) then
            (Thrown (UnauthorizedException "Authentication configuration error"),
             mkState r (tr ++ [SecretsGet "KONG_TRUST_TOKEN"]))
          else
            let provided := Buffer_from (default "" (objGet "x-kong-trust" (headers r))) in
            let expected := Buffer_from expectedToken in
            if negb (Nat.eqb (length provided) (length expected)) then
              (Thrown (UnauthorizedException "Unauthorized request"),
               mkState r (tr ++ [SecretsGet "KONG_TRUST_TOKEN"]))
            else if negb (bytesEqual provided expected) then
              (Thrown (UnauthorizedException "Unauthorized request"),
               mkState r (tr ++ [SecretsGet "KONG_TRUST_TOKEN"]
                             ++ [TimingSafeEqual provided expected]))
            else
              (Returned tt,
               mkState r (tr ++ [SecretsGet "KONG_TRUST_TOKEN"]
                             ++ [TimingSafeEqual provided expected]))
      end.
Proof.
  intros Hpath.
  unfold verifyKongTrustHeader, bind, getRequest. cbn [request].
  rewrite Hpath.
  destruct (negb (truthy (objGet "x-kong-trust" (headers r)))); [reflexivity |].
  unfold secretsGet, bind, emit, ret, throw. cbn [request trace].
  destruct (secrets_get c "KONG_TRUST_TOKEN") as [expectedToken|e]; [|reflexivity].
  destruct (negb (truthy (Some expectedToken))); [reflexivity |].
  unfold mismatch, timingSafeEqual, bind, emit, ret, throw.
  destruct (Nat.eqb _ _) eqn:Hlen; cbn [negb request trace]; [|reflexivity].
  rewrite <- !app_assoc.
  destruct (bytesEqual _ _); reflexivity.
Qed.

(** What [validateServiceApiKey] does. *)
Lemma validate_checked (c : Collaborators) (apiKey : string) (r : Request)
    (tr : list Event) :
  validateServiceApiKey c apiKey (mkState r tr)
  = match secrets_get c "API_KEY" with
    | Thrown e => (Thrown e, mkState r (tr ++ [SecretsGet "API_KEY"]))
    | Returned validApiKey =>
        if negb (truthy (Some validApiKey)) then
          (Thrown (UnauthorizedException "Server API key is not configured"),
           mkState r (tr ++ [SecretsGet "API_KEY"]))
        else
          let provided := Buffer_from apiKey in
          let expected := Buffer_from validApiKey in
          if negb (Nat.eqb (length provided) (length expected)) then
            (Thrown (ForbiddenException "Invalid API key"),
             mkState r (tr ++ [SecretsGet "API_KEY"]))
          else if negb (bytesEqual provided expected) then
            (Thrown (ForbiddenException "Invalid API key"),
             mkState r (tr ++ [SecretsGet "API_KEY"]
                           ++ [TimingSafeEqual provided expected]))
          else
            (Returned true,
             mkState
               (mkRequest (url r) (path r) (headers r) (user r)
                  (Some (default "internal"
                           (orElse (objGet "x-service-name" (headers r)) None))))
               (tr ++ [SecretsGet "API_KEY"] ++ [TimingSafeEqual provided expected]))
    end.
Proof.
  unfold validateServiceApiKey, secretsGet.
  cbv beta iota delta [bind getRequest emit ret throw]. cbn [request trace].
  destruct (secrets_get c "API_KEY") as [validApiKey|e]; [|reflexivity].
  destruct (negb (truthy (Some validApiKey))); [reflexivity |].
  unfold mismatch, timingSafeEqual, setService.
  cbv beta iota delta [bind emit ret throw].
  destruct (Nat.eqb _ _) eqn:Hlen; cbn [negb request trace]; [|reflexivity].
  rewrite <- !app_assoc.
  destruct (bytesEqual _ _); reflexivity.
Qed.

Lemma verify_skipped (c : Collaborators) (r : Request) (tr : list Event) :
  truthy (orElse (url r) (path r))
  && isInfrastructurePath (default "" (orElse (url r) (path r))) = true ->
  verifyKongTrustHeader c (mkState r tr) = (Returned tt, mkState r tr).
Proof.
  intros Hpath. unfold verifyKongTrustHeader, bind, getRequest. cbn [request].
  now rewrite Hpath.
Qed.

Lemma verify_skipped_iff (c : Collaborators) (r : Request) (tr : list Event) :
  verifyKongTrustHeader c (mkState r tr) = (Returned tt, mkState r tr)
  <-> exists p, orElse (url r) (path r) = Some p /\ bypassEligible p.
Proof.
  split.
  - intros Hrun.
    destruct (truthy (orElse (url r) (path r))
              && isInfrastructurePath (default "" (orElse (url r) (path r)))) eqn:Hpath.
    + apply andb_true_iff in Hpath as [Ht Hi].
      apply truthy_Some in Ht as (p & Hp & _). exists p. split; [exact Hp |].
      rewrite Hp in Hi. now apply isInfrastructurePath_spec.
    + exfalso. rewrite (verify_checked c r tr Hpath) in Hrun.
      destruct (negb (truthy (objGet "x-kong-trust" (headers r)))); [discriminate Hrun |].
      destruct (secrets_get c "KONG_TRUST_TOKEN") as [tok|e]; [|discriminate Hrun].
      destruct (negb (truthy (Some tok))); [discriminate Hrun |].
      cbv zeta in Hrun.
      destruct (negb (Nat.eqb _ _)); [discriminate Hrun |].
      destruct (negb (bytesEqual _ _)); [discriminate Hrun |].
      injection Hrun as Hrun. apply (f_equal (@length Event)) in Hrun.
      rewrite !length_app in Hrun. simpl in Hrun. lia.
  - intros (p & Hp & Hb). apply verify_skipped. now apply (effective_path r p).
Qed.

(** *** Trace discipline: comparisons only between equal lengths *)

Definition keeps {A} (m : Guard A) : Prop :=
  forall st, equalLengthComparisons (trace st) ->
             equalLengthComparisons (trace (snd (m st))).

Lemma keeps_ret {A} (a : A) : keeps (ret a).
Proof. intros st H. exact H. Qed.

Lemma keeps_throw {A} (e : Exception) : keeps (@throw A e).
Proof. intros st H. exact H. Qed.

Lemma keeps_bind {A B} (m : Guard A) (k : A -> Guard B) :
  keeps m -> (forall a, keeps (k a)) -> keeps (bind m k).
Proof.
  intros Hm Hk st H. unfold bind. specialize (Hm st H).
  destruct (m st) as [[a|e] st']; simpl in *; [now apply Hk | exact Hm].
Qed.

Lemma keeps_getRequest : keeps getRequest.
Proof. intros st H. exact H. Qed.

Lemma keeps_setUser (u : KongUser) : keeps (setUser u).
Proof. intros st H. exact H. Qed.

Lemma keeps_setService (s : string) : keeps (setService s).
Proof. intros st H. exact H. Qed.

Lemma keeps_secretsGet (c : Collaborators) (key : string) : keeps (secretsGet c key).
Proof.
  intros st H. unfold secretsGet, bind, emit, ret, throw.
  assert (H' : equalLengthComparisons (trace st ++ [SecretsGet key])).
  { apply Forall_app. split; [exact H | repeat constructor]. }
  destruct (secrets_get c key); exact H'.
Qed.

Lemma keeps_mismatch (a b : Buffer) : keeps (mismatch a b).
Proof.
  intros st H. destruct (mismatch_trace a b st) as [bad [E | [Hlen E]]]; rewrite E; simpl.
  - exact H.
  - apply Forall_app. split; [exact H | repeat constructor; exact Hlen].
Qed.

Lemma keeps_verify (c : Collaborators) : keeps (verifyKongTrustHeader c).
Proof.
  unfold verifyKongTrustHeader.
  apply keeps_bind; [apply keeps_getRequest | intros r].
  destruct (_ && _); [apply keeps_ret |].
  destruct (negb _); [apply keeps_throw |].
  apply keeps_bind; [apply keeps_secretsGet | intros tok].
  destruct (negb _); [apply keeps_throw |].
  apply keeps_bind; [apply keeps_mismatch | intros bad].
  destruct bad; [apply keeps_throw | apply keeps_ret].
Qed.

Lemma keeps_validate (c : Collaborators) (apiKey : string) :
  keeps (validateServiceApiKey c apiKey).
Proof.
  unfold validateServiceApiKey.
  apply keeps_bind; [apply keeps_getRequest | intros r].
  apply keeps_bind; [apply keeps_secretsGet | intros tok].
  destruct (negb _); [apply keeps_throw |].
  apply keeps_bind; [apply keeps_mismatch | intros bad].
  destruct bad; [apply keeps_throw |].
  apply keeps_bind; [apply keeps_setService | intros _; apply keeps_ret].
Qed.

Lemma keeps_canActivate (c : Collaborators) (isPublic : bool) :
  keeps (canActivate c isPublic).
Proof.
  unfold canActivate.
  apply keeps_bind; [apply keeps_getRequest | intros r].
  apply keeps_bind.
  - destruct (truthy (objGet "x-kong-trust" (headers r))); [apply keeps_verify |].
    destruct (truthy (objGet "x-api-key" (headers r))); [|apply keeps_ret].
    apply keeps_bind; [apply keeps_validate | intros _; apply keeps_ret].
  - intros _. destruct isPublic; [apply keeps_ret |].
    destruct (_ || _ || _ || _).
    + apply keeps_bind; [|intros _; apply keeps_ret].
      destruct (_ || _ || _); [apply keeps_setUser |].
      destruct (truthy _); [apply keeps_setService | apply keeps_ret].
    + destruct (_ && _); [apply keeps_bind; [apply keeps_setService | intros _; apply keeps_ret] |].
      destruct (truthy _); [apply keeps_ret | apply keeps_throw].
Qed.


Lemma not_eligible (p : string) : isInfrastructurePath p = false -> ~ bypassEligible p.
Proof. intros H Hb. apply isInfrastructurePath_spec in Hb. congruence. Qed.

Lemma testedString_spec (r : Request) (p : string) :
  testedString r p <-> (orElse (url r) (path r) = Some p /\ p <> "").
Proof.
  unfold testedString, orElse.
  destruct (url r) as [[|c u]|]; cbn [truthy]; split.
  - intros [Hne [H|[_ H]]]; [injection H as <-; congruence | now split].
  - intros [H Hne]. split; [exact Hne |]. right. split; [now right | exact H].
  - intros [Hne [H|[[H|H] _]]]; [now split | discriminate H | discriminate H].
  - intros [H Hne]. split; [exact Hne | now left].
  - intros [Hne [H|[_ H]]]; [discriminate H | now split].
  - intros [H Hne]. split; [exact Hne |]. right. split; [now left | exact H].
Qed.

Lemma bypassEligible_nonempty (p : string) : bypassEligible p -> p <> "".
Proof. intros H ->. apply isInfrastructurePath_spec in H. discriminate H. Qed.

Lemma verify_skipped_tested (c : Collaborators) (r : Request) (tr : list Event) :
  verifyKongTrustHeader c (mkState r tr) = (Returned tt, mkState r tr)
  <-> exists p, testedString r p /\ bypassEligible p.
Proof.
  rewrite verify_skipped_iff. split.
  - intros (p & Hp & Hb). exists p. split; [|exact Hb].
    apply testedString_spec. split; [exact Hp | now apply bypassEligible_nonempty].
  - intros (p & Hp & Hb). exists p. split; [|exact Hb]. now apply testedString_spec in Hp.
Qed.

(** C6 (amended). The gateway-trust check is skipped exactly when the
    string the guard tests is [/health], starts with [/health/], is
    [/metrics] or contains [/.well-known/]: [verifyKongTrustHeader]
    then returns at once, with no secret resolved and nothing compared,
    whatever the trust header holds.  The string tested is
    [request.url], the URL as received, when it is a non-empty string,
    and [request.path] only when [request.url] is absent or empty; so
    the query string is part of it.  The guard's boolean test decides
    exactly that rule; a public route on such a URL is let through even
    with a wrong trust header; [/well-known-users] and
    [/wellknown/config] do not qualify, nor do [/health?probe=1] and
    [/metrics?format=text], while [/orders?next=/.well-known/x] does. *)
Theorem C6_trust_check_bypass_paths :
  (forall (c : Collaborators) (r : Request) (tr : list Event),
      verifyKongTrustHeader c (mkState r tr) = (Returned tt, mkState r tr)
      <-> exists p, testedString r p /\ bypassEligible p)
  /\ (forall (c : Collaborators) (r : Request) (tr : list Event) (u : string),
         url r = Some u -> u <> "" ->
         (verifyKongTrustHeader c (mkState r tr) = (Returned tt, mkState r tr)
          <-> bypassEligible u))
  /\ (forall (c : Collaborators) (r : Request) (tr : list Event),
         url r = None \/ url r = Some "" ->
         (verifyKongTrustHeader c (mkState r tr) = (Returned tt, mkState r tr)
          <-> exists p, path r = Some p /\ bypassEligible p))
  /\ (forall p : string, isInfrastructurePath p = true <-> bypassEligible p)
  /\ (forall (c : Collaborators) (r : Request) (tr : list Event),
         (exists p, testedString r p /\ bypassEligible p) ->
         truthy (objGet "x-kong-trust" (headers r)) = true ->
         canActivate c true (mkState r tr) = (Returned true, mkState r tr))
  /\ bypassEligible "/health"
  /\ bypassEligible "/health/ping"
  /\ bypassEligible "/metrics"
  /\ bypassEligible "/auth/.well-known/jwks.json"
  /\ bypassEligible "/orders?next=/.well-known/x"
  /\ ~ bypassEligible "/health?probe=1"
  /\ ~ bypassEligible "/metrics?format=text"
  /\ ~ bypassEligible "/well-known-users"
  /\ ~ bypassEligible "/wellknown/config"
  /\ ~ bypassEligible "/auth/v1/well-known-users"
  /\ ~ bypassEligible "/auth/v1/wellknown/config".
Proof.
  split; [exact verify_skipped_tested |].
  split.
  { intros c r tr u Hu Hne. rewrite verify_skipped_tested. split.
    - intros (p & [_ [Hp|[[Hp|Hp] _]]] & Hb); rewrite Hu in Hp;
        [now injection Hp as -> | discriminate Hp | injection Hp as ->; congruence].
    - intros Hb. exists u. split; [split; [exact Hne | now left] | exact Hb]. }
  split.
  { intros c r tr Hu. rewrite verify_skipped_tested. split.
    - intros (p & [Hne [Hp|[_ Hp]]] & Hb); [|now exists p].
      destruct Hu as [Hu|Hu]; rewrite Hu in Hp; [discriminate Hp |].
      injection Hp as <-. congruence.
    - intros (p & Hp & Hb). exists p. split; [|exact Hb].
      split; [now apply bypassEligible_nonempty | right; now split]. }
  split; [exact isInfrastructurePath_spec |].
  split.
  { intros c r tr Hpath Htrust.
    unfold canActivate, bind, getRequest. cbn [request]. rewrite Htrust.
    apply (proj2 (verify_skipped_tested c r tr)) in Hpath. now rewrite Hpath. }
  repeat (split; [now apply isInfrastructurePath_spec |]).
  repeat (split; [now apply not_eligible |]).
  now apply not_eligible.
Qed.

(** The JWKS endpoint is reached with a wrong trust header. *)
Lemma C6_witness_jwks :
  canActivate Fixtures.mockSecrets true
    (mkState (mkRequest (Some "/auth/.well-known/jwks.json") None
                        [("x-kong-trust", "invalid-token")] None None) [])
  = (Returned true,
     mkState (mkRequest (Some "/auth/.well-known/jwks.json") None
                        [("x-kong-trust", "invalid-token")] None None) []).
Proof.
  apply (proj1 (proj2 (proj2 (proj2 (proj2 C6_trust_check_bypass_paths))))).
  - exists "/auth/.well-known/jwks.json". split.
    + split; [discriminate | now left].
    + now apply isInfrastructurePath_spec.
  - reflexivity.
Defined.

(** C6 as stated fails on a query string.  A probe of [/health] with a
    query is a request whose path qualifies, yet the trust check runs and
    turns the wrong header away; a request for [/orders] whose query
    holds [/.well-known/] has a path that does not qualify, yet the
    trust check is skipped. *)
Lemma C6_counterexample_query_string :
  isInfrastructurePath "/health" = true
  /\ verifyKongTrustHeader Fixtures.mockSecrets
       (mkState (mkRequest (Some "/health?probe=1") (Some "/health")
                   [("x-kong-trust", "invalid-token")] None None) [])
     = (Thrown (UnauthorizedException "Unauthorized request"),
        mkState (mkRequest (Some "/health?probe=1") (Some "/health")
                   [("x-kong-trust", "invalid-token")] None None)
          [SecretsGet "KONG_TRUST_TOKEN"])
  /\ isInfrastructurePath "/orders" = false
  /\ verifyKongTrustHeader Fixtures.mockSecrets
       (mkState (mkRequest (Some "/orders?next=/.well-known/x") (Some "/orders")
                   [("x-kong-trust", "invalid-token")] None None) [])
     = (Returned tt,
        mkState (mkRequest (Some "/orders?next=/.well-known/x") (Some "/orders")
                   [("x-kong-trust", "invalid-token")] None None) []).
Proof. repeat split; vm_compute; reflexivity. Qed.

(** C7. The comparison of a presented secret with the expected one
    decides on the lengths first: for buffers of different length it
    reports a mismatch without calling the byte comparator (the trace is
    unchanged); for buffers of equal length it calls the comparator once.
    In the guard: a trust header or API key whose UTF-8 length differs
    from the configured secret's is rejected with the secret lookup as
    the only step taken, and in every run of [canActivate] each call of
    the byte comparator is on buffers of equal length. *)
Theorem C7_length_check_before_byte_comparison :
  (forall (a b : Buffer) (st : State),
      length a <> length b -> mismatch a b st = (Returned true, st))
  /\ (forall (a b : Buffer) (st : State),
         length a = length b ->
         mismatch a b st
         = (Returned (negb (bytesEqual a b)),
            mkState (request st) (trace st ++ [TimingSafeEqual a b])))
  /\ (forall (c : Collaborators) (r : Request) (tr : list Event) (header token : string),
         truthy (orElse (url r) (path r))
         && isInfrastructurePath (default "" (orElse (url r) (path r))) = false ->
         objGet "x-kong-trust" (headers r) = Some header -> header <> "" ->
         secrets_get c "KONG_TRUST_TOKEN" = Returned token -> token <> "" ->
         length (Buffer_from header) <> length (Buffer_from token) ->
         verifyKongTrustHeader c (mkState r tr)
         = (Thrown (UnauthorizedException "Unauthorized request"),
            mkState r (tr ++ [SecretsGet "KONG_TRUST_TOKEN"])))
  /\ (forall (c : Collaborators) (r : Request) (tr : list Event) (apiKey token : string),
         secrets_get c "API_KEY" = Returned token -> token <> "" ->
         length (Buffer_from apiKey) <> length (Buffer_from token) ->
         validateServiceApiKey c apiKey (mkState r tr)
         = (Thrown (ForbiddenException "Invalid API key"),
            mkState r (tr ++ [SecretsGet "API_KEY"])))
  /\ (forall (c : Collaborators) (isPublic : bool) (r : Request) (a b : Buffer),
         In (TimingSafeEqual a b)
            (trace (snd (canActivate c isPublic (mkState r [])))) ->
         length a = length b).
Proof.
  split; [exact mismatch_unequal |].
  split; [exact mismatch_equal |].
  split.
  { intros c r tr header token Hpath Hh Hhne Hs Htne Hlen.
    assert (Hth : truthy (Some header) = true) by (destruct header; [congruence | reflexivity]).
    assert (Htt : truthy (Some token) = true) by (destruct token; [congruence | reflexivity]).
    rewrite (verify_checked c r tr Hpath), Hh, Hs, Hth, Htt. cbn [default negb]. cbv zeta.
    apply Nat.eqb_neq in Hlen. unfold id. now rewrite Hlen. }
  split.
  { intros c r tr apiKey token Hs Htne Hlen.
    assert (Htt : truthy (Some token) = true) by (destruct token; [congruence | reflexivity]).
    rewrite validate_checked, Hs, Htt. cbn [negb]. cbv zeta.
    apply Nat.eqb_neq in Hlen. now rewrite Hlen. }
  intros c isPublic r a b Hin.
  assert (Hnil : equalLengthComparisons (trace (mkState r []))) by constructor.
  pose proof (keeps_canActivate c isPublic (mkState r []) Hnil) as Hall.
  unfold equalLengthComparisons in Hall. rewrite List.Forall_forall in Hall.
  exact (Hall _ Hin).
Qed.

(** A trust header shorter than the configured token is turned away on
    its length. *)
Lemma C7_witness_short_token :
  verifyKongTrustHeader Fixtures.mockSecrets
    (Fixtures.requestWith [("x-kong-trust", "invalid-token")])
  = (Thrown (UnauthorizedException "Unauthorized request"),
     mkState (mkRequest None None [("x-kong-trust", "invalid-token")] None None)
             [SecretsGet "KONG_TRUST_TOKEN"]).
Proof.
  apply (proj1 (proj2 (proj2 C7_length_check_before_byte_comparison))
           Fixtures.mockSecrets
           (mkRequest None None [("x-kong-trust", "invalid-token")] None None) []
           "invalid-token" "test-kong-trust-token-12345");
    first [reflexivity | discriminate | (vm_compute; lia)].
Defined.

(** C10. A request without trust header and without API-key header that
    carries at least one identity header (consumer id, credential
    identifier or user info, with a non-empty value) on a non-public
    route is let in with the extracted user attached, and the guard
    takes no other step: no secret is resolved and nothing is compared
    (the trace is unchanged), and [request.service] is left as it was. *)
Theorem C10_identity_headers_need_no_secret
    (c : Collaborators) (r : Request) (tr : list Event) :
  truthy (objGet "x-kong-trust" (headers r)) = false ->
  truthy (objGet "x-api-key" (headers r)) = false ->
  truthy (objGet CONSUMER_ID (headers r))
  || truthy (objGet CREDENTIAL_IDENTIFIER (headers r))
  || truthy (objGet USERINFO (headers r)) = true ->
  canActivate c false (mkState r tr)
  = (Returned true,
     mkState (mkRequest (url r) (path r) (headers r)
                        (Some (extractUserFromHeaders c (headers r)))
                        (service r))
             tr).
Proof.
  intros Htrust Hkey Hid.
  unfold canActivate, bind, getRequest, ret, setUser. cbn [request trace].
  rewrite Htrust, Hkey. cbn [andb].
  assert (Hany : truthy (objGet CONSUMER_ID (headers r))
                 || truthy (objGet CONSUMER_USERNAME (headers r))
                 || truthy (objGet CREDENTIAL_IDENTIFIER (headers r))
                 || truthy (objGet USERINFO (headers r)) = true).
  { destruct (truthy (objGet CONSUMER_ID (headers r))); [reflexivity |].
    destruct (truthy (objGet CREDENTIAL_IDENTIFIER (headers r)));
      [now rewrite orb_true_r |].
    simpl in Hid. rewrite Hid. now rewrite orb_true_r. }
  rewrite Hany, Hid. reflexivity.
Qed.

(** The test "Kong consumer headers even without trust header". *)
Lemma C10_witness_consumer_id :
  canActivate Fixtures.mockSecrets false
    (Fixtures.requestWith [("x-consumer-id", "user-123")])
  = (Returned true,
     mkState (mkRequest None None [("x-consumer-id", "user-123")]
                        (Some [("id", FText "user-123")]) None) []).
Proof.
  exact (C10_identity_headers_need_no_secret Fixtures.mockSecrets
           (mkRequest None None [("x-consumer-id", "user-123")] None None) []
           eq_refl eq_refl eq_refl).
Defined.

(** C1 (the code departs from the claim).  A direct call with a valid
    [x-api-key] and an [x-consumer-id] header on a non-public route is
    let in with both [request.user] and [request.service] set:
    [validateServiceApiKey] has set the service before the identity
    headers are read, and nothing clears it. *)
Theorem C1_direct_key_with_consumer_id_sets_both :
  canActivate Fixtures.mockSecrets false
    (Fixtures.requestWith
       [("x-api-key", "direct-service-api-key"); ("x-consumer-id", "u1")])
  = (Returned true,
     mkState
       (mkRequest None None
          [("x-api-key", "direct-service-api-key"); ("x-consumer-id", "u1")]
          (Some [("id", FText "u1")])
          (Some "internal"))
       [SecretsGet "API_KEY";
        TimingSafeEqual (Buffer_from "direct-service-api-key")
                        (Buffer_from "direct-service-api-key")]).
Proof. vm_compute. reflexivity. Qed.

End GuardFacts.

(** ** Secrets providers *)

Section CacheFacts.
Import JS Secrets.

(** *** Expiry *)

Lemma gcp_cache_fresh (now : Z) (key : string) (cache : gmap string CacheEntry)
    (entry : CacheEntry) :
  cache !! key = Some entry -> (now <= expiresAt entry)%Z ->
  GCP.getFromCache now key cache = (Some (value entry), cache).
Proof.
  intros Hk Hnow. unfold GCP.getFromCache. rewrite Hk.
  destruct (Z.gtb_spec now (expiresAt entry)); [lia | reflexivity].
Qed.

Lemma gcp_cache_expired (now : Z) (key : string) (cache : gmap string CacheEntry)
    (entry : CacheEntry) :
  cache !! key = Some entry -> (expiresAt entry < now)%Z ->
  GCP.getFromCache now key cache = (None, delete key cache).
Proof.
  intros Hk Hnow. unfold GCP.getFromCache. rewrite Hk.
  destruct (Z.gtb_spec now (expiresAt entry)); [reflexivity | lia].
Qed.

(** The three cloud providers share one cache discipline. *)
Lemma aws_getFromCache_gcp (now : Z) (key : string) (cache : gmap string CacheEntry) :
  AWS.getFromCache now key cache = GCP.getFromCache now key cache.
Proof. reflexivity. Qed.

Lemma azure_getFromCache_gcp (now : Z) (key : string) (cache : gmap string CacheEntry) :
  Azure.getFromCache now key cache = GCP.getFromCache now key cache.
Proof. reflexivity. Qed.

Lemma local_fresh (p : Local.Provider) load (now later : Z) (key : string)
    (st : Local.State) (entry : CacheEntry) :
  Local.cache st !! key = Some entry -> (now < expiresAt entry)%Z ->
  Local.get p load now later key st = (Resolved (value entry), st).
Proof.
  intros Hk Hnow. unfold Local.get. rewrite Hk.
  destruct (Z.ltb_spec now (expiresAt entry)); [reflexivity | lia].
Qed.

(** An expired entry does not influence what the read returns. *)
Lemma local_expired_result (p : Local.Provider) load (now later : Z) (key : string)
    (st : Local.State) (entry : CacheEntry) :
  Local.cache st !! key = Some entry -> (expiresAt entry <= now)%Z ->
  fst (Local.get p load now later key st)
  = fst (Local.get p load now later key (Local.withCache st (delete key (Local.cache st)))).
Proof.
  intros Hk Hnow. unfold Local.get, Local.withCache. cbn [Local.cache Local.serviceName].
  rewrite Hk, lookup_delete_eq.
  destruct (Z.ltb_spec now (expiresAt entry)); [lia |].
  destruct load as [file|message]; [|reflexivity].
  match goal with |- context [if truthy ?v then _ else _] => destruct (truthy v) end;
    reflexivity.
Qed.

(** After an expired read the entry is replaced by a fresh one when the
    reload finds the secret, and is left in the map when the read fails. *)
Lemma local_expired_cache (p : Local.Provider) load (now later : Z) (key : string)
    (st : Local.State) (entry : CacheEntry) :
  Local.cache st !! key = Some entry -> (expiresAt entry <= now)%Z ->
  match Local.get p load now later key st with
  | (Resolved v, st') =>
      Local.cache st' = <[key := mkCacheEntry v (later + Local.cacheTtl p)]> (Local.cache st)
  | (Rejected _, st') => Local.cache st' = Local.cache st
  end.
Proof.
  intros Hk Hnow. unfold Local.get. rewrite Hk.
  destruct (Z.ltb_spec now (expiresAt entry)); [lia |].
  destruct load as [file|message]; [|reflexivity].
  match goal with |- context [if truthy ?v then _ else _] => destruct (truthy v) end;
    reflexivity.
Qed.


(** C5 (amended). A cached secret is returned while the clock is before
    its expiry, and is a miss once the clock is past it.  Cloud providers
    (GCP, AWS, Azure; entries live 5 minutes): a read before [expiresAt]
    returns the value and leaves the cache alone; a read after
    [expiresAt] is a miss and deletes the entry.  Local provider (entries
    live 60 seconds by default): a read before [expiresAt] returns the
    value without touching the file; a read at or after [expiresAt] is a
    miss, whose result is what the read would give without the entry;
    the entry is overwritten with a fresh one when the reload finds the
    secret and stays in the map when the read fails. *)
Theorem C5_cache_entry_expiry :
  (forall (now : Z) (key : string) (cache : gmap string CacheEntry) (entry : CacheEntry),
      cache !! key = Some entry ->
      ((now < expiresAt entry)%Z ->
       GCP.getFromCache now key cache = (Some (value entry), cache)
       /\ AWS.getFromCache now key cache = (Some (value entry), cache)
       /\ Azure.getFromCache now key cache = (Some (value entry), cache))
      /\ ((expiresAt entry < now)%Z ->
          GCP.getFromCache now key cache = (None, delete key cache)
          /\ AWS.getFromCache now key cache = (None, delete key cache)
          /\ Azure.getFromCache now key cache = (None, delete key cache)))
  /\ (forall (p : Local.Provider) load (now later : Z) (key : string)
             (st : Local.State) (entry : CacheEntry),
         Local.cache st !! key = Some entry ->
         ((now < expiresAt entry)%Z ->
          Local.get p load now later key st = (Resolved (value entry), st))
         /\ ((expiresAt entry <= now)%Z ->
             fst (Local.get p load now later key st)
             = fst (Local.get p load now later key
                      (Local.withCache st (delete key (Local.cache st))))
             /\ match Local.get p load now later key st with
                | (Resolved v, st') =>
                    Local.cache st'
                    = <[key := mkCacheEntry v (later + Local.cacheTtl p)]> (Local.cache st)
                | (Rejected _, st') => Local.cache st' = Local.cache st
                end))
  /\ CACHE_TTL_MS = 300000%Z
  /\ Local.DEFAULT_CACHE_TTL = 60000%Z
  /\ (forall (now : Z) (key v : string) (cache : gmap string CacheEntry),
         AWS.setCache now key v cache !! key = Some (mkCacheEntry v (now + 300000))
         /\ Azure.setCache now key v cache !! key = Some (mkCacheEntry v (now + 300000))
         /\ (GCP.isUrlValue v = false ->
             GCP.setCache now key v cache !! key = Some (mkCacheEntry v (now + 300000)))).
Proof.
  split.
  { intros now key cache entry Hk. split; intros Hnow.
    - assert (Hle : (now <= expiresAt entry)%Z) by lia.
      repeat split; exact (gcp_cache_fresh now key cache entry Hk Hle).
    - repeat split; exact (gcp_cache_expired now key cache entry Hk Hnow). }
  split.
  { intros p load now later key st entry Hk. split; intros Hnow.
    - now apply local_fresh.
    - split; [now apply (local_expired_result _ _ _ _ _ _ entry)
             | now apply (local_expired_cache _ _ _ _ _ _ entry)]. }
  split; [reflexivity |]. split; [reflexivity |].
  intros now key v cache. unfold AWS.setCache, Azure.setCache, GCP.setCache.
  repeat split; [apply lookup_insert_eq | apply lookup_insert_eq |].
  intros ->. apply lookup_insert_eq.
Qed.

(** A cloud entry read one millisecond before it expires. *)
Lemma C5_witness_fresh_read :
  GCP.getFromCache 299999 "DATABASE_URL"
    {["DATABASE_URL" := mkCacheEntry "postgresql://db" 300000]}
  = (Some "postgresql://db", {["DATABASE_URL" := mkCacheEntry "postgresql://db" 300000]}).
Proof.
  refine (proj1 (proj1 (proj1 C5_cache_entry_expiry 299999%Z "DATABASE_URL"
                          {["DATABASE_URL" := mkCacheEntry "postgresql://db" 300000]}
                          (mkCacheEntry "postgresql://db" 300000) _) _)).
  - apply lookup_singleton_eq.
  - simpl. lia.
Defined.

(** C5 as stated fails twice.  A cloud provider still returns an entry
    read exactly at [expiresAt].  The local provider, reading an expired
    entry whose secret is gone from the file, throws and leaves the
    entry in its cache. *)
Lemma C5_counterexample_boundary_read_and_stale_entry :
  GCP.getFromCache 300000 "K" {["K" := mkCacheEntry "v" 300000]}
  = (Some "v", {["K" := mkCacheEntry "v" 300000]})
  /\ Azure.getFromCache 300000 "K" {["K" := mkCacheEntry "v" 300000]}
     = (Some "v", {["K" := mkCacheEntry "v" 300000]})
  /\ Local.get (Local.mkProvider 60000) (Resolved ∅) 60000 60000 "K"
       (Local.mkState ∅ {["K" := mkCacheEntry "v" 60000]} (Some "svc"))
     = (Rejected (Local.notFound "K" (Some "svc")),
        Local.mkState ∅ {["K" := mkCacheEntry "v" 60000]} (Some "svc")).
Proof. repeat split; vm_compute; reflexivity. Qed.

End CacheFacts.

Section UrlFacts.
Import JS Secrets.

Lemma isUrlValue_spec (v : string) : GCP.isUrlValue v = true <-> urlShaped v.
Proof.
  unfold GCP.isUrlValue, urlShaped.
  rewrite orb_true_iff, !startsWith_spec. split.
  - intros [[t Ht] | [t Ht]]; exists t; tauto.
  - intros [t [Ht | Ht]]; [left | right]; now exists t.
Qed.

Lemma noUrlCached_empty : noUrlCached ∅.
Proof. intros key entry H. rewrite lookup_empty in H. discriminate H. Qed.

Lemma noUrlCached_delete (key : string) (cache : gmap string CacheEntry) :
  noUrlCached cache -> noUrlCached (delete key cache).
Proof.
  intros Hinv k e Hk. apply lookup_delete_Some in Hk as [_ Hk]. exact (Hinv k e Hk).
Qed.

Lemma noUrlCached_setCache (now : Z) (key v : string) (cache : gmap string CacheEntry) :
  noUrlCached cache -> noUrlCached (GCP.setCache now key v cache).
Proof.
  intros Hinv. unfold GCP.setCache. destruct (GCP.isUrlValue v) eqn:Hurl; [exact Hinv |].
  intros k e Hk. apply lookup_insert_Some in Hk as [[_ <-] | [_ Hk]].
  - simpl. intros Hv. apply isUrlValue_spec in Hv. congruence.
  - exact (Hinv k e Hk).
Qed.

Lemma noUrlCached_getFromCache (now : Z) (key : string) (cache : gmap string CacheEntry) :
  noUrlCached cache -> noUrlCached (snd (GCP.getFromCache now key cache)).
Proof.
  intros Hinv. unfold GCP.getFromCache.
  destruct (cache !! key) as [entry|]; [|exact Hinv].
  destruct (now >? expiresAt entry)%Z; [now apply noUrlCached_delete | exact Hinv].
Qed.

(** The GCP provider keeps URL-shaped values out of its cache. *)
Lemma gcp_get_noUrlCached (p : GCP.Provider) (now later : Z) (key : string)
    (cache : gmap string CacheEntry) :
  noUrlCached cache -> noUrlCached (cacheAfter (GCP.get p now later key cache)).
Proof.
  intros Hinv. unfold GCP.get.
  pose proof (noUrlCached_getFromCache now key cache Hinv) as H1.
  destruct (GCP.getFromCache now key cache) as [[cached|] cache1]; simpl in *; [exact H1 |].
  match goal with
  | |- context [let '(v, names) := ?e in _] => destruct e as [[v|] names]
  end; simpl; [now apply noUrlCached_setCache | exact H1].
Qed.

Lemma gcp_set_noUrlCached (p : GCP.Provider) (key v : string)
    (cache : gmap string CacheEntry) :
  noUrlCached cache -> noUrlCached (snd (GCP.set p key v cache)).
Proof.
  intros Hinv. unfold GCP.set, GCP.invalidateCache.
  destruct (GCP.exists_ p key);
    repeat match goal with
           | |- context [match ?r with Ok _ => _ | Fail _ => _ end] => destruct r
           end; simpl; auto using noUrlCached_delete.
Qed.

Lemma gcp_remove_noUrlCached (p : GCP.Provider) (key : string)
    (cache : gmap string CacheEntry) :
  noUrlCached cache -> noUrlCached (snd (GCP.remove p key cache)).
Proof.
  intros Hinv. unfold GCP.remove, GCP.invalidateCache.
  destruct (GCP.deleteSecret _ _); simpl; auto using noUrlCached_delete.
Qed.

(** On a miss, what GCP caches is the fetched value unless URL-shaped. *)
Lemma gcp_get_miss (p : GCP.Provider) (now later : Z) (key : string)
    (cache : gmap string CacheEntry) :
  fst (GCP.getFromCache now key cache) = None ->
  cacheAfter (GCP.get p now later key cache)
  = match found (GCP.get p now later key cache) with
    | Some v => GCP.setCache later key v (snd (GCP.getFromCache now key cache))
    | None => snd (GCP.getFromCache now key cache)
    end.
Proof.
  unfold GCP.get. destruct (GCP.getFromCache now key cache) as [[cached|] cache1];
    simpl; [discriminate |]. intros _.
  match goal with
  | |- context [let '(v, names) := ?e in _] => destruct e as [[v|] names]
  end; reflexivity.
Qed.

Lemma aws_get_miss (p : AWS.Provider) (now later : Z) (key : string)
    (cache : gmap string CacheEntry) :
  fst (AWS.getFromCache now key cache) = None ->
  cacheAfter (AWS.get p now later key cache)
  = match found (AWS.get p now later key cache) with
    | Some v => <[key := mkCacheEntry v (later + CACHE_TTL_MS)]>
                  (snd (AWS.getFromCache now key cache))
    | None => snd (AWS.getFromCache now key cache)
    end.
Proof.
  unfold AWS.get. destruct (AWS.getFromCache now key cache) as [[cached|] cache1];
    simpl; [discriminate |]. intros _.
  match goal with
  | |- context [let '(v, names) := ?e in _] => destruct e as [[v|] names]
  end; reflexivity.
Qed.

Lemma azure_get_miss (p : Azure.Provider) (now later : Z) (key : string)
    (cache : gmap string CacheEntry) :
  fst (Azure.getFromCache now key cache) = None ->
  cacheAfter (Azure.get p now later key cache)
  = match found (Azure.get p now later key cache) with
    | Some v => <[key := mkCacheEntry v (later + CACHE_TTL_MS)]>
                  (snd (Azure.getFromCache now key cache))
    | None => snd (Azure.getFromCache now key cache)
    end.
Proof.
  unfold Azure.get. destruct (Azure.getFromCache now key cache) as [[cached|] cache1];
    simpl; [discriminate |]. intros _.
  match goal with
  | |- context [let '(v, names) := ?e in _] => destruct e as [[v|] names]
  end; reflexivity.
Qed.

(** A miss leaves no entry under the key before the fetch. *)
Lemma getFromCache_miss (now : Z) (key : string) (cache : gmap string CacheEntry) :
  fst (GCP.getFromCache now key cache) = None ->
  snd (GCP.getFromCache now key cache) !! key = None.
Proof.
  unfold GCP.getFromCache. destruct (cache !! key) as [entry|] eqn:Hk; [|now simpl].
  destruct (now >? expiresAt entry)%Z; simpl; [intros _; apply lookup_delete_eq | discriminate].
Qed.


(** C3 (amended). Only the GCP provider keeps URL-shaped values out of
    its cache: starting from the empty cache, [get], [set] and [remove]
    never leave a value beginning with [http://] or [https://] in it, so
    a URL-shaped value just returned by [get] is not cached; any other
    non-null value fetched on a miss is cached under its key for 5
    minutes; a null result is not cached.  The AWS and Azure providers
    make no exception for URLs: every non-null value fetched on a miss,
    URL-shaped or not, is cached for 5 minutes; a null result is not
    cached. *)
Theorem C3_url_values_cached_except_by_gcp :
  noUrlCached ∅
  /\ (forall (p : GCP.Provider) (now later : Z) (key v : string)
             (cache : gmap string CacheEntry),
         noUrlCached cache ->
         noUrlCached (cacheAfter (GCP.get p now later key cache))
         /\ noUrlCached (snd (GCP.set p key v cache))
         /\ noUrlCached (snd (GCP.remove p key cache))
         /\ (found (GCP.get p now later key cache) = Some v -> urlShaped v ->
             forall k e, cacheAfter (GCP.get p now later key cache) !! k = Some e ->
                         value e <> v))
  /\ (forall (p : GCP.Provider) (now later : Z) (key : string)
             (cache : gmap string CacheEntry),
         fst (GCP.getFromCache now key cache) = None ->
         match found (GCP.get p now later key cache) with
         | Some v =>
             ~ urlShaped v ->
             cacheAfter (GCP.get p now later key cache) !! key
             = Some (mkCacheEntry v (later + 300000))
         | None => cacheAfter (GCP.get p now later key cache) !! key = None
         end)
  /\ (forall (p : AWS.Provider) (now later : Z) (key : string)
             (cache : gmap string CacheEntry),
         fst (AWS.getFromCache now key cache) = None ->
         match found (AWS.get p now later key cache) with
         | Some v =>
             cacheAfter (AWS.get p now later key cache) !! key
             = Some (mkCacheEntry v (later + 300000))
         | None => cacheAfter (AWS.get p now later key cache) !! key = None
         end)
  /\ (forall (p : Azure.Provider) (now later : Z) (key : string)
             (cache : gmap string CacheEntry),
         fst (Azure.getFromCache now key cache) = None ->
         match found (Azure.get p now later key cache) with
         | Some v =>
             cacheAfter (Azure.get p now later key cache) !! key
             = Some (mkCacheEntry v (later + 300000))
         | None => cacheAfter (Azure.get p now later key cache) !! key = None
         end).
Proof.
  split; [exact noUrlCached_empty |].
  split.
  { intros p now later key v cache Hinv.
    split; [now apply gcp_get_noUrlCached |].
    split; [now apply gcp_set_noUrlCached |].
    split; [now apply gcp_remove_noUrlCached |].
    intros _ Hurl k e Hk Hv.
    apply (gcp_get_noUrlCached p now later key cache Hinv k e Hk). congruence. }
  split.
  { intros p now later key cache Hmiss.
    rewrite (gcp_get_miss p now later key cache Hmiss).
    destruct (found (GCP.get p now later key cache)) as [v|].
    - intros Hnot. unfold GCP.setCache.
      destruct (GCP.isUrlValue v) eqn:Hurl.
      + apply isUrlValue_spec in Hurl. contradiction.
      + apply lookup_insert_eq.
    - now apply getFromCache_miss. }
  split.
  { intros p now later key cache Hmiss.
    rewrite (aws_get_miss p now later key cache Hmiss).
    destruct (found (AWS.get p now later key cache)) as [v|].
    - apply lookup_insert_eq.
    - exact (getFromCache_miss now key cache Hmiss). }
  intros p now later key cache Hmiss.
  rewrite (azure_get_miss p now later key cache Hmiss).
  destruct (found (Azure.get p now later key cache)) as [v|].
  - apply lookup_insert_eq.
  - exact (getFromCache_miss now key cache Hmiss).
Qed.

(** A URL fetched by the GCP provider from an empty cache leaves the
    cache without URL-shaped values. *)
Lemma C3_witness_gcp_service_url :
  noUrlCached
    (cacheAfter
       (GCP.get
          (Fixtures.gcpWith
             (Fixtures.storeOf
                [("projects/p/secrets/testproject-test-service-SERVICE_URL/versions/latest",
                  "https://api.example.com")]))
          0 0 "SERVICE_URL" ∅)).
Proof.
  apply (proj1 (proj1 (proj2 C3_url_values_cached_except_by_gcp)
                  (Fixtures.gcpWith
                     (Fixtures.storeOf
                        [("projects/p/secrets/testproject-test-service-SERVICE_URL/versions/latest",
                          "https://api.example.com")]))
                  0%Z 0%Z "SERVICE_URL" "" ∅
                  (proj1 C3_url_values_cached_except_by_gcp))).
Defined.

(** C3 as stated fails for AWS and Azure: a URL-shaped value returned by
    [get] sits in the cache afterwards. *)
Lemma C3_counterexample_aws_azure_cache_urls :
  found (AWS.get
           (Fixtures.awsWith
              (Fixtures.storeOf
                 [("testproject-test-service-SERVICE_URL", "https://api.example.com")]))
           0 0 "SERVICE_URL" ∅)
  = Some "https://api.example.com"
  /\ cacheAfter
       (AWS.get
          (Fixtures.awsWith
             (Fixtures.storeOf
                [("testproject-test-service-SERVICE_URL", "https://api.example.com")]))
          0 0 "SERVICE_URL" ∅) !! "SERVICE_URL"
     = Some (mkCacheEntry "https://api.example.com" 300000)
  /\ found (Azure.get
              (Fixtures.azureWith
                 (Fixtures.storeOf
                    [("testproject-test-service-SERVICE-URL", "https://api.example.com")]))
              0 0 "SERVICE_URL" ∅)
     = Some "https://api.example.com"
  /\ cacheAfter
       (Azure.get
          (Fixtures.azureWith
             (Fixtures.storeOf
                [("testproject-test-service-SERVICE-URL", "https://api.example.com")]))
          0 0 "SERVICE_URL" ∅) !! "SERVICE_URL"
     = Some (mkCacheEntry "https://api.example.com" 300000).
Proof. repeat split; vm_compute; reflexivity. Qed.

End UrlFacts.

Section LookupFacts.
Import JS Secrets.

Lemma suffix_differs (x y : string) : x +:+ "_API_KEY" <> y +:+ "-API_KEY".
Proof.
  intros H. apply (f_equal chars) in H. rewrite !chars_app in H.
  apply app_inj_2 in H as [_ H]; [discriminate H | reflexivity].
Qed.

(** The shared name GCP uses for [API_KEY] is not the service-scoped name. *)
Lemma gcp_shared_name_differs (p : GCP.Provider) :
  GCP.buildSecretName p (GCP.sharedApiKey p) "shared"
  <> GCP.buildSecretName p "API_KEY" (serviceName (GCP.config p)).
Proof.
  unfold GCP.buildSecretName, GCP.sharedApiKey. intros H.
  set (P := projectName (GCP.config p)) in *.
  set (S := serviceName (GCP.config p)) in *.
  set (R := replaceAll "-" "_" (toUpperCase S)) in *.
  apply (suffix_differs (P +:+ "-" +:+ "shared" +:+ "-" +:+ R) (P +:+ "-" +:+ S)).
  rewrite !append_assoc. exact H.
Qed.

Lemma gcp_get_api_key (p : GCP.Provider) (now later : Z) (cache : gmap string CacheEntry) :
  match fst (GCP.getFromCache now "API_KEY" cache) with
  | Some cached =>
      found (GCP.get p now later "API_KEY" cache) = Some cached
      /\ fetched (GCP.get p now later "API_KEY" cache) = []
  | None =>
      found (GCP.get p now later "API_KEY" cache)
      = GCP.fetchSecretFromGCP p (GCP.buildSecretName p (GCP.sharedApiKey p) "shared")
      /\ fetched (GCP.get p now later "API_KEY" cache)
         = [GCP.buildSecretName p (GCP.sharedApiKey p) "shared"]
  end.
Proof.
  unfold GCP.get.
  destruct (GCP.getFromCache now "API_KEY" cache) as [[cached|] cache1]; simpl; [auto |].
  destruct (GCP.fetchSecretFromGCP p _); auto.
Qed.

Lemma gcp_get_other_key (p : GCP.Provider) (now later : Z) (key : string)
    (cache : gmap string CacheEntry) :
  key <> "API_KEY" ->
  fst (GCP.getFromCache now key cache) = None ->
  exists rest,
    fetched (GCP.get p now later key cache)
    = GCP.buildSecretName p key (serviceName (GCP.config p)) :: rest.
Proof.
  intros Hkey. unfold GCP.get.
  destruct (GCP.getFromCache now key cache) as [[cached|] cache1]; simpl; [discriminate |].
  intros _. apply String.eqb_neq in Hkey. rewrite Hkey.
  destruct (GCP.fetchSecretFromGCP p (GCP.buildSecretName p key _)) as [v|].
  - eexists. reflexivity.
  - destruct (GCP.fetchSecretFromGCP p _); eexists; reflexivity.
Qed.

Lemma aws_get_service_first (p : AWS.Provider) (now later : Z) (key : string)
    (cache : gmap string CacheEntry) :
  fst (AWS.getFromCache now key cache) = None ->
  fetched (AWS.get p now later key cache)
  = [AWS.buildSecretName p key (serviceName (AWS.config p))]
  \/ fetched (AWS.get p now later key cache)
     = [AWS.buildSecretName p key (serviceName (AWS.config p));
        AWS.buildSecretName p key "shared"].
Proof.
  unfold AWS.get.
  destruct (AWS.getFromCache now key cache) as [[cached|] cache1]; simpl; [discriminate |].
  intros _.
  destruct (AWS.fetchSecretFromAWS p (AWS.buildSecretName p key _)) as [v|].
  - now left.
  - destruct (AWS.fetchSecretFromAWS p _); now right.
Qed.

Lemma azure_get_service_first (p : Azure.Provider) (now later : Z) (key : string)
    (cache : gmap string CacheEntry) :
  fst (Azure.getFromCache now key cache) = None ->
  fetched (Azure.get p now later key cache)
  = [Azure.buildSecretName p key (serviceName (Azure.config p))]
  \/ fetched (Azure.get p now later key cache)
     = [Azure.buildSecretName p key (serviceName (Azure.config p));
        Azure.buildSecretName p key "shared"].
Proof.
  unfold Azure.get.
  destruct (Azure.getFromCache now key cache) as [[cached|] cache1]; simpl; [discriminate |].
  intros _.
  destruct (Azure.fetchSecretFromAzure p (Azure.buildSecretName p key _)) as [v|].
  - now left.
  - destruct (Azure.fetchSecretFromAzure p _); now right.
Qed.

(** C2 (amended). Only the GCP provider treats the key [API_KEY]
    specially: on a cache miss its [get] fetches exactly one secret, the
    shared-scope name built from the service name in upper snake case
    followed by [_API_KEY], which is never the service-scoped name of
    [API_KEY]; on a cache hit it fetches nothing; every other key is
    looked up service-scoped first.  The AWS and Azure providers have no
    such case: on a miss [API_KEY] is looked up like any key, under the
    service-scoped name first. *)
Theorem C2_api_key_shared_scope_only_in_gcp :
  (forall (p : GCP.Provider) (now later : Z) (cache : gmap string CacheEntry),
      match fst (GCP.getFromCache now "API_KEY" cache) with
      | Some cached =>
          found (GCP.get p now later "API_KEY" cache) = Some cached
          /\ fetched (GCP.get p now later "API_KEY" cache) = []
      | None =>
          found (GCP.get p now later "API_KEY" cache)
          = GCP.fetchSecretFromGCP p (GCP.buildSecretName p (GCP.sharedApiKey p) "shared")
          /\ fetched (GCP.get p now later "API_KEY" cache)
             = [GCP.buildSecretName p (GCP.sharedApiKey p) "shared"]
      end)
  /\ (forall p : GCP.Provider,
         GCP.buildSecretName p (GCP.sharedApiKey p) "shared"
         <> GCP.buildSecretName p "API_KEY" (serviceName (GCP.config p))
         /\ GCP.sharedApiKey p
            = replaceAll "-" "_" (toUpperCase (serviceName (GCP.config p))) +:+ "_API_KEY")
  /\ GCP.buildSecretName (Fixtures.gcpWith (fun _ => Fixtures.unreachable))
       (GCP.sharedApiKey (Fixtures.gcpWith (fun _ => Fixtures.unreachable))) "shared"
     = "testproject-shared-TEST_SERVICE_API_KEY"
  /\ (forall (p : GCP.Provider) (now later : Z) (key : string)
             (cache : gmap string CacheEntry),
         key <> "API_KEY" ->
         fst (GCP.getFromCache now key cache) = None ->
         exists rest,
           fetched (GCP.get p now later key cache)
           = GCP.buildSecretName p key (serviceName (GCP.config p)) :: rest)
  /\ (forall (p : AWS.Provider) (now later : Z) (cache : gmap string CacheEntry),
         fst (AWS.getFromCache now "API_KEY" cache) = None ->
         fetched (AWS.get p now later "API_KEY" cache)
         = [projectName (AWS.config p) +:+ "-" +:+ serviceName (AWS.config p)
            +:+ "-" +:+ "API_KEY"]
         \/ fetched (AWS.get p now later "API_KEY" cache)
            = [projectName (AWS.config p) +:+ "-" +:+ serviceName (AWS.config p)
               +:+ "-" +:+ "API_KEY";
               projectName (AWS.config p) +:+ "-" +:+ "shared" +:+ "-" +:+ "API_KEY"])
  /\ (forall (p : Azure.Provider) (now later : Z) (cache : gmap string CacheEntry),
         fst (Azure.getFromCache now "API_KEY" cache) = None ->
         fetched (Azure.get p now later "API_KEY" cache)
         = [projectName (Azure.config p) +:+ "-" +:+ serviceName (Azure.config p)
            +:+ "-" +:+ "API-KEY"]
         \/ fetched (Azure.get p now later "API_KEY" cache)
            = [projectName (Azure.config p) +:+ "-" +:+ serviceName (Azure.config p)
               +:+ "-" +:+ "API-KEY";
               projectName (Azure.config p) +:+ "-" +:+ "shared" +:+ "-" +:+ "API-KEY"]).
Proof.
  split; [exact gcp_get_api_key |].
  split; [intros p; split; [apply gcp_shared_name_differs | reflexivity] |].
  split; [reflexivity |].
  split; [exact gcp_get_other_key |].
  split.
  - intros p now later cache Hmiss.
    exact (aws_get_service_first p now later "API_KEY" cache Hmiss).
  - intros p now later cache Hmiss.
    exact (azure_get_service_first p now later "API_KEY" cache Hmiss).
Qed.

(** On AWS, [API_KEY] read from an empty cache starts service-scoped. *)
Lemma C2_witness_aws_miss :
  fetched (AWS.get (Fixtures.awsWith (Fixtures.storeOf [])) 0 0 "API_KEY" ∅)
  = ["testproject-test-service-API_KEY"]
  \/ fetched (AWS.get (Fixtures.awsWith (Fixtures.storeOf [])) 0 0 "API_KEY" ∅)
     = ["testproject-test-service-API_KEY"; "testproject-shared-API_KEY"].
Proof.
  apply (proj1 (proj2 (proj2 (proj2 (proj2 C2_api_key_shared_scope_only_in_gcp))))
           (Fixtures.awsWith (Fixtures.storeOf [])) 0%Z 0%Z ∅).
  reflexivity.
Defined.

(** C2 as stated fails for AWS and Azure: [get('API_KEY')] performs the
    service-scoped lookup first (the Azure provider's own test relies on
    it), and the shared name it falls back to is the plain key. *)
Lemma C2_counterexample_aws_azure_service_scoped_first :
  fetched (AWS.get
             (Fixtures.awsWith (Fixtures.storeOf [("testproject-shared-API_KEY", "shared-value")]))
             0 0 "API_KEY" ∅)
  = ["testproject-test-service-API_KEY"; "testproject-shared-API_KEY"]
  /\ fetched (Azure.get
                (Fixtures.azureWith
                   (Fixtures.storeOf [("testproject-shared-API-KEY", "shared-value")]))
                0 0 "API_KEY" ∅)
     = ["testproject-test-service-API-KEY"; "testproject-shared-API-KEY"]
  /\ found (Azure.get
              (Fixtures.azureWith
                 (Fixtures.storeOf [("testproject-shared-API-KEY", "shared-value")]))
              0 0 "API_KEY" ∅)
     = Some "shared-value".
Proof. repeat split; vm_compute; reflexivity. Qed.

End LookupFacts.

Section ErrorFacts.
Import JS Secrets.

Lemma gcp_fetch_swallows (p : GCP.Provider) (secretName : string) (e : StoreError) :
  GCP.accessSecretVersion (GCP.client p) (GCP.versionName p secretName) = Fail e ->
  GCP.fetchSecretFromGCP p secretName = None.
Proof.
  intros H. unfold GCP.fetchSecretFromGCP. rewrite H.
  repeat match goal with
         | |- context [match ?x with _ => _ end] => destruct x
         end; reflexivity.
Qed.

Lemma aws_fetch_swallows (p : AWS.Provider) (secretName : string) (e : StoreError) :
  AWS.getSecretValue (AWS.client p) secretName = Fail e ->
  AWS.fetchSecretFromAWS p secretName = None.
Proof. intros H. unfold AWS.fetchSecretFromAWS. now rewrite H. Qed.

Lemma azure_fetch_swallows (p : Azure.Provider) (secretName : string) (e : StoreError) :
  Azure.getSecret (Azure.client p) secretName = Fail e ->
  Azure.fetchSecretFromAzure p secretName = None.
Proof. intros H. unfold Azure.fetchSecretFromAzure. now rewrite H. Qed.

Lemma gcp_set_rejected (p : GCP.Provider) (key v : string)
    (cache : gmap string CacheEntry) (m : string) :
  let name := GCP.buildSecretName p key (serviceName (GCP.config p)) in
  let secretId := GCP.extractSecretId name in
  let created := GCP.createSecret (GCP.client p) (GCP.parent p) secretId in
  let added :=
    GCP.addSecretVersion (GCP.client p) (GCP.parent p +:+ "/secrets/" +:+ secretId) v in
  GCP.set p key v cache = (Rejected m, cache)
  <-> exists e,
        ((GCP.exists_ p key = false /\ created = Fail e)
         \/ ((GCP.exists_ p key = true \/ isOk created = true) /\ added = Fail e))
        /\ m = "Failed to set secret " +:+ name +:+ " in GCP: " +:+ text e.
Proof.
  intros name secretId created added. unfold GCP.set. cbv zeta.
  fold name. fold secretId. fold created. fold added.
  destruct (GCP.exists_ p key); [|destruct created as [u|e0]];
    destruct added as [u'|e1]; cbn [isOk]; split;
    try (intros H; discriminate H);
    try (intros (e & [[H _]|[_ H]] & _); discriminate H);
    try (intros (e & [[_ H]|[[H|H] _]] & _); discriminate H).
  all: try (intros H; injection H as <-; eexists; split; [|reflexivity]; tauto).
  all: try (intros (e & [[H1 H2]|[H1 H2]] & ->); first [discriminate H1 | discriminate H2
            | (injection H2 as <-; reflexivity)]).
  all: try (intros (e & [[H1 H2]|[[H1|H1] H2]] & ->); first [discriminate H1 | discriminate H2
            | (injection H2 as <-; reflexivity)]).
Qed.

Lemma gcp_remove_rejected (p : GCP.Provider) (key : string)
    (cache : gmap string CacheEntry) (m : string) :
  let name := GCP.buildSecretName p key (serviceName (GCP.config p)) in
  GCP.remove p key cache = (Rejected m, cache)
  <-> exists e,
        GCP.deleteSecret (GCP.client p)
          (GCP.parent p +:+ "/secrets/" +:+ GCP.extractSecretId name) = Fail e
        /\ m = "Failed to remove secret " +:+ name +:+ " from GCP: " +:+ text e.
Proof.
  intros name. unfold GCP.remove. cbv zeta. fold name.
  destruct (GCP.deleteSecret _ _) as [u|e]; split.
  - intros H; discriminate H.
  - intros (e & H & _). discriminate H.
  - intros H. injection H as <-. now exists e.
  - intros (e' & H & ->). now injection H as <-.
Qed.

Lemma gcp_list_rejected (p : GCP.Provider) (m : string) :
  GCP.list p = Rejected m
  <-> exists e,
        GCP.listSecrets (GCP.client p) (GCP.parent p)
          ("labels.project-name=" +:+ projectName (GCP.config p)) = Fail e
        /\ m = "Failed to list secrets from GCP: " +:+ text e.
Proof.
  unfold GCP.list. destruct (GCP.listSecrets _ _ _) as [u|e]; split.
  - intros H; discriminate H.
  - intros (e & H & _). discriminate H.
  - intros H. injection H as <-. now exists e.
  - intros (e' & H & ->). now injection H as <-.
Qed.

Lemma aws_set_rejected (p : AWS.Provider) (key v : string)
    (cache : gmap string CacheEntry) (m : string) :
  let name := AWS.buildSecretName p key (serviceName (AWS.config p)) in
  AWS.set p key v cache = (Rejected m, cache)
  <-> exists e,
        ((AWS.exists_ p key = false /\ AWS.createSecret (AWS.client p) name v = Fail e)
         \/ (AWS.exists_ p key = true /\ AWS.putSecretValue (AWS.client p) name v = Fail e))
        /\ m = "Failed to set secret " +:+ name +:+ " in AWS: " +:+ text e.
Proof.
  intros name. unfold AWS.set. cbv zeta. fold name.
  destruct (AWS.exists_ p key); cbn [negb].
  - destruct (AWS.putSecretValue _ _ _) as [u|e]; split.
    + intros H; discriminate H.
    + intros (e & [[H _]|[_ H]] & _); discriminate H.
    + intros H. injection H as <-. exists e. split; [now right | reflexivity].
    + intros (e' & [[H _]|[_ H]] & ->); [discriminate H | now injection H as <-].
  - destruct (AWS.createSecret _ _ _) as [u|e]; split.
    + intros H; discriminate H.
    + intros (e & [[_ H]|[H _]] & _); discriminate H.
    + intros H. injection H as <-. exists e. split; [now left | reflexivity].
    + intros (e' & [[_ H]|[H _]] & ->); [now injection H as <- | discriminate H].
Qed.

Lemma aws_remove_rejected (p : AWS.Provider) (key : string)
    (cache : gmap string CacheEntry) (m : string) :
  let name := AWS.buildSecretName p key (serviceName (AWS.config p)) in
  AWS.remove p key cache = (Rejected m, cache)
  <-> exists e,
        AWS.deleteSecret (AWS.client p) name = Fail e
        /\ m = "Failed to remove secret " +:+ name +:+ " from AWS: " +:+ text e.
Proof.
  intros name. unfold AWS.remove. cbv zeta. fold name.
  destruct (AWS.deleteSecret _ _) as [u|e]; split.
  - intros H; discriminate H.
  - intros (e & H & _). discriminate H.
  - intros H. injection H as <-. now exists e.
  - intros (e' & H & ->). now injection H as <-.
Qed.

Lemma aws_listFrom_rejected (p : AWS.Provider) (pages : AWS.Pages)
    (secrets : list string) (m : string) :
  AWS.listFrom p pages secrets = Rejected m
  <-> exists e,
        AWS.firstError pages = Some e
        /\ m = "Failed to list secrets from AWS: " +:+ text e.
Proof.
  revert secrets. induction pages as [r | r rest IH]; intros secrets;
    cbn [AWS.listFrom AWS.firstError]; destruct r as [u|e]; try apply IH; split.
  - intros H; discriminate H.
  - intros (e & H & _). discriminate H.
  - intros H. injection H as <-. now exists e.
  - intros (e' & H & ->). now injection H as <-.
  - intros H. injection H as <-. now exists e.
  - intros (e' & H & ->). now injection H as <-.
Qed.

Lemma azure_set_rejected (p : Azure.Provider) (key v : string)
    (cache : gmap string CacheEntry) (m : string) :
  let name := Azure.buildSecretName p key (serviceName (Azure.config p)) in
  Azure.set p key v cache = (Rejected m, cache)
  <-> exists e,
        Azure.setSecret (Azure.client p) name v = Fail e
        /\ m = "Failed to set secret " +:+ name +:+ " in Azure: " +:+ text e.
Proof.
  intros name. unfold Azure.set. cbv zeta. fold name.
  destruct (Azure.setSecret _ _ _) as [u|e]; split.
  - intros H; discriminate H.
  - intros (e & H & _). discriminate H.
  - intros H. injection H as <-. now exists e.
  - intros (e' & H & ->). now injection H as <-.
Qed.

Lemma azure_remove_rejected (p : Azure.Provider) (key : string)
    (cache : gmap string CacheEntry) (m : string) :
  let name := Azure.buildSecretName p key (serviceName (Azure.config p)) in
  Azure.remove p key cache = (Rejected m, cache)
  <-> exists e,
        Azure.beginDeleteSecret (Azure.client p) name = Fail e
        /\ m = "Failed to remove secret " +:+ name +:+ " from Azure: " +:+ text e.
Proof.
  intros name. unfold Azure.remove. cbv zeta. fold name.
  destruct (Azure.beginDeleteSecret _ _) as [u|e]; split.
  - intros H; discriminate H.
  - intros (e & H & _). discriminate H.
  - intros H. injection H as <-. now exists e.
  - intros (e' & H & ->). now injection H as <-.
Qed.

Lemma azure_listFrom_rejected (p : Azure.Provider)
    (items : list (Reply Azure.SecretProperties)) (secrets : list string) (m : string) :
  Azure.listFrom p items secrets = Rejected m
  <-> exists e,
        Azure.firstError items = Some e
        /\ m = "Failed to list secrets from Azure: " +:+ text e.
Proof.
  revert secrets. induction items as [|[properties|e] rest IH]; intros secrets;
    cbn [Azure.listFrom Azure.firstError]; try apply IH; split.
  - intros H; discriminate H.
  - intros (e & H & _). discriminate H.
  - intros H. injection H as <-. now exists e.
  - intros (e' & H & ->). now injection H as <-.
Qed.

(** A rejected write leaves the cache as it was. *)
Lemma rejected_write_keeps_cache :
  (forall (p : GCP.Provider) key v cache m,
      fst (GCP.set p key v cache) = Rejected m -> snd (GCP.set p key v cache) = cache)
  /\ (forall (p : GCP.Provider) key cache m,
         fst (GCP.remove p key cache) = Rejected m -> snd (GCP.remove p key cache) = cache)
  /\ (forall (p : AWS.Provider) key v cache m,
         fst (AWS.set p key v cache) = Rejected m -> snd (AWS.set p key v cache) = cache)
  /\ (forall (p : AWS.Provider) key cache m,
         fst (AWS.remove p key cache) = Rejected m -> snd (AWS.remove p key cache) = cache)
  /\ (forall (p : Azure.Provider) key v cache m,
         fst (Azure.set p key v cache) = Rejected m -> snd (Azure.set p key v cache) = cache)
  /\ (forall (p : Azure.Provider) key cache m,
         fst (Azure.remove p key cache) = Rejected m ->
         snd (Azure.remove p key cache) = cache).
Proof.
  repeat split; intros p key; intros;
    match goal with
    | H : fst ?call = Rejected _ |- _ => revert H
    end;
    unfold GCP.set, GCP.remove, AWS.set, AWS.remove, Azure.set, Azure.remove; cbv zeta;
    repeat match goal with
           | |- context [if ?b then _ else _] => destruct b
           | |- context [match ?r with Ok _ => _ | Fail _ => _ end] => destruct r
           end; cbn [fst snd]; intros H; first [discriminate H | reflexivity].
Qed.

(** C4 (amended). Errors of the secret store are wrapped on a write and
    on [list], and swallowed on a read.  For each cloud provider, [set]
    and [remove] reject if and only if the write they send to the store
    fails, and [list] if and only if a response of the store is an
    error; the message is then "Failed to set secret NAME in P: TEXT",
    "Failed to remove secret NAME from P: TEXT" or "Failed to list
    secrets from P: TEXT", NAME being the service-scoped secret name and
    TEXT the message of that error of the store.  The wrapper is made of
    these parts only: the secret value is in the message only if the
    store's own message holds it.  A rejected write leaves the cache
    untouched.  The writes are: for GCP [createSecret] (when [exists]
    finds the key in neither scope) and then [addSecretVersion], for AWS
    [CreateSecret] or [PutSecretValue], for Azure [setSecret]; the
    deletes [deleteSecret], [DeleteSecret], [beginDeleteSecret].  On a
    read every error of the store, not-found or transport, yields null
    for that scope, so [get] never rejects and a transport error ends
    as a null result; the probes of [exists] swallow errors likewise. *)
Theorem C4_store_errors_wrapped_on_write_swallowed_on_read :
  (forall (p : GCP.Provider) name e,
      GCP.accessSecretVersion (GCP.client p) (GCP.versionName p name) = Fail e ->
      GCP.fetchSecretFromGCP p name = None)
  /\ (forall (p : AWS.Provider) name e,
         AWS.getSecretValue (AWS.client p) name = Fail e ->
         AWS.fetchSecretFromAWS p name = None)
  /\ (forall (p : Azure.Provider) name e,
         Azure.getSecret (Azure.client p) name = Fail e ->
         Azure.fetchSecretFromAzure p name = None)
  /\ (forall (p : GCP.Provider) key v cache m,
         let name := GCP.buildSecretName p key (serviceName (GCP.config p)) in
         let secretId := GCP.extractSecretId name in
         let created := GCP.createSecret (GCP.client p) (GCP.parent p) secretId in
         let added :=
           GCP.addSecretVersion (GCP.client p)
             (GCP.parent p +:+ "/secrets/" +:+ secretId) v in
         GCP.set p key v cache = (Rejected m, cache)
         <-> exists e,
               ((GCP.exists_ p key = false /\ created = Fail e)
                \/ ((GCP.exists_ p key = true \/ isOk created = true) /\ added = Fail e))
               /\ m = "Failed to set secret " +:+ name +:+ " in GCP: " +:+ text e)
  /\ (forall (p : GCP.Provider) key cache m,
         let name := GCP.buildSecretName p key (serviceName (GCP.config p)) in
         GCP.remove p key cache = (Rejected m, cache)
         <-> exists e,
               GCP.deleteSecret (GCP.client p)
                 (GCP.parent p +:+ "/secrets/" +:+ GCP.extractSecretId name) = Fail e
               /\ m = "Failed to remove secret " +:+ name +:+ " from GCP: " +:+ text e)
  /\ (forall (p : GCP.Provider) m,
         GCP.list p = Rejected m
         <-> exists e,
               GCP.listSecrets (GCP.client p) (GCP.parent p)
                 ("labels.project-name=" +:+ projectName (GCP.config p)) = Fail e
               /\ m = "Failed to list secrets from GCP: " +:+ text e)
  /\ (forall (p : AWS.Provider) key v cache m,
         let name := AWS.buildSecretName p key (serviceName (AWS.config p)) in
         AWS.set p key v cache = (Rejected m, cache)
         <-> exists e,
               ((AWS.exists_ p key = false
                 /\ AWS.createSecret (AWS.client p) name v = Fail e)
                \/ (AWS.exists_ p key = true
                    /\ AWS.putSecretValue (AWS.client p) name v = Fail e))
               /\ m = "Failed to set secret " +:+ name +:+ " in AWS: " +:+ text e)
  /\ (forall (p : AWS.Provider) key cache m,
         let name := AWS.buildSecretName p key (serviceName (AWS.config p)) in
         AWS.remove p key cache = (Rejected m, cache)
         <-> exists e,
               AWS.deleteSecret (AWS.client p) name = Fail e
               /\ m = "Failed to remove secret " +:+ name +:+ " from AWS: " +:+ text e)
  /\ (forall (p : AWS.Provider) m,
         AWS.list p = Rejected m
         <-> exists e,
               AWS.firstError (AWS.listSecrets (AWS.client p)) = Some e
               /\ m = "Failed to list secrets from AWS: " +:+ text e)
  /\ (forall (p : Azure.Provider) key v cache m,
         let name := Azure.buildSecretName p key (serviceName (Azure.config p)) in
         Azure.set p key v cache = (Rejected m, cache)
         <-> exists e,
               Azure.setSecret (Azure.client p) name v = Fail e
               /\ m = "Failed to set secret " +:+ name +:+ " in Azure: " +:+ text e)
  /\ (forall (p : Azure.Provider) key cache m,
         let name := Azure.buildSecretName p key (serviceName (Azure.config p)) in
         Azure.remove p key cache = (Rejected m, cache)
         <-> exists e,
               Azure.beginDeleteSecret (Azure.client p) name = Fail e
               /\ m = "Failed to remove secret " +:+ name +:+ " from Azure: " +:+ text e)
  /\ (forall (p : Azure.Provider) m,
         Azure.list p = Rejected m
         <-> exists e,
               Azure.firstError (Azure.listPropertiesOfSecrets (Azure.client p)) = Some e
               /\ m = "Failed to list secrets from Azure: " +:+ text e)
  /\ ((forall (p : GCP.Provider) key v cache m,
          fst (GCP.set p key v cache) = Rejected m -> snd (GCP.set p key v cache) = cache)
      /\ (forall (p : GCP.Provider) key cache m,
             fst (GCP.remove p key cache) = Rejected m ->
             snd (GCP.remove p key cache) = cache)
      /\ (forall (p : AWS.Provider) key v cache m,
             fst (AWS.set p key v cache) = Rejected m -> snd (AWS.set p key v cache) = cache)
      /\ (forall (p : AWS.Provider) key cache m,
             fst (AWS.remove p key cache) = Rejected m ->
             snd (AWS.remove p key cache) = cache)
      /\ (forall (p : Azure.Provider) key v cache m,
             fst (Azure.set p key v cache) = Rejected m ->
             snd (Azure.set p key v cache) = cache)
      /\ (forall (p : Azure.Provider) key cache m,
             fst (Azure.remove p key cache) = Rejected m ->
             snd (Azure.remove p key cache) = cache))
  /\ (forall (p : GCP.Provider) key,
         (forall name, isOk (GCP.getSecret (GCP.client p) name) = false) ->
         GCP.exists_ p key = false)
  /\ (forall (p : AWS.Provider) key,
         (forall name, isOk (AWS.describeSecret (AWS.client p) name) = false) ->
         AWS.exists_ p key = false).
Proof.
  split; [exact gcp_fetch_swallows |].
  split; [exact aws_fetch_swallows |].
  split; [exact azure_fetch_swallows |].
  split; [exact gcp_set_rejected |].
  split; [exact gcp_remove_rejected |].
  split; [exact gcp_list_rejected |].
  split; [exact aws_set_rejected |].
  split; [exact aws_remove_rejected |].
  split; [intros p m; apply aws_listFrom_rejected |].
  split; [exact azure_set_rejected |].
  split; [exact azure_remove_rejected |].
  split; [intros p m; apply azure_listFrom_rejected |].
  split; [exact rejected_write_keeps_cache |].
  split.
  - intros p key H. unfold GCP.exists_. cbv zeta. now rewrite !H.
  - intros p key H. unfold AWS.exists_. now rewrite !H.
Qed.

(** A store that cannot be reached makes [set] reject with the wrapped
    message of the failed [createSecret], the cache left as it was. *)
Lemma C4_witness_gcp_set_unreachable :
  GCP.set Fixtures.gcpReadOnly "KEY" "s3cr3t" ∅
  = (Rejected
       "Failed to set secret testproject-test-service-KEY in GCP: UNAVAILABLE: connection reset",
     ∅).
Proof.
  apply (proj2 (proj1 (proj2 (proj2 (proj2 C4_store_errors_wrapped_on_write_swallowed_on_read)))
                  Fixtures.gcpReadOnly "KEY" "s3cr3t" ∅ _)).
  exists (mkStoreError (Some 14%Z) "UNAVAILABLE: connection reset").
  split; [left; split; reflexivity | reflexivity].
Defined.

(** C4 as stated fails for [get]: with the store unreachable (a
    transport error, not a not-found) every provider's [get] tries both
    scopes and returns null instead of raising a wrapped error. *)
Lemma C4_counterexample_transport_error_becomes_null :
  GCP.get (Fixtures.gcpWith (fun _ => Fixtures.unreachable)) 0 0 "DATABASE_URL" ∅
  = mkLookup None ∅
      ["testproject-test-service-DATABASE_URL"; "testproject-shared-DATABASE_URL"]
  /\ AWS.get (Fixtures.awsWith (fun _ => Fixtures.unreachable)) 0 0 "DATABASE_URL" ∅
     = mkLookup None ∅
         ["testproject-test-service-DATABASE_URL"; "testproject-shared-DATABASE_URL"]
  /\ Azure.get (Fixtures.azureWith (fun _ => Fixtures.unreachable)) 0 0 "DATABASE_URL" ∅
     = mkLookup None ∅
         ["testproject-test-service-DATABASE-URL"; "testproject-shared-DATABASE-URL"].
Proof. repeat split; vm_compute; reflexivity. Qed.

End ErrorFacts.

(** ** Further properties of the guard *)

Section GuardOutcomes.
Import JS ClaimExtractor AuthGuard.

Lemma verify_keeps_request (c : Collaborators) (r : Request) (tr : list Event) :
  request (snd (verifyKongTrustHeader c (mkState r tr))) = r.
Proof.
  destruct (truthy (orElse (url r) (path r))
            && isInfrastructurePath (default "" (orElse (url r) (path r)))) eqn:Hpath.
  - now rewrite (verify_skipped c r tr Hpath).
  - rewrite (verify_checked c r tr Hpath). cbv zeta.
    repeat match goal with
           | |- context [if ?b then _ else _] => destruct b
           | |- context [match secrets_get c ?k with _ => _ end] => destruct (secrets_get c k)
           end; reflexivity.
Qed.

Lemma verify_state (c : Collaborators) (r : Request) (tr : list Event) :
  exists o tr', verifyKongTrustHeader c (mkState r tr) = (o, mkState r tr').
Proof.
  pose proof (verify_keeps_request c r tr) as H.
  destruct (verifyKongTrustHeader c (mkState r tr)) as [o [r' tr']]. simpl in H. subst r'.
  now exists o, tr'.
Qed.

(** X1. On the gateway path (a trust header is present, or no API key is
    given) a request that starts with neither [user] nor [service] never
    ends with both. *)
Theorem gateway_path_user_xor_service
    (c : Collaborators) (isPublic : bool) (r : Request) (tr : list Event)
    (o : Outcome bool) (st' : State) :
  user r = None -> service r = None ->
  truthy (objGet "x-kong-trust" (headers r)) = true
  \/ truthy (objGet "x-api-key" (headers r)) = false ->
  canActivate c isPublic (mkState r tr) = (o, st') ->
  user (request st') = None \/ service (request st') = None.
Proof.
  intros Hu Hs Hpath.
  unfold canActivate. unfold bind at 1. unfold getRequest at 1. cbn [request].
  unfold bind at 1.
  assert (Hfirst : exists o1 tr1,
             (if truthy (objGet "x-kong-trust" (headers r))
              then verifyKongTrustHeader c
              else if truthy (objGet "x-api-key" (headers r))
                   then (run validateServiceApiKey c (default "" (objGet "x-api-key" (headers r))); ret tt)
                   else ret tt) (mkState r tr) = (o1, mkState r tr1)).
  { destruct (truthy (objGet "x-kong-trust" (headers r))) eqn:Ht.
    - apply verify_state.
    - destruct Hpath as [Hp|Hp]; [discriminate Hp |]. rewrite Hp. now exists (Returned tt), tr. }
  destruct Hfirst as (o1 & tr1 & ->).
  destruct o1 as [[]|e]; [|intros H; injection H as _ <-; now left].
  destruct isPublic; [intros H; injection H as _ <-; now left |].
  repeat match goal with
         | |- context [if ?b then _ else _] => destruct b
         end;
    cbv beta iota delta [bind ret throw setUser setService]; simpl;
    intros H; injection H as _ <-; simpl; auto.
Qed.

(** The test "should prioritize JWT authentication over API key". *)
Lemma gateway_path_user_xor_service_example :
  user (request (snd (canActivate Fixtures.mockSecrets false
          (Fixtures.requestWith
             [("x-kong-trust", "test-kong-trust-token-12345");
              ("x-consumer-id", "user-123");
              ("x-consumer-username", "some-service")])))) = None
  \/ service (request (snd (canActivate Fixtures.mockSecrets false
          (Fixtures.requestWith
             [("x-kong-trust", "test-kong-trust-token-12345");
              ("x-consumer-id", "user-123");
              ("x-consumer-username", "some-service")])))) = None.
Proof.
  apply (gateway_path_user_xor_service Fixtures.mockSecrets false
           (mkRequest None None
              [("x-kong-trust", "test-kong-trust-token-12345");
               ("x-consumer-id", "user-123");
               ("x-consumer-username", "some-service")] None None) []
           (fst (canActivate Fixtures.mockSecrets false
                   (Fixtures.requestWith
                      [("x-kong-trust", "test-kong-trust-token-12345");
                       ("x-consumer-id", "user-123");
                       ("x-consumer-username", "some-service")]))));
    first [reflexivity | (left; reflexivity) | apply surjective_pairing].
Defined.

(** The scenarios of the guard's tests: a gateway request with claims, a
    direct service call, a direct call that names its service, and a
    request without any signal. *)
Theorem guard_scenarios :
  (let st := canActivate Fixtures.mockSecrets false
               (Fixtures.requestWith
                  [("x-kong-trust", "test-kong-trust-token-12345");
                   ("x-consumer-id", "u1");
                   ("x-jwt-claim-roles", "USER,ADMIN")]) in
   fst st = Returned true
   /\ user (request (snd st))
      = Some [("id", FText "u1"); ("roles", FParsed (VArray ["USER"; "ADMIN"]))]
   /\ service (request (snd st)) = None)
  /\ (let st := canActivate Fixtures.mockSecrets false
                  (mkState (mkRequest (Some "/orders") None
                              [("x-api-key", "direct-service-api-key")] None None) []) in
      fst st = Returned true
      /\ user (request (snd st)) = None
      /\ service (request (snd st)) = Some "internal")
  /\ (let st := canActivate Fixtures.mockSecrets false
                  (Fixtures.requestWith
                     [("x-api-key", "direct-service-api-key");
                      ("x-service-name", "bff-service")]) in
      fst st = Returned true /\ service (request (snd st)) = Some "bff-service")
  /\ canActivate Fixtures.mockSecrets false (Fixtures.requestWith [])
     = (Thrown (UnauthorizedException "No authentication provided"),
        Fixtures.requestWith []).
Proof. repeat split; vm_compute; reflexivity. Qed.

(** X3. Every rejection of [canActivate] is one of the guard's five
    messages, or the error the secrets service itself threw; in
    particular [timingSafeEqual] never throws on a length mismatch. *)
Theorem canActivate_rejection_reasons
    (c : Collaborators) (isPublic : bool) (r : Request) (tr : list Event)
    (e : Exception) (st' : State) :
  canActivate c isPublic (mkState r tr) = (Thrown e, st') ->
  e = UnauthorizedException "Unauthorized request"
  \/ e = UnauthorizedException "Authentication configuration error"
  \/ e = UnauthorizedException "Server API key is not configured"
  \/ e = ForbiddenException "Invalid API key"
  \/ e = UnauthorizedException "No authentication provided"
  \/ secrets_get c "KONG_TRUST_TOKEN" = Thrown e
  \/ secrets_get c "API_KEY" = Thrown e.
Proof.
  unfold canActivate. unfold bind at 1. unfold getRequest at 1. cbn [request].
  unfold bind at 1.
  destruct (truthy (objGet "x-kong-trust" (headers r))) eqn:Htrust.
  - destruct (truthy (orElse (url r) (path r))
              && isInfrastructurePath (default "" (orElse (url r) (path r)))) eqn:Hpath.
    + rewrite (verify_skipped c r tr Hpath).
      repeat match goal with
             | |- context [if ?b then _ else _] => destruct b
             end;
        cbv beta iota delta [bind ret throw setUser setService]; simpl;
        intros H; first [discriminate H | injection H as <- _; tauto].
    + rewrite (verify_checked c r tr Hpath). rewrite Htrust. cbn [negb]. cbv zeta.
      destruct (secrets_get c "KONG_TRUST_TOKEN") as [tok|e0] eqn:Hget.
      * repeat match goal with
               | |- context [if ?b then _ else _] => destruct b
               end;
          cbv beta iota delta [bind ret throw setUser setService]; simpl;
          intros H; first [discriminate H | injection H as <- _; tauto].
      * intros H. injection H as <- _. tauto.
  - destruct (truthy (objGet "x-api-key" (headers r))) eqn:Hkey.
    + unfold bind at 1. rewrite validate_checked. cbv zeta.
      destruct (secrets_get c "API_KEY") as [tok|e0] eqn:Hget.
      * repeat match goal with
               | |- context [if ?b then _ else _] => destruct b
               end;
          cbv beta iota delta [bind ret throw setUser setService]; simpl;
          intros H; first [discriminate H | injection H as <- _; tauto].
      * intros H. injection H as <- _. tauto.
    + repeat match goal with
             | |- context [if ?b then _ else _] => destruct b
             end;
        cbv beta iota delta [bind ret throw setUser setService]; simpl;
        intros H; first [discriminate H | injection H as <- _; tauto].
Qed.

(** An empty request is turned away for lack of authentication. *)
Lemma canActivate_rejection_reasons_example :
  UnauthorizedException "No authentication provided"
  = UnauthorizedException "Unauthorized request"
  \/ UnauthorizedException "No authentication provided"
     = UnauthorizedException "Authentication configuration error"
  \/ UnauthorizedException "No authentication provided"
     = UnauthorizedException "Server API key is not configured"
  \/ UnauthorizedException "No authentication provided"
     = ForbiddenException "Invalid API key"
  \/ UnauthorizedException "No authentication provided"
     = UnauthorizedException "No authentication provided"
  \/ secrets_get Fixtures.mockSecrets "KONG_TRUST_TOKEN"
     = Thrown (UnauthorizedException "No authentication provided")
  \/ secrets_get Fixtures.mockSecrets "API_KEY"
     = Thrown (UnauthorizedException "No authentication provided").
Proof.
  apply (canActivate_rejection_reasons Fixtures.mockSecrets false
           (mkRequest None None [] None None) []
           (UnauthorizedException "No authentication provided")
           (Fixtures.requestWith [])).
  reflexivity.
Defined.

(** X4. With a consumer id present, the guard's legacy path builds the same
    user as the standalone extractor: the id from [x-consumer-id] and one
    camelCased, parsed property per [x-jwt-claim-*] header. *)
Theorem legacy_path_is_standalone_extractor (hs : Headers) :
  truthy (objGet CONSUMER_ID hs) = true ->
  legacyUser hs = ClaimExtractor.extractUserFromHeaders hs.
Proof.
  intros Hid. unfold legacyUser, ClaimExtractor.extractUserFromHeaders, orElse.
  rewrite Hid. reflexivity.
Qed.

(** The test "should extract all JWT claims dynamically". *)
Lemma legacy_path_is_standalone_extractor_example :
  legacyUser
    [("x-consumer-id", "user-123"); ("x-jwt-claim-email", "john@example.com");
     ("x-jwt-claim-roles", "USER,ADMIN"); ("x-jwt-claim-tenant-id", "tenant-456");
     ("x-jwt-claim-is-verified", "true")]
  = [("id", FText "user-123"); ("email", FParsed (VString "john@example.com"));
     ("roles", FParsed (VArray ["USER"; "ADMIN"]));
     ("tenantId", FParsed (VString "tenant-456"));
     ("isVerified", FParsed (VBoolean true))].
Proof.
  rewrite (legacy_path_is_standalone_extractor
             [("x-consumer-id", "user-123"); ("x-jwt-claim-email", "john@example.com");
              ("x-jwt-claim-roles", "USER,ADMIN"); ("x-jwt-claim-tenant-id", "tenant-456");
              ("x-jwt-claim-is-verified", "true")] eq_refl).
  reflexivity.
Defined.

End GuardOutcomes.

(** ** Further properties of the providers *)

Section LookupBounds.
Import JS Secrets.

Lemma gcp_get_reads (p : GCP.Provider) (now later : Z) (key : string)
    (cache : gmap string CacheEntry) :
  length (fetched (GCP.get p now later key cache)) <= 2.
Proof.
  unfold GCP.get. destruct (GCP.getFromCache now key cache) as [[cached|] cache1];
    simpl; [lia |].
  destruct (String.eqb key "API_KEY").
  - destruct (GCP.fetchSecretFromGCP p _); simpl; lia.
  - destruct (GCP.fetchSecretFromGCP p _); [simpl; lia |].
    destruct (GCP.fetchSecretFromGCP p _); simpl; lia.
Qed.

Lemma aws_get_reads (p : AWS.Provider) (now later : Z) (key : string)
    (cache : gmap string CacheEntry) :
  length (fetched (AWS.get p now later key cache)) <= 2.
Proof.
  unfold AWS.get. destruct (AWS.getFromCache now key cache) as [[cached|] cache1];
    simpl; [lia |].
  destruct (AWS.fetchSecretFromAWS p _); [simpl; lia |].
  destruct (AWS.fetchSecretFromAWS p _); simpl; lia.
Qed.

Lemma azure_get_reads (p : Azure.Provider) (now later : Z) (key : string)
    (cache : gmap string CacheEntry) :
  length (fetched (Azure.get p now later key cache)) <= 2.
Proof.
  unfold Azure.get. destruct (Azure.getFromCache now key cache) as [[cached|] cache1];
    simpl; [lia |].
  destruct (Azure.fetchSecretFromAzure p _); [simpl; lia |].
  destruct (Azure.fetchSecretFromAzure p _); simpl; lia.
Qed.

(** X5. [get] reads the store at most twice, service scope before shared
    scope, and a value found in the service scope ends the lookup. *)
Theorem get_reads_at_most_two_scopes :
  (forall (p : GCP.Provider) now later key cache,
      length (fetched (GCP.get p now later key cache)) <= 2)
  /\ (forall (p : AWS.Provider) now later key cache,
         length (fetched (AWS.get p now later key cache)) <= 2)
  /\ (forall (p : Azure.Provider) now later key cache,
         length (fetched (Azure.get p now later key cache)) <= 2)
  /\ (forall (p : AWS.Provider) now later key cache v,
         fst (AWS.getFromCache now key cache) = None ->
         AWS.fetchSecretFromAWS p (AWS.buildSecretName p key (serviceName (AWS.config p)))
         = Some v ->
         found (AWS.get p now later key cache) = Some v
         /\ fetched (AWS.get p now later key cache)
            = [AWS.buildSecretName p key (serviceName (AWS.config p))])
  /\ (forall (p : Azure.Provider) now later key cache v,
         fst (Azure.getFromCache now key cache) = None ->
         Azure.fetchSecretFromAzure p
           (Azure.buildSecretName p key (serviceName (Azure.config p))) = Some v ->
         found (Azure.get p now later key cache) = Some v
         /\ fetched (Azure.get p now later key cache)
            = [Azure.buildSecretName p key (serviceName (Azure.config p))])
  /\ (forall (p : GCP.Provider) now later key cache v,
         key <> "API_KEY" ->
         fst (GCP.getFromCache now key cache) = None ->
         GCP.fetchSecretFromGCP p (GCP.buildSecretName p key (serviceName (GCP.config p)))
         = Some v ->
         found (GCP.get p now later key cache) = Some v
         /\ fetched (GCP.get p now later key cache)
            = [GCP.buildSecretName p key (serviceName (GCP.config p))]).
Proof.
  split; [exact gcp_get_reads |].
  split; [exact aws_get_reads |].
  split; [exact azure_get_reads |].
  split.
  { intros p now later key cache v Hmiss Hv. unfold AWS.get.
    destruct (AWS.getFromCache now key cache) as [[cached|] cache1];
      simpl in *; [discriminate |]. now rewrite Hv. }
  split.
  { intros p now later key cache v Hmiss Hv. unfold Azure.get.
    destruct (Azure.getFromCache now key cache) as [[cached|] cache1];
      simpl in *; [discriminate |]. now rewrite Hv. }
  intros p now later key cache v Hkey Hmiss Hv. unfold GCP.get.
  destruct (GCP.getFromCache now key cache) as [[cached|] cache1];
    simpl in *; [discriminate |].
  apply String.eqb_neq in Hkey. now rewrite Hkey, Hv.
Qed.

(** The service-scoped value is found at once (the test "should get
    service-scoped secret"). *)
Lemma get_reads_service_scope_example :
  found (AWS.get
           (Fixtures.awsWith
              (Fixtures.storeOf [("testproject-test-service-DATABASE_URL", "service-value")]))
           0 0 "DATABASE_URL" ∅) = Some "service-value"
  /\ fetched (AWS.get
                (Fixtures.awsWith
                   (Fixtures.storeOf [("testproject-test-service-DATABASE_URL", "service-value")]))
                0 0 "DATABASE_URL" ∅)
     = ["testproject-test-service-DATABASE_URL"].
Proof.
  apply (proj1 (proj2 (proj2 (proj2 get_reads_at_most_two_scopes)))
           (Fixtures.awsWith
              (Fixtures.storeOf [("testproject-test-service-DATABASE_URL", "service-value")]))
           0%Z 0%Z "DATABASE_URL" ∅ "service-value");
    reflexivity.
Defined.

Lemma aws_cache_fresh (now : Z) (key : string) (cache : gmap string CacheEntry)
    (entry : CacheEntry) :
  cache !! key = Some entry -> (now <= expiresAt entry)%Z ->
  AWS.getFromCache now key cache = (Some (value entry), cache).
Proof. exact (gcp_cache_fresh now key cache entry). Qed.

Lemma aws_cache_expired (now : Z) (key : string) (cache : gmap string CacheEntry)
    (entry : CacheEntry) :
  cache !! key = Some entry -> (expiresAt entry < now)%Z ->
  AWS.getFromCache now key cache = (None, delete key cache).
Proof. exact (gcp_cache_expired now key cache entry). Qed.

(** X6. A value cached by one [get] is served by the next without a store
    read until its five minutes are over, whatever the store then holds;
    after that the store is read again. *)
Theorem cached_value_served_within_ttl :
  (forall (p p' : AWS.Provider) (now later now' later' : Z) (key : string)
          (cache : gmap string CacheEntry) (v : string),
      fst (AWS.getFromCache now key cache) = None ->
      found (AWS.get p now later key cache) = Some v ->
      ((now' <= later + 300000)%Z ->
       AWS.get p' now' later' key (cacheAfter (AWS.get p now later key cache))
       = mkLookup (Some v) (cacheAfter (AWS.get p now later key cache)) [])
      /\ ((later + 300000 < now')%Z ->
          fetched (AWS.get p' now' later' key (cacheAfter (AWS.get p now later key cache)))
          <> []))
  /\ (forall (p p' : GCP.Provider) (now later now' later' : Z) (key : string)
             (cache : gmap string CacheEntry) (v : string),
         fst (GCP.getFromCache now key cache) = None ->
         found (GCP.get p now later key cache) = Some v ->
         GCP.isUrlValue v = false ->
         (now' <= later + 300000)%Z ->
         GCP.get p' now' later' key (cacheAfter (GCP.get p now later key cache))
         = mkLookup (Some v) (cacheAfter (GCP.get p now later key cache)) []).
Proof.
  split.
  - intros p p' now later now' later' key cache v Hmiss Hfound.
    pose proof (aws_get_miss p now later key cache Hmiss) as Hc. rewrite Hfound in Hc.
    assert (Hk : cacheAfter (AWS.get p now later key cache) !! key
                 = Some (mkCacheEntry v (later + CACHE_TTL_MS))).
    { rewrite Hc. apply lookup_insert_eq. }
    split; intros Hnow.
    + unfold AWS.get at 1.
      rewrite (aws_cache_fresh now' key _ _ Hk);
        [reflexivity | unfold CACHE_TTL_MS; simpl; lia].
    + unfold AWS.get at 1.
      rewrite (aws_cache_expired now' key _ _ Hk);
        [| unfold CACHE_TTL_MS; simpl; lia].
      destruct (AWS.fetchSecretFromAWS p' _); [simpl; discriminate |].
      destruct (AWS.fetchSecretFromAWS p' _); simpl; discriminate.
  - intros p p' now later now' later' key cache v Hmiss Hfound Hurl Hnow.
    pose proof (gcp_get_miss p now later key cache Hmiss) as Hc. rewrite Hfound in Hc.
    assert (Hk : cacheAfter (GCP.get p now later key cache) !! key
                 = Some (mkCacheEntry v (later + CACHE_TTL_MS))).
    { rewrite Hc. unfold GCP.setCache. rewrite Hurl. apply lookup_insert_eq. }
    unfold GCP.get at 1.
    rewrite (gcp_cache_fresh now' key _ _ Hk); [reflexivity | unfold CACHE_TTL_MS; simpl; lia].
Qed.

(** The test "should cache successful results": the second read does not
    reach the store, here one that has become unreachable. *)
Lemma cached_value_served_example :
  AWS.get (Fixtures.awsWith (fun _ => Fixtures.unreachable)) 1000 1000 "CACHED_KEY"
    (cacheAfter
       (AWS.get
          (Fixtures.awsWith
             (Fixtures.storeOf [("testproject-test-service-CACHED_KEY", "cached-value")]))
          0 0 "CACHED_KEY" ∅))
  = mkLookup (Some "cached-value")
      (cacheAfter
         (AWS.get
            (Fixtures.awsWith
               (Fixtures.storeOf [("testproject-test-service-CACHED_KEY", "cached-value")]))
            0 0 "CACHED_KEY" ∅))
      [].
Proof.
  refine (proj1 (proj1 cached_value_served_within_ttl
                  (Fixtures.awsWith
                     (Fixtures.storeOf [("testproject-test-service-CACHED_KEY", "cached-value")]))
                  (Fixtures.awsWith (fun _ => Fixtures.unreachable))
                  0%Z 0%Z 1000%Z 1000%Z "CACHED_KEY" ∅ "cached-value" _ _) _);
    first [reflexivity | (simpl; lia)].
Defined.

(** X7. A successful [set] or [remove] drops the cache entry of the key, so
    the next [get] reads the store. *)
Theorem write_invalidates_cache :
  (forall (p : GCP.Provider) key v cache,
      fst (GCP.set p key v cache) = Resolved tt -> snd (GCP.set p key v cache) !! key = None)
  /\ (forall (p : AWS.Provider) key v cache,
         fst (AWS.set p key v cache) = Resolved tt -> snd (AWS.set p key v cache) !! key = None)
  /\ (forall (p : Azure.Provider) key v cache,
         fst (Azure.set p key v cache) = Resolved tt ->
         snd (Azure.set p key v cache) !! key = None)
  /\ (forall (p : GCP.Provider) key cache,
         fst (GCP.remove p key cache) = Resolved tt ->
         snd (GCP.remove p key cache) !! key = None)
  /\ (forall (p : AWS.Provider) key cache,
         fst (AWS.remove p key cache) = Resolved tt ->
         snd (AWS.remove p key cache) !! key = None)
  /\ (forall (p : Azure.Provider) key cache,
         fst (Azure.remove p key cache) = Resolved tt ->
         snd (Azure.remove p key cache) !! key = None).
Proof.
  repeat split; intros p key;
    [ intros v cache; unfold GCP.set, GCP.invalidateCache; destruct (GCP.exists_ p key)
    | intros v cache; unfold AWS.set, AWS.invalidateCache
    | intros v cache; unfold Azure.set, Azure.invalidateCache
    | intros cache; unfold GCP.remove, GCP.invalidateCache
    | intros cache; unfold AWS.remove, AWS.invalidateCache
    | intros cache; unfold Azure.remove, Azure.invalidateCache ];
    repeat match goal with
           | |- context [match ?r with Ok _ => _ | Fail _ => _ end] => destruct r
           end; simpl; intros H; first [discriminate H | apply lookup_delete_eq].
Qed.

(** The test "should invalidate cache after set". *)
Lemma write_invalidates_cache_example :
  snd (AWS.set (Fixtures.awsWith (Fixtures.storeOf [])) "KEY" "new-value"
         {["KEY" := mkCacheEntry "old-value" 300000]}) !! "KEY" = None.
Proof.
  apply (proj1 (proj2 write_invalidates_cache) (Fixtures.awsWith (Fixtures.storeOf []))
           "KEY" "new-value" {["KEY" := mkCacheEntry "old-value" 300000]}).
  reflexivity.
Defined.

End LookupBounds.

(** * Further properties *)

(** ** What the guard accepts *)

Section GuardSoundness.
Import JS ClaimExtractor AuthGuard.

Lemma bytesEqual_eq (a b : Buffer) : bytesEqual a b = true <-> a = b.
Proof.
  revert b; induction a as [|x a IH]; intros [|y b]; simpl; try (split; [discriminate | congruence]).
  - tauto.
  - rewrite andb_true_iff, IH. split.
    + intros [Hxy ->]. apply Byte.byte_dec_bl in Hxy. now subst.
    + intros H. injection H as -> ->. split; [apply Byte.byte_dec_lb; reflexivity | reflexivity].
Qed.

(** The code of a byte of a buffer. *)

Lemma byteCode_byte_of_ascii (n : N) :
  (n < 256)%N -> byteCode (byte_of_ascii (ascii_of_N n)) = n.
Proof.
  intros H. unfold byteCode. rewrite ascii_of_byte_of_ascii. now apply N_ascii_embedding.
Qed.

Lemma N_of_ascii_lt (c : ascii) : (N_of_ascii c < 256)%N.
Proof. apply N_ascii_bounded. Qed.

Lemma encodeUnit_codes (c : ascii) :
  map byteCode (encodeUnit c)
  = if (N_of_ascii c <? 128)%N then [N_of_ascii c]
    else [(192 + N_of_ascii c / 64)%N; (128 + N_of_ascii c mod 64)%N].
Proof.
  unfold encodeUnit. pose proof (N_of_ascii_lt c) as Hlt.
  destruct (N.ltb_spec (N_of_ascii c) 128) as [H|H]; cbn [map].
  - unfold byteCode. now rewrite ascii_of_byte_of_ascii.
  - rewrite !byteCode_byte_of_ascii; [reflexivity | |].
    + pose proof (N.mod_lt (N_of_ascii c) 64). lia.
    + assert (N_of_ascii c / 64 < 4)%N by (apply N.Div0.div_lt_upper_bound; lia). lia.
Qed.

Lemma N_of_ascii_inj (c d : ascii) : N_of_ascii c = N_of_ascii d -> c = d.
Proof.
  intros H. rewrite <- (ascii_N_embedding c), <- (ascii_N_embedding d). now rewrite H.
Qed.

(** UTF-8 is a prefix code: the bytes of a string determine it. *)
Lemma Buffer_from_inj (s t : string) : Buffer_from s = Buffer_from t -> s = t.
Proof.
  unfold Buffer_from, chars.
  revert t; induction s as [|c s IH]; intros [|d t] H; cbn [list_ascii_of_string flat_map] in H.
  - reflexivity.
  - exfalso. apply (f_equal (map byteCode)) in H. rewrite map_app, encodeUnit_codes in H.
    destruct (N_of_ascii d <? 128)%N; discriminate H.
  - exfalso. apply (f_equal (map byteCode)) in H. rewrite map_app, encodeUnit_codes in H.
    destruct (N_of_ascii c <? 128)%N; discriminate H.
  - assert (Hcd : c = d /\ flat_map encodeUnit (list_ascii_of_string s)
                           = flat_map encodeUnit (list_ascii_of_string t)).
    { pose proof (f_equal (map byteCode) H) as Hc.
      rewrite !map_app, !encodeUnit_codes in Hc.
      pose proof (N_of_ascii_lt c) as Hc256. pose proof (N_of_ascii_lt d) as Hd256.
      destruct (N.ltb_spec (N_of_ascii c) 128) as [Hc128|Hc128];
        destruct (N.ltb_spec (N_of_ascii d) 128) as [Hd128|Hd128];
        cbn [app] in Hc.
      - injection Hc as Hhead _. apply N_of_ascii_inj in Hhead. subst d.
        split; [reflexivity |]. now apply app_inv_head in H.
      - injection Hc as Hhead _. exfalso.
        pose proof (N.le_0_l (N_of_ascii d / 64)). lia.
      - injection Hc as Hhead _. exfalso.
        pose proof (N.le_0_l (N_of_ascii c / 64)). lia.
      - injection Hc as Hhi Hlo _.
        assert (N_of_ascii c = N_of_ascii d).
        { rewrite (N.div_mod (N_of_ascii c) 64), (N.div_mod (N_of_ascii d) 64) by lia. lia. }
        apply N_of_ascii_inj in H0. subst d.
        split; [reflexivity |]. now apply app_inv_head in H. }
    destruct Hcd as [-> Hrest]. f_equal. now apply IH.
Qed.

(** What a passed comparison means. *)
Lemma mismatch_false (a b : Buffer) (st st' : State) :
  mismatch a b st = (Returned false, st') -> a = b.
Proof.
  destruct (Nat.eq_dec (length a) (length b)) as [H|H].
  - rewrite (mismatch_equal a b st H). intros E. injection E as E _.
    apply bytesEqual_eq. now destruct (bytesEqual a b).
  - rewrite (mismatch_unequal a b st H). discriminate.
Qed.

(** [canActivate] is the credential stage followed by the routing stage. *)

Lemma canActivate_thrown_stage (c : Collaborators) (isPublic : bool) (r : Request)
    (tr : list Event) (e : Exception) (st1 : State) :
  credentialStage c r (mkState r tr) = (Thrown e, st1) ->
  canActivate c isPublic (mkState r tr) = (Thrown e, st1).
Proof.
  intros H. unfold canActivate. unfold bind at 1. unfold getRequest at 1. cbn [request].
  unfold bind at 1. fold (credentialStage c r). now rewrite H.
Qed.

Lemma canActivate_public (c : Collaborators) (r : Request) (tr : list Event) :
  canActivate c true (mkState r tr)
  = match credentialStage c r (mkState r tr) with
    | (Returned _, st1) => (Returned true, st1)
    | (Thrown e, st1) => (Thrown e, st1)
    end.
Proof.
  unfold canActivate. unfold bind at 1. unfold getRequest at 1. cbn [request].
  unfold bind at 1. fold (credentialStage c r).
  destruct (credentialStage c r (mkState r tr)) as [[u|e] st1]; reflexivity.
Qed.

Lemma canActivate_returned_stage (c : Collaborators) (isPublic : bool) (r : Request)
    (tr : list Event) (b : bool) (st' : State) :
  canActivate c isPublic (mkState r tr) = (Returned b, st') ->
  exists st1, credentialStage c r (mkState r tr) = (Returned tt, st1).
Proof.
  destruct (credentialStage c r (mkState r tr)) as [[[]|e] st1] eqn:E.
  - intros _. now exists st1.
  - rewrite (canActivate_thrown_stage c isPublic r tr e st1 E). discriminate.
Qed.

Lemma truthy_true (s : string) : s <> "" -> truthy (Some s) = true.
Proof. destruct s; [congruence | reflexivity]. Qed.

Lemma truthy_false (s : string) : truthy (Some s) = false -> s = "".
Proof. destruct s; [reflexivity | discriminate]. Qed.

(** A passed trust check: the path is exempt or the header is the token. *)
Lemma verify_passed (c : Collaborators) (r : Request) (tr : list Event) (st1 : State)
    (header : string) :
  verifyKongTrustHeader c (mkState r tr) = (Returned tt, st1) ->
  objGet "x-kong-trust" (headers r) = Some header ->
  (exists p, orElse (url r) (path r) = Some p /\ bypassEligible p)
  \/ secrets_get c "KONG_TRUST_TOKEN" = Returned header.
Proof.
  intros Hrun Hh.
  destruct (truthy (orElse (url r) (path r))
            && isInfrastructurePath (default "" (orElse (url r) (path r)))) eqn:Hpath.
  - left. apply andb_true_iff in Hpath as [Ht Hi].
    apply truthy_Some in Ht as (p & Hp & _). exists p. split; [exact Hp |].
    rewrite Hp in Hi. now apply isInfrastructurePath_spec.
  - right. rewrite (verify_checked c r tr Hpath), Hh in Hrun.
    destruct (negb (truthy (Some header))); [discriminate Hrun |].
    destruct (secrets_get c "KONG_TRUST_TOKEN") as [tok|e]; [|discriminate Hrun].
    destruct (negb (truthy (Some tok))); [discriminate Hrun |].
    cbv zeta in Hrun. cbn [default] in Hrun. unfold id in Hrun.
    destruct (negb (Nat.eqb _ _)); [discriminate Hrun |].
    destruct (bytesEqual (Buffer_from header) (Buffer_from tok)) eqn:Heq;
      [|discriminate Hrun].
    apply bytesEqual_eq, Buffer_from_inj in Heq. now subst.
Qed.

(** A passed API-key check: the key is the configured one. *)
Lemma validate_passed (c : Collaborators) (apiKey : string) (r : Request)
    (tr : list Event) (b : bool) (st1 : State) :
  validateServiceApiKey c apiKey (mkState r tr) = (Returned b, st1) ->
  secrets_get c "API_KEY" = Returned apiKey.
Proof.
  rewrite validate_checked.
  destruct (secrets_get c "API_KEY") as [tok|e]; [|discriminate].
  destruct (negb (truthy (Some tok))); [discriminate |].
  cbv zeta. destruct (negb (Nat.eqb _ _)); [discriminate |].
  destruct (bytesEqual (Buffer_from apiKey) (Buffer_from tok)) eqn:Heq; [|discriminate].
  apply bytesEqual_eq, Buffer_from_inj in Heq. now subst.
Qed.

(** X8. Whatever the route, [canActivate] lets a request through only
    if the credential it presents is the configured secret, character
    for character: a request with a non-empty [x-kong-trust] header only
    if the header equals the [KONG_TRUST_TOKEN] secret (or the path is an
    infrastructure path, where the check is skipped), and a request
    without trust header but with a non-empty [x-api-key] only if the key
    equals the [API_KEY] secret. *)
Theorem accepted_credentials_match_secret
    (c : Collaborators) (isPublic : bool) (r : Request) (tr : list Event)
    (b : bool) (st' : State) :
  canActivate c isPublic (mkState r tr) = (Returned b, st') ->
  (forall header, objGet "x-kong-trust" (headers r) = Some header -> header <> "" ->
      (exists p, orElse (url r) (path r) = Some p /\ bypassEligible p)
      \/ secrets_get c "KONG_TRUST_TOKEN" = Returned header)
  /\ (truthy (objGet "x-kong-trust" (headers r)) = false ->
      forall apiKey, objGet "x-api-key" (headers r) = Some apiKey -> apiKey <> "" ->
      secrets_get c "API_KEY" = Returned apiKey).
Proof.
  intros Hrun. apply canActivate_returned_stage in Hrun as [st1 Hstage].
  unfold credentialStage in Hstage. split.
  - intros header Hh Hne. rewrite Hh, (truthy_true header Hne) in Hstage.
    now apply (verify_passed c r tr st1).
  - intros Hno apiKey Hk Hne. rewrite Hno, Hk, (truthy_true apiKey Hne) in Hstage.
    cbn [default] in Hstage. unfold id in Hstage. unfold bind in Hstage.
    destruct (validateServiceApiKey c apiKey (mkState r tr)) as [[b'|e] st2] eqn:E;
      [|discriminate Hstage].
    now apply (validate_passed c apiKey r tr b' st2).
Qed.

(** The gateway request of the guard's tests carries the configured token. *)
Lemma accepted_credentials_match_secret_example :
  (forall header,
      objGet "x-kong-trust"
        [("x-kong-trust", "test-kong-trust-token-12345"); ("x-consumer-id", "u1")]
      = Some header -> header <> "" ->
      (exists p, orElse None None = Some p /\ bypassEligible p)
      \/ secrets_get Fixtures.mockSecrets "KONG_TRUST_TOKEN" = Returned header)
  /\ (truthy (objGet "x-kong-trust"
                [("x-kong-trust", "test-kong-trust-token-12345"); ("x-consumer-id", "u1")])
      = false ->
      forall apiKey,
        objGet "x-api-key"
          [("x-kong-trust", "test-kong-trust-token-12345"); ("x-consumer-id", "u1")]
        = Some apiKey -> apiKey <> "" ->
        secrets_get Fixtures.mockSecrets "API_KEY" = Returned apiKey).
Proof.
  apply (accepted_credentials_match_secret Fixtures.mockSecrets false
           (mkRequest None None
              [("x-kong-trust", "test-kong-trust-token-12345"); ("x-consumer-id", "u1")]
              None None) [] true
           (snd (canActivate Fixtures.mockSecrets false
                   (Fixtures.requestWith
                      [("x-kong-trust", "test-kong-trust-token-12345");
                       ("x-consumer-id", "u1")])))).
  vm_compute. reflexivity.
Defined.

Lemma validate_keeps_user (c : Collaborators) (apiKey : string) (r : Request)
    (tr : list Event) :
  user (request (snd (validateServiceApiKey c apiKey (mkState r tr)))) = user r.
Proof.
  rewrite validate_checked. cbv zeta.
  repeat match goal with
         | |- context [if ?b then _ else _] => destruct b
         | |- context [match secrets_get c ?k with _ => _ end] => destruct (secrets_get c k)
         end; reflexivity.
Qed.

Lemma credentialStage_keeps_user (c : Collaborators) (r : Request) (tr : list Event) :
  user (request (snd (credentialStage c r (mkState r tr)))) = user r.
Proof.
  unfold credentialStage.
  destruct (truthy (objGet "x-kong-trust" (headers r))).
  - now rewrite verify_keeps_request.
  - destruct (truthy (objGet "x-api-key" (headers r))); [|reflexivity].
    unfold bind.
    pose proof (validate_keeps_user c (default "" (objGet "x-api-key" (headers r))) r tr) as H.
    destruct (validateServiceApiKey c _ (mkState r tr)) as [[b|e] st1]; exact H.
Qed.

(** X9. [@Public()] opens the route, not the credential check.  On a
    public route a request that presents neither trust header nor API
    key is let in untouched and no secret is read; a request that does
    present one is still checked: a trust header that differs from the
    token (on a path that is not an infrastructure path) is refused with
    "Unauthorized request", a direct API key that differs from the
    configured key with "Invalid API key".  A public route never sets
    [request.user]. *)
Theorem public_route_still_checks_credentials :
  (forall (c : Collaborators) (r : Request) (tr : list Event),
      truthy (objGet "x-kong-trust" (headers r)) = false ->
      truthy (objGet "x-api-key" (headers r)) = false ->
      canActivate c true (mkState r tr) = (Returned true, mkState r tr))
  /\ (forall (c : Collaborators) (r : Request) (tr : list Event) (header token : string),
         truthy (orElse (url r) (path r))
         && isInfrastructurePath (default "" (orElse (url r) (path r))) = false ->
         objGet "x-kong-trust" (headers r) = Some header -> header <> "" ->
         secrets_get c "KONG_TRUST_TOKEN" = Returned token -> token <> "" ->
         header <> token ->
         fst (canActivate c true (mkState r tr))
         = Thrown (UnauthorizedException "Unauthorized request"))
  /\ (forall (c : Collaborators) (r : Request) (tr : list Event) (apiKey token : string),
         truthy (objGet "x-kong-trust" (headers r)) = false ->
         objGet "x-api-key" (headers r) = Some apiKey -> apiKey <> "" ->
         secrets_get c "API_KEY" = Returned token -> token <> "" ->
         apiKey <> token ->
         fst (canActivate c true (mkState r tr))
         = Thrown (ForbiddenException "Invalid API key"))
  /\ (forall (c : Collaborators) (r : Request) (tr : list Event),
         user (request (snd (canActivate c true (mkState r tr)))) = user r).
Proof.
  split; [|split; [|split]].
  - intros c r tr Ht Hk. rewrite canActivate_public. unfold credentialStage.
    now rewrite Ht, Hk.
  - intros c r tr header token Hpath Hh Hne Hs Htne Hdiff.
    rewrite canActivate_public. unfold credentialStage.
    rewrite Hh, (truthy_true header Hne), (verify_checked c r tr Hpath), Hh, Hs,
      (truthy_true header Hne), (truthy_true token Htne).
    cbn [negb default]. unfold id. cbv zeta.
    destruct (negb (Nat.eqb _ _)); [reflexivity |].
    destruct (bytesEqual (Buffer_from header) (Buffer_from token)) eqn:Heq; [|reflexivity].
    apply bytesEqual_eq, Buffer_from_inj in Heq. contradiction.
  - intros c r tr apiKey token Ht Hk Hne Hs Htne Hdiff.
    rewrite canActivate_public. unfold credentialStage.
    rewrite Ht, Hk, (truthy_true apiKey Hne). cbn [default]. unfold id. unfold bind.
    rewrite validate_checked, Hs, (truthy_true token Htne). cbn [negb]. cbv zeta.
    destruct (negb (Nat.eqb _ _)); [reflexivity |].
    destruct (bytesEqual (Buffer_from apiKey) (Buffer_from token)) eqn:Heq; [|reflexivity].
    apply bytesEqual_eq, Buffer_from_inj in Heq. contradiction.
  - intros c r tr. rewrite canActivate_public.
    pose proof (credentialStage_keeps_user c r tr) as H.
    destruct (credentialStage c r (mkState r tr)) as [[u|e] st1]; exact H.
Qed.

End GuardSoundness.

(** ** Valid credentials are accepted *)

Section GuardCompleteness.
Import JS ClaimExtractor AuthGuard.

Lemma bytesEqual_refl (a : Buffer) : bytesEqual a a = true.
Proof. now apply bytesEqual_eq. Qed.

(** The credential stage of a gateway request whose trust header is the
    configured token. *)
Lemma verify_accepts (c : Collaborators) (r : Request) (tr : list Event) (t : string) :
  objGet "x-kong-trust" (headers r) = Some t -> t <> "" ->
  secrets_get c "KONG_TRUST_TOKEN" = Returned t ->
  exists tr', verifyKongTrustHeader c (mkState r tr) = (Returned tt, mkState r tr').
Proof.
  intros Hh Hne Hs.
  destruct (truthy (orElse (url r) (path r))
            && isInfrastructurePath (default "" (orElse (url r) (path r)))) eqn:Hpath.
  - exists tr. unfold verifyKongTrustHeader, bind, getRequest. cbn [request].
    now rewrite Hpath.
  - eexists. rewrite (verify_checked c r tr Hpath), Hh, Hs.
    rewrite (truthy_true t Hne). cbn [negb default from_option id]. cbv zeta.
    rewrite Nat.eqb_refl, bytesEqual_refl. cbn [negb]. reflexivity.
Qed.

(** X2. The guard lets the right credentials in.  A direct call (no
    trust header) whose [x-api-key] is the configured [API_KEY], with no
    identity header, is accepted with [request.service] set to the
    [x-service-name] header or ['internal'], after one secret lookup and
    one byte comparison.  A gateway request whose [x-kong-trust] is the
    configured token and that carries [x-consumer-id] is accepted with
    [request.user] set to the extracted user and [request.service]
    untouched. *)
Theorem valid_credentials_are_accepted (c : Collaborators) (r : Request)
    (tr : list Event) :
  let hs := headers r in
  (forall apiKey,
     truthy (objGet "x-kong-trust" hs) = false ->
     objGet "x-api-key" hs = Some apiKey -> apiKey <> "" ->
     secrets_get c "API_KEY" = Returned apiKey ->
     truthy (objGet CONSUMER_ID hs) || truthy (objGet CONSUMER_USERNAME hs)
     || truthy (objGet CREDENTIAL_IDENTIFIER hs) || truthy (objGet USERINFO hs) = false ->
     canActivate c false (mkState r tr)
     = (Returned true,
        mkState
          (mkRequest (url r) (path r) hs (user r)
             (Some (default "internal" (orElse (objGet "x-service-name" hs) None))))
          (tr ++ [SecretsGet "API_KEY";
                  TimingSafeEqual (Buffer_from apiKey) (Buffer_from apiKey)])))
  /\ (forall token consumerId,
        objGet "x-kong-trust" hs = Some token -> token <> "" ->
        secrets_get c "KONG_TRUST_TOKEN" = Returned token ->
        objGet CONSUMER_ID hs = Some consumerId -> consumerId <> "" ->
        exists tr',
          canActivate c false (mkState r tr)
          = (Returned true,
             mkState (mkRequest (url r) (path r) hs
                        (Some (extractUserFromHeaders c hs)) (service r))
                     tr')).
Proof.
  intros hs. subst hs. split.
  - intros apiKey Hk Ha Hne Hs Hid.
    unfold canActivate. unfold bind at 1. unfold getRequest at 1. cbn [request].
    unfold bind at 1. rewrite Hk, Ha, (truthy_true apiKey Hne).
    cbn [default from_option id]. unfold bind at 1.
    rewrite validate_checked, Hs, (truthy_true apiKey Hne).
    cbn [negb]. cbv zeta. rewrite Nat.eqb_refl, bytesEqual_refl. cbn [negb].
    unfold ret at 1. cbn [headers]. rewrite Hid. cbn [andb]. reflexivity.
  - intros token consumerId Hh Hne Hs Hc Hcne.
    destruct (verify_accepts c r tr token Hh Hne Hs) as (tr' & Hv).
    exists tr'.
    unfold canActivate. unfold bind at 1. unfold getRequest at 1. cbn [request].
    unfold bind at 1. rewrite Hh, (truthy_true token Hne), Hv.
    rewrite Hc, (truthy_true consumerId Hcne). cbn [orb]. reflexivity.
Qed.

(** The direct call and the gateway request of the guard's tests. *)
Lemma valid_credentials_are_accepted_example :
  canActivate Fixtures.mockSecrets false
    (mkState (mkRequest (Some "/orders") None
                [("x-api-key", "direct-service-api-key");
                 ("x-service-name", "bff-service")] None None) [])
  = (Returned true,
     mkState (mkRequest (Some "/orders") None
                [("x-api-key", "direct-service-api-key");
                 ("x-service-name", "bff-service")] None (Some "bff-service"))
       [SecretsGet "API_KEY";
        TimingSafeEqual (Buffer_from "direct-service-api-key")
                        (Buffer_from "direct-service-api-key")]).
Proof.
  refine (proj1 (valid_credentials_are_accepted Fixtures.mockSecrets
                   (mkRequest (Some "/orders") None
                      [("x-api-key", "direct-service-api-key");
                       ("x-service-name", "bff-service")] None None) [])
                "direct-service-api-key" _ _ _ _ _);
    first [reflexivity | discriminate].
Defined.

End GuardCompleteness.

(** ** The extracted user *)

Section ClaimCopyFacts.
Import JS ClaimExtractor AuthGuard.

Lemma objGet_objSet_eq {V} (name : string) (v : V) (o : Obj V) :
  objGet name (objSet name v o) = Some v.
Proof.
  induction o as [|[k w] o IH]; simpl.
  - now rewrite String.eqb_refl.
  - destruct (String.eqb k name) eqn:E; simpl; rewrite E; [reflexivity | exact IH].
Qed.

Lemma objGet_objSet_ne {V} (name other : string) (v : V) (o : Obj V) :
  name <> other -> objGet other (objSet name v o) = objGet other o.
Proof.
  intros Hne. induction o as [|[k w] o IH]; simpl.
  - apply String.eqb_neq in Hne. now rewrite Hne.
  - destruct (String.eqb k name) eqn:E; simpl.
    + apply String.eqb_eq in E. subst k. apply String.eqb_neq in Hne. now rewrite Hne.
    + destruct (String.eqb k other); [reflexivity | exact IH].
Qed.

Lemma objGet_assign_eq {V} (name : string) (v : V) (o : Obj V) :
  name <> "__proto__" -> objGet name (assign name v o) = Some v.
Proof.
  intros Hne. unfold assign. apply String.eqb_neq in Hne. rewrite Hne.
  apply objGet_objSet_eq.
Qed.

Lemma objGet_assign_ne {V} (name other : string) (v : V) (o : Obj V) :
  name <> other -> objGet other (assign name v o) = objGet other o.
Proof.
  intros Hne. unfold assign. destruct (String.eqb name "__proto__"); [reflexivity |].
  now apply objGet_objSet_ne.
Qed.

(** No assignment creates an own property [__proto__]. *)
Lemma objGet_assign_proto {V} (name : string) (v : V) (o : Obj V) :
  objGet "__proto__" (assign name v o) = objGet "__proto__" o.
Proof.
  unfold assign. destruct (String.eqb_spec name "__proto__") as [_|Hne]; [reflexivity |].
  now apply objGet_objSet_ne.
Qed.

(** Headers that do not carry the claim [name] leave the property alone. *)
Lemma copyClaimHeaders_other (name : string) (hs : Headers) (u : KongUser) :
  (forall k v, In (k, v) hs -> startsWith JWT_CLAIM_PREFIX k = true ->
               ClaimExtractor.toCamelCase (dropPrefix JWT_CLAIM_PREFIX k) <> name) ->
  objGet name (ClaimExtractor.copyClaimHeaders hs u) = objGet name u.
Proof.
  revert u; induction hs as [|[k v] hs IH]; intros u Hno;
    cbn [ClaimExtractor.copyClaimHeaders]; [reflexivity |].
  rewrite IH by (intros k' v' Hin; apply (Hno k' v'); now right).
  destruct (startsWith JWT_CLAIM_PREFIX k) eqn:Hk; [|reflexivity].
  apply objGet_assign_ne. apply (Hno k v); [now left | exact Hk].
Qed.

Lemma copyClaimHeaders_proto (hs : Headers) (u : KongUser) :
  objGet "__proto__" (ClaimExtractor.copyClaimHeaders hs u) = objGet "__proto__" u.
Proof.
  revert u; induction hs as [|[k v] hs IH]; intros u;
    cbn [ClaimExtractor.copyClaimHeaders]; [reflexivity |].
  rewrite IH. destruct (startsWith JWT_CLAIM_PREFIX k); [|reflexivity].
  apply objGet_assign_proto.
Qed.

Lemma copyClaimHeaders_last (name : string) (before after : Headers) (k v : string)
    (u : KongUser) :
  startsWith JWT_CLAIM_PREFIX k = true ->
  ClaimExtractor.toCamelCase (dropPrefix JWT_CLAIM_PREFIX k) = name ->
  name <> "__proto__" ->
  (forall k' v', In (k', v') after -> startsWith JWT_CLAIM_PREFIX k' = true ->
                 ClaimExtractor.toCamelCase (dropPrefix JWT_CLAIM_PREFIX k') <> name) ->
  objGet name (ClaimExtractor.copyClaimHeaders (before ++ (k, v) :: after) u)
  = Some (FParsed (parseHeaderValue v)).
Proof.
  intros Hk Hname Hproto Hafter. revert u; induction before as [|[k0 v0] before IH]; intros u.
  - cbn [app ClaimExtractor.copyClaimHeaders]. rewrite Hk, Hname.
    rewrite (copyClaimHeaders_other name after _ Hafter). now apply objGet_assign_eq.
  - cbn [app ClaimExtractor.copyClaimHeaders]. apply IH.
Qed.

(** A parsed header value is an object exactly when the header holds a
    comma: it is then the array of the trimmed segments. *)
Lemma parsed_isObject (v : string) :
  (hasComma v ->
   isObject (FParsed (parseHeaderValue v)) = true
   /\ parseHeaderValue v = VArray (map trim (split "," v)))
  /\ (~ hasComma v -> isObject (FParsed (parseHeaderValue v)) = false).
Proof.
  unfold parseHeaderValue, hasComma. destruct (includes "," v) eqn:Hc.
  - split; [now split |]. intros Hno. exfalso. apply Hno. now apply includes_char.
  - split; [intros H; apply includes_char in H; congruence |]. intros _.
    destruct (testDigits v); [reflexivity |].
    destruct (String.eqb v "true"); [reflexivity |].
    destruct (String.eqb v "false"); reflexivity.
Qed.

Lemma claimHeadersPrototype_other (hs : Headers) (p : Prototype UserField) :
  (forall k v, In (k, v) hs -> startsWith JWT_CLAIM_PREFIX k = true ->
               ClaimExtractor.toCamelCase (dropPrefix JWT_CLAIM_PREFIX k) = "__proto__" ->
               ~ hasComma v) ->
  ClaimExtractor.claimHeadersPrototype hs p = p.
Proof.
  revert p; induction hs as [|[k v] hs IH]; intros p Hno;
    cbn [ClaimExtractor.claimHeadersPrototype]; [reflexivity |].
  rewrite IH by (intros k' v' Hin; apply (Hno k' v'); now right).
  destruct (startsWith JWT_CLAIM_PREFIX k) eqn:Hk; [|reflexivity].
  unfold assignPrototype.
  destruct (String.eqb_spec (ClaimExtractor.toCamelCase (dropPrefix JWT_CLAIM_PREFIX k))
              "__proto__") as [Hname|Hname]; [|reflexivity].
  cbn [andb]. now rewrite (proj2 (parsed_isObject v) (Hno k v (or_introl eq_refl) Hk Hname)).
Qed.

Lemma claimHeadersPrototype_last (before after : Headers) (k v : string)
    (p : Prototype UserField) :
  startsWith JWT_CLAIM_PREFIX k = true ->
  ClaimExtractor.toCamelCase (dropPrefix JWT_CLAIM_PREFIX k) = "__proto__" ->
  hasComma v ->
  (forall k' v', In (k', v') after -> startsWith JWT_CLAIM_PREFIX k' = true ->
                 ClaimExtractor.toCamelCase (dropPrefix JWT_CLAIM_PREFIX k') = "__proto__" ->
                 ~ hasComma v') ->
  ClaimExtractor.claimHeadersPrototype (before ++ (k, v) :: after) p
  = ReplacedBy (FParsed (VArray (map trim (split "," v)))).
Proof.
  intros Hk Hname Hv Hafter. revert p; induction before as [|[k0 v0] before IH]; intros p.
  - cbn [app ClaimExtractor.claimHeadersPrototype]. rewrite Hk, Hname.
    rewrite (claimHeadersPrototype_other after _ Hafter). unfold assignPrototype.
    destruct (parsed_isObject v) as [Hobj _]. destruct (Hobj Hv) as [-> ->]. reflexivity.
  - cbn [app ClaimExtractor.claimHeadersPrototype]. apply IH.
Qed.

(** X10. What the extracted user holds.  For every name other than
    [__proto__], the own property [name] is the parsed value of the last
    [x-jwt-claim-*] header whose camel-cased claim name is [name];
    without such a header only [id] exists, and it is the
    [x-consumer-id] value.  So two headers whose names camel-case alike
    ([x-jwt-claim-tenant-id] and [x-jwt-claim-tenantId]) collide, the
    later one winning, and an [x-jwt-claim-id] header replaces the id
    taken from [x-consumer-id].  A header [x-jwt-claim-__proto__] never
    becomes an own property: when its value holds a comma, the parsed
    array becomes the prototype of the user (the last such header
    winning); otherwise it is ignored and the prototype stays
    [Object.prototype]. *)
Theorem claim_headers_last_wins :
  (forall (before after : Headers) (k v name : string),
      startsWith JWT_CLAIM_PREFIX k = true ->
      ClaimExtractor.toCamelCase (dropPrefix JWT_CLAIM_PREFIX k) = name ->
      name <> "__proto__" ->
      (forall k' v', In (k', v') after -> startsWith JWT_CLAIM_PREFIX k' = true ->
                     ClaimExtractor.toCamelCase (dropPrefix JWT_CLAIM_PREFIX k') <> name) ->
      objGet name (ClaimExtractor.extractUserFromHeaders (before ++ (k, v) :: after))
      = Some (FParsed (parseHeaderValue v)))
  /\ (forall (hs : Headers) (name : string),
         (forall k v, In (k, v) hs -> startsWith JWT_CLAIM_PREFIX k = true ->
                      ClaimExtractor.toCamelCase (dropPrefix JWT_CLAIM_PREFIX k) <> name) ->
         objGet name (ClaimExtractor.extractUserFromHeaders hs)
         = if String.eqb name "id" then Some (fieldOfText (objGet CONSUMER_ID hs)) else None)
  /\ (forall hs : Headers,
         objGet "__proto__" (ClaimExtractor.extractUserFromHeaders hs) = None)
  /\ (forall (before after : Headers) (v : string),
         (forall k' v', In (k', v') after -> startsWith JWT_CLAIM_PREFIX k' = true ->
                        ClaimExtractor.toCamelCase (dropPrefix JWT_CLAIM_PREFIX k') <> "id") ->
         objGet "id" (ClaimExtractor.extractUserFromHeaders
                        (before ++ ("x-jwt-claim-id", v) :: after))
         = Some (FParsed (parseHeaderValue v)))
  /\ (forall (before after : Headers) (k v : string),
         startsWith JWT_CLAIM_PREFIX k = true ->
         ClaimExtractor.toCamelCase (dropPrefix JWT_CLAIM_PREFIX k) = "__proto__" ->
         hasComma v ->
         (forall k' v', In (k', v') after -> startsWith JWT_CLAIM_PREFIX k' = true ->
                        ClaimExtractor.toCamelCase (dropPrefix JWT_CLAIM_PREFIX k')
                        = "__proto__" ->
                        ~ hasComma v') ->
         userPrototype (before ++ (k, v) :: after)
         = ReplacedBy (FParsed (VArray (map trim (split "," v)))))
  /\ (forall hs : Headers,
         (forall k v, In (k, v) hs -> startsWith JWT_CLAIM_PREFIX k = true ->
                      ClaimExtractor.toCamelCase (dropPrefix JWT_CLAIM_PREFIX k)
                      = "__proto__" ->
                      ~ hasComma v) ->
         userPrototype hs = ObjectPrototype)
  /\ ClaimExtractor.extractUserFromHeaders
       [("x-consumer-id", "user-123"); ("x-jwt-claim-tenant-id", "t1");
        ("x-jwt-claim-tenantId", "t2"); ("x-jwt-claim-id", "admin")]
     = [("id", FParsed (VString "admin")); ("tenantId", FParsed (VString "t2"))]
  /\ ClaimExtractor.extractUserFromHeaders
       [("x-consumer-id", "user-123"); ("x-jwt-claim-__proto__", "admin,root")]
     = [("id", FText "user-123")]
  /\ userPrototype
       [("x-consumer-id", "user-123"); ("x-jwt-claim-__proto__", "admin,root")]
     = ReplacedBy (FParsed (VArray ["admin"; "root"])).
Proof.
  split; [|split; [|split; [|split; [|split; [|split; [|split; [|split]]]]]]].
  - intros before after k v name Hk Hname Hproto Hafter.
    unfold ClaimExtractor.extractUserFromHeaders.
    now apply copyClaimHeaders_last.
  - intros hs name Hno. unfold ClaimExtractor.extractUserFromHeaders.
    rewrite (copyClaimHeaders_other name hs _ Hno). cbn [objGet].
    rewrite String.eqb_sym. reflexivity.
  - intros hs. unfold ClaimExtractor.extractUserFromHeaders.
    rewrite copyClaimHeaders_proto. reflexivity.
  - intros before after v Hafter. unfold ClaimExtractor.extractUserFromHeaders.
    apply copyClaimHeaders_last; [reflexivity | reflexivity | discriminate | exact Hafter].
  - intros before after k v Hk Hname Hv Hafter. unfold userPrototype.
    now apply claimHeadersPrototype_last.
  - intros hs Hno. unfold userPrototype. now apply claimHeadersPrototype_other.
  - reflexivity.
  - reflexivity.
  - reflexivity.
Qed.

(** Claims other than [name] leave the property alone. *)
Lemma copyClaims_other (name : string) (claims : Obj Json) (u : KongUser) :
  (forall k j, In (k, j) claims -> k = "sub" \/ k <> name) ->
  objGet name (copyClaims claims u) = objGet name u.
Proof.
  revert u; induction claims as [|[k j] claims IH]; intros u Hno;
    cbn [copyClaims]; [reflexivity |].
  rewrite IH by (intros k' j' Hin; apply (Hno k' j'); now right).
  destruct (String.eqb_spec k "sub") as [->|Hsub]; [reflexivity |].
  apply objGet_assign_ne. destruct (Hno k j) as [H|H]; [now left | contradiction | exact H].
Qed.

Lemma copyClaims_proto (claims : Obj Json) (u : KongUser) :
  objGet "__proto__" (copyClaims claims u) = objGet "__proto__" u.
Proof.
  revert u; induction claims as [|[k j] claims IH]; intros u; cbn [copyClaims];
    [reflexivity |].
  rewrite IH. destruct (String.eqb k "sub"); [reflexivity | apply objGet_assign_proto].
Qed.

Lemma copyClaims_last (name : string) (before after : Obj Json) (j : Json)
    (u : KongUser) :
  name <> "sub" -> name <> "__proto__" ->
  (forall k' j', In (k', j') after -> k' <> name) ->
  objGet name (copyClaims (before ++ (name, j) :: after) u) = Some (FJson j).
Proof.
  intros Hsub Hproto Hafter. revert u; induction before as [|[k0 j0] before IH]; intros u.
  - cbn [app copyClaims]. apply String.eqb_neq in Hsub. rewrite Hsub.
    rewrite (copyClaims_other name after).
    + now apply objGet_assign_eq.
    + intros k' j' Hin. right. now apply (Hafter k' j').
  - cbn [app copyClaims]. apply IH.
Qed.

(** In an object, whose keys are distinct, a key is followed by other
    keys only. *)
Lemma distinct_keys_split {V} (name : string) (v : V) (o : Obj V) :
  NoDup (map fst o) -> In (name, v) o ->
  exists before after,
    o = (before ++ (name, v) :: after)%list
    /\ (forall k' v', In (k', v') after -> k' <> name).
Proof.
  intros Hnd Hin. apply in_split in Hin as (before & after & ->).
  exists before, after. split; [reflexivity |].
  intros k' v' Hin' ->. rewrite map_app in Hnd. cbn [map fst] in Hnd.
  apply NoDup_app in Hnd as (_ & _ & Hnd). apply NoDup_cons in Hnd as [Hfresh _].
  apply Hfresh. apply list_elem_of_In. apply in_map_iff. now exists (name, v').
Qed.

Lemma claimsPrototype_other (claims : Obj Json) (p : Prototype UserField) :
  (forall j, In ("__proto__", j) claims -> isObject (FJson j) = false) ->
  claimsPrototype claims p = p.
Proof.
  revert p; induction claims as [|[k j] claims IH]; intros p Hno;
    cbn [claimsPrototype]; [reflexivity |].
  rewrite IH by (intros j' Hin; apply (Hno j'); now right).
  destruct (String.eqb k "sub"); [reflexivity |]. unfold assignPrototype.
  destruct (String.eqb_spec k "__proto__") as [->|Hne]; [|reflexivity].
  cbn [andb]. now rewrite (Hno j (or_introl eq_refl)).
Qed.

Lemma claimsPrototype_last (before after : Obj Json) (j : Json)
    (p : Prototype UserField) :
  isObject (FJson j) = true ->
  (forall k' j', In (k', j') after -> k' <> "__proto__") ->
  claimsPrototype (before ++ ("__proto__", j) :: after) p = ReplacedBy (FJson j).
Proof.
  intros Hobj Hafter. revert p; induction before as [|[k0 j0] before IH]; intros p.
  - cbn [app claimsPrototype]. cbn [String.eqb Ascii.eqb Bool.eqb].
    rewrite claimsPrototype_other.
    + unfold assignPrototype. now rewrite Hobj.
    + intros j' Hin. exfalso. now apply (Hafter "__proto__" j').
  - cbn [app claimsPrototype]. apply IH.
Qed.

(** X11. The user built from a decodable [x-userinfo] header, the keys
    of the decoded object being distinct.  Every claim other than [sub]
    and [__proto__] becomes an own property with the claim's JSON value,
    unparsed; [sub] and [__proto__] are never own properties; [id] is
    the [sub] claim unless the token carries a claim named [id], which
    then replaces it; there is no other own property, so no header is
    read.  A claim named [__proto__] whose value is an object, an array
    or [null] becomes the prototype of the user, so that its members
    are read through the user without being the user's own; with any
    other value, or without such a claim, the prototype stays
    [Object.prototype]. *)
Theorem userinfo_claims_become_user
    (c : Collaborators) (hs : Headers) (blob : string) (claims : Obj Json) :
  objGet USERINFO hs = Some blob -> blob <> "" ->
  decodeUserinfo c blob = Some claims ->
  NoDup (map fst claims) ->
  let u := extractUserFromHeaders c hs in
  let p := extractUserPrototype c hs in
  u = copyClaims claims [("id", fieldOfJson (objGet "sub" claims))]
  /\ objGet "sub" u = None
  /\ objGet "__proto__" u = None
  /\ (forall name j,
         In (name, j) claims -> name <> "sub" -> name <> "__proto__" ->
         objGet name u = Some (FJson j))
  /\ ((forall j, ~ In ("id", j) claims) ->
      objGet "id" u = Some (fieldOfJson (objGet "sub" claims)))
  /\ (forall name, name <> "id" -> (forall j, ~ In (name, j) claims) ->
                   objGet name u = None)
  /\ (forall j, In ("__proto__", j) claims -> isObject (FJson j) = true ->
                p = ReplacedBy (FJson j))
  /\ ((forall j, In ("__proto__", j) claims -> isObject (FJson j) = false) ->
      p = ObjectPrototype).
Proof.
  intros Hh Hne Hdec Hnd u p.
  assert (Hu : u = copyClaims claims [("id", fieldOfJson (objGet "sub" claims))]).
  { unfold u, extractUserFromHeaders. rewrite Hh, (truthy_true blob Hne). cbn [default].
    unfold id. now rewrite Hdec. }
  assert (Hp : p = claimsPrototype claims ObjectPrototype).
  { unfold p, extractUserPrototype. rewrite Hh, (truthy_true blob Hne). cbn [default].
    unfold id. now rewrite Hdec. }
  split; [exact Hu |]. rewrite Hu, Hp.
  split; [|split; [|split; [|split; [|split; [|split]]]]].
  - rewrite copyClaims_other; [reflexivity |].
    intros k j _. destruct (String.eqb_spec k "sub"); [now left | now right].
  - rewrite copyClaims_proto. reflexivity.
  - intros name j Hin Hsub Hproto.
    destruct (distinct_keys_split name j claims Hnd Hin) as (before & after & -> & Hafter).
    now apply copyClaims_last.
  - intros Hno. rewrite copyClaims_other; [reflexivity |].
    intros k j Hin. right. intros ->. now apply (Hno j).
  - intros name Hid Hno. rewrite copyClaims_other.
    + cbn [objGet]. apply not_eq_sym, String.eqb_neq in Hid. now rewrite Hid.
    + intros k j Hin. right. intros ->. now apply (Hno j).
  - intros j Hin Hobj.
    destruct (distinct_keys_split "__proto__" j claims Hnd Hin)
      as (before & after & -> & Hafter).
    now apply claimsPrototype_last.
  - intros Hno. now apply claimsPrototype_other.
Qed.

(** A token with [sub], [email] and a [__proto__] object; the
    [x-consumer-id] header beside it is not read. *)
Lemma userinfo_claims_become_user_example :
  let claims :=
    [("sub", JString "user-123"); ("email", JString "user@example.com");
     ("__proto__", JObject [("isAdmin", JBool true)])] in
  let c := mkCollaborators (fun _ => Returned "") (fun _ => Some claims) in
  let hs := [("x-userinfo", "eyJzdWIiOiJ1c2VyLTEyMyJ9"); ("x-consumer-id", "other")] in
  extractUserFromHeaders c hs
  = [("id", FJson (JString "user-123")); ("email", FJson (JString "user@example.com"))]
  /\ extractUserPrototype c hs = ReplacedBy (FJson (JObject [("isAdmin", JBool true)])).
Proof.
  intros claims c hs.
  pose proof (userinfo_claims_become_user c hs "eyJzdWIiOiJ1c2VyLTEyMyJ9" claims
                eq_refl ltac:(discriminate) eq_refl
                ltac:(apply (bool_decide_unpack _); vm_compute; exact I)) as H.
  cbv zeta in H. destruct H as (Hu & _ & _ & _ & _ & _ & Hp & _). split.
  - exact Hu.
  - apply Hp; [right; right; left; reflexivity | reflexivity].
Defined.

End ClaimCopyFacts.

(** ** Secret names *)

Section SecretNames.
Import JS Secrets.

Lemma substring_append (a b : string) : substring (String.length a) (a +:+ b) = b.
Proof. induction a as [|c a IH]; simpl; [now destruct b | exact IH]. Qed.

Lemma substring_scope (a rest : string) :
  substring (String.length a + 1) (a +:+ "-" +:+ rest) = rest.
Proof.
  induction a as [|c a IH]; simpl; [now destruct rest | exact IH].
Qed.

Lemma startsWith_append (a b : string) : startsWith a (a +:+ b) = true.
Proof. apply startsWith_spec. now exists b. Qed.

Lemma startsWith_scope (a rest : string) :
  startsWith (a +:+ "-") (a +:+ "-" +:+ rest) = true.
Proof. apply startsWith_spec. exists rest. now rewrite append_assoc. Qed.

(** A scope prefix of a shared name: the service is called [shared] or
    its name begins with [shared-]. *)
Lemma shared_prefix (s key : string) :
  startsWith (s +:+ "-") ("shared-" +:+ key) = true ->
  s = "shared" \/ exists t, s = "shared-" +:+ t.
Proof.
  intros H.
  do 6 (destruct s as [|? s];
        [simpl in H; repeat rewrite andb_false_r in H; discriminate H |]).
  simpl in H. rewrite !andb_true_iff in H.
  destruct H as (H1 & H2 & H3 & H4 & H5 & H6 & H).
  apply Ascii.eqb_eq in H1, H2, H3, H4, H5, H6. subst.
  destruct s as [|c7 s]; [now left |].
  right. simpl in H. apply andb_true_iff in H as [H7 _]. apply Ascii.eqb_eq in H7. subst.
  now exists s.
Qed.

Lemma aws_extract_service (p : AWS.Provider) (key : string) :
  AWS.extractKeyFromSecretName p
    (AWS.buildSecretName p key (serviceName (AWS.config p))) = key.
Proof.
  unfold AWS.extractKeyFromSecretName, AWS.buildSecretName. cbv zeta.
  rewrite substring_scope, startsWith_scope. apply substring_scope.
Qed.

Lemma aws_extract_shared (p : AWS.Provider) (key : string) :
  (forall t, serviceName (AWS.config p) <> "shared-" +:+ t) ->
  AWS.extractKeyFromSecretName p (AWS.buildSecretName p key "shared") = key.
Proof.
  intros Hsvc.
  unfold AWS.extractKeyFromSecretName, AWS.buildSecretName. cbv zeta.
  rewrite substring_scope.
  destruct (startsWith (serviceName (AWS.config p) +:+ "-") ("shared" +:+ "-" +:+ key)) eqn:E.
  - apply shared_prefix in E as [E | [t E]]; [|now apply Hsvc in E].
    rewrite E. reflexivity.
  - change ("shared" +:+ "-" +:+ key) with ("shared-" +:+ key).
    rewrite startsWith_append. reflexivity.
Qed.


(** Splitting around a separator splits each side. *)
Lemma split_append (sep : ascii) (a b : string) :
  split sep (a +:+ String sep b) = (split sep a ++ split sep b)%list.
Proof.
  induction a as [|c a IH]; cbn [String.append split].
  - now rewrite Ascii.eqb_refl.
  - rewrite IH. destruct (Ascii.eqb c sep); [reflexivity |].
    pose proof (split_nonempty sep a) as Hne.
    destruct (split sep a); [congruence | reflexivity].
Qed.

Lemma split_single (sep : ascii) (s : string) :
  ~ In sep (chars s) -> split sep s = [s].
Proof.
  induction s as [|c s IH]; intros Hno; cbn [split]; [reflexivity |].
  destruct (Ascii.eqb_spec c sep) as [->|Hc]; [exfalso; apply Hno; now left |].
  rewrite IH; [reflexivity |]. intros Hin. apply Hno. now right.
Qed.

Lemma split_single_inv (sep : ascii) (s : string) :
  length (split sep s) = 1 -> ~ In sep (chars s).
Proof.
  rewrite split_length. intros H Hin.
  apply (count_occ_In ascii_dec) in Hin. lia.
Qed.

Lemma join_cons (sep : ascii) (seg : string) (segs : list string) :
  segs <> [] -> join sep (seg :: segs) = seg +:+ String sep (join sep segs).
Proof. destruct segs; [congruence | reflexivity]. Qed.

Lemma length_append (a b : string) :
  String.length (a +:+ b) = String.length a + String.length b.
Proof. induction a as [|c a IH]; simpl; [reflexivity | now rewrite IH]. Qed.

(** Segments in front of a joined list make the result longer. *)
Lemma join_longer (sep : ascii) (front segs : list string) :
  front <> [] -> segs <> [] ->
  String.length (join sep segs) < String.length (join sep (front ++ segs)).
Proof.
  intros Hf Hs. induction front as [|seg front IH]; [congruence |].
  cbn [app]. rewrite join_cons by (destruct front; [exact Hs | discriminate]).
  rewrite length_append. cbn [String.length].
  destruct front as [|seg' front]; [cbn [app]; lia |].
  assert (seg' :: front <> []) by discriminate. specialize (IH H). lia.
Qed.

Lemma gcp_split_name (p : GCP.Provider) (key scope : string) :
  split "-" (GCP.buildSecretName p key scope)
  = (split "-" (projectName (GCP.config p)) ++ split "-" scope ++ split "-" key)%list.
Proof.
  unfold GCP.buildSecretName.
  change (projectName (GCP.config p) +:+ "-" +:+ scope +:+ "-" +:+ key)
    with (projectName (GCP.config p) +:+ String "-" (scope +:+ String "-" key)).
  now rewrite !split_append.
Qed.

(** X13. Google Secret Manager: the key [list] reports for a secret
    named by [buildSecretName] is the key the secret was stored under if
    and only if neither the project name nor the scope contains a hyphen
    ([extractKeyFromSecretId] drops the first two hyphen-separated
    segments).  For the service [test-service] of the provider's tests
    the listed key of [API_KEY] is [service-API_KEY]. *)
Theorem gcp_listed_key_round_trip_iff (p : GCP.Provider) (key scope : string) :
  (GCP.extractKeyFromSecretId (GCP.buildSecretName p key scope) = key
   <-> ~ In "-"%char (chars (projectName (GCP.config p)))
       /\ ~ In "-"%char (chars scope))
  /\ GCP.extractKeyFromSecretId
       (GCP.buildSecretName Fixtures.gcpReadOnly "API_KEY" "test-service")
     = "service-API_KEY"
  /\ GCP.extractKeyFromSecretId
       (GCP.buildSecretName Fixtures.gcpReadOnly "DATABASE_URL" "shared")
     = "DATABASE_URL".
Proof.
  split; [|split; reflexivity].
  unfold GCP.extractKeyFromSecretId. rewrite gcp_split_name. split.
  - intros Hjoin.
    pose proof (split_nonempty "-" (projectName (GCP.config p))) as HP.
    pose proof (split_nonempty "-" scope) as HS.
    pose proof (split_nonempty "-" key) as HK.
    destruct (split "-" (projectName (GCP.config p))) as [|p1 ps] eqn:EP; [congruence |].
    destruct (split "-" scope) as [|s1 ss] eqn:ES; [congruence |].
    assert (Hlen : ps = [] /\ ss = []).
    { destruct ps as [|p2 ps].
      - destruct ss as [|s2 ss]; [now split |]. exfalso.
        cbn [app drop skipn] in Hjoin.
        pose proof (join_longer "-" (s2 :: ss) (split "-" key)) as Hlt.
        cbn [app] in Hlt. rewrite Hjoin, join_split in Hlt.
        assert (s2 :: ss <> []) by discriminate. specialize (Hlt H HK). lia.
      - exfalso. cbn [app drop skipn] in Hjoin. rewrite drop_0 in Hjoin.
        pose proof (join_longer "-" (ps ++ s1 :: ss) (split "-" key)) as Hlt.
        rewrite <- app_assoc in Hlt. cbn [app] in Hlt.
        rewrite Hjoin, join_split in Hlt.
        assert (ps ++ s1 :: ss <> []) by (destruct ps; discriminate).
        specialize (Hlt H HK). lia. }
    destruct Hlen as [-> ->].
    split; apply (split_single_inv "-"); [now rewrite EP | now rewrite ES].
  - intros [HP HS]. rewrite (split_single "-" _ HP), (split_single "-" _ HS).
    cbn [app drop skipn]. apply join_split.
Qed.

Lemma replaceAll_id (x y : ascii) (s : string) :
  ~ In x (chars s) -> replaceAll x y s = s.
Proof.
  induction s as [|c s IH]; intros Hno; cbn [replaceAll]; [reflexivity |].
  destruct (Ascii.eqb_spec c x) as [->|Hc]; [exfalso; apply Hno; now left |].
  rewrite IH; [reflexivity |]. intros Hin. apply Hno. now right.
Qed.

Lemma replaceAll_none (x y : ascii) (s : string) :
  x <> y -> ~ In x (chars (replaceAll x y s)).
Proof.
  intros Hxy. induction s as [|c s IH]; cbn [replaceAll chars list_ascii_of_string]; [tauto |].
  intros [H|H]; [|now apply IH].
  destruct (Ascii.eqb_spec c x) as [->|Hc]; congruence.
Qed.

(** Replacing [x] by [y] and then [y] by [x] turns every [y] into [x]. *)
Lemma replaceAll_back (x y : ascii) (s : string) :
  replaceAll y x (replaceAll x y s) = replaceAll y x s.
Proof.
  induction s as [|c s IH]; cbn [replaceAll]; [reflexivity |]. rewrite IH. f_equal.
  destruct (Ascii.eqb_spec c x) as [->|Hc].
  - rewrite Ascii.eqb_refl. now destruct (Ascii.eqb x y).
  - reflexivity.
Qed.

Lemma azure_extract_service (p : Azure.Provider) (key : string) :
  Azure.extractKeyFromSecretName p
    (Azure.buildSecretName p key (serviceName (Azure.config p)))
  = replaceAll "-" "_" key.
Proof.
  unfold Azure.extractKeyFromSecretName, Azure.buildSecretName. cbv zeta.
  rewrite substring_scope, startsWith_scope, substring_scope.
  unfold Azure.reverseTransformKey, Azure.transformKey. apply replaceAll_back.
Qed.


(** X12. AWS Secrets Manager: [list] and [get] agree on keys.  The key
    extracted from a service-scoped secret name is the key the name was
    built from, and so is the key extracted from a shared name unless
    the service's own name begins with [shared-]; for a service called
    [shared-db] the shared secret of key [db-URL] is listed as [URL]. *)
Theorem aws_listed_key_round_trip :
  (forall (p : AWS.Provider) (key : string),
      AWS.extractKeyFromSecretName p
        (AWS.buildSecretName p key (serviceName (AWS.config p))) = key)
  /\ (forall (p : AWS.Provider) (key : string),
         (forall t, serviceName (AWS.config p) <> "shared-" +:+ t) ->
         AWS.extractKeyFromSecretName p (AWS.buildSecretName p key "shared") = key)
  /\ (let p := AWS.mkProvider (mkConfig "testproject" "shared-db")
                 (AWS.client (Fixtures.awsWith (fun _ => Ok None))) in
      AWS.extractKeyFromSecretName p (AWS.buildSecretName p "db-URL" "shared") = "URL").
Proof.
  split; [exact aws_extract_service |]. split; [exact aws_extract_shared | reflexivity].
Qed.

(** X14. Azure Key Vault: underscores and hyphens in keys are not told
    apart.  A key and the key with its hyphens written as underscores
    name the same secret; [list] reports the key of a service-scoped
    secret with every hyphen as an underscore, so the reported key is the
    stored one if and only if the stored key has no hyphen. *)
Theorem azure_keys_modulo_hyphen :
  (forall (p : Azure.Provider) (key scope : string),
      Azure.buildSecretName p (replaceAll "-" "_" key) scope
      = Azure.buildSecretName p key scope)
  /\ (forall (p : Azure.Provider) (key : string),
         Azure.extractKeyFromSecretName p
           (Azure.buildSecretName p key (serviceName (Azure.config p)))
         = replaceAll "-" "_" key)
  /\ (forall (p : Azure.Provider) (key : string),
         Azure.extractKeyFromSecretName p
           (Azure.buildSecretName p key (serviceName (Azure.config p))) = key
         <-> ~ In "-"%char (chars key)).
Proof.
  split; [|split].
  - intros p key scope. unfold Azure.buildSecretName, Azure.transformKey.
    now rewrite replaceAll_back.
  - exact azure_extract_service.
  - intros p key. rewrite azure_extract_service. split.
    + intros H. rewrite <- H. apply replaceAll_none. discriminate.
    + apply replaceAll_id.
Qed.

End SecretNames.

(** ** The adapter, the factory and the secrets service *)

Section AdapterFacts.
Import JS ClaimExtractor Secrets.

Lemma isOk_false {A} (r : Reply A) : isOk r = false -> exists e, r = Fail e.
Proof. destruct r as [a|e]; [discriminate | intros _; now exists e]. Qed.

Lemma gcp_get_outage (p : GCP.Provider) (now later : Z) (key : string)
    (cache : gmap string CacheEntry) :
  cache !! key = None ->
  (forall name, isOk (GCP.accessSecretVersion (GCP.client p) name) = false) ->
  found (GCP.get p now later key cache) = None
  /\ cacheAfter (GCP.get p now later key cache) = cache.
Proof.
  intros Hmiss Hdown.
  assert (Hfetch : forall name, GCP.fetchSecretFromGCP p name = None).
  { intros name. destruct (isOk_false _ (Hdown (GCP.versionName p name))) as [e He].
    now apply (gcp_fetch_swallows p name e). }
  unfold GCP.get, GCP.getFromCache. rewrite Hmiss.
  destruct (String.eqb key "API_KEY"); rewrite ?Hfetch; now split.
Qed.

Lemma aws_get_outage (p : AWS.Provider) (now later : Z) (key : string)
    (cache : gmap string CacheEntry) :
  cache !! key = None ->
  (forall name, isOk (AWS.getSecretValue (AWS.client p) name) = false) ->
  found (AWS.get p now later key cache) = None
  /\ cacheAfter (AWS.get p now later key cache) = cache.
Proof.
  intros Hmiss Hdown.
  assert (Hfetch : forall name, AWS.fetchSecretFromAWS p name = None).
  { intros name. destruct (isOk_false _ (Hdown name)) as [e He].
    now apply (aws_fetch_swallows p name e). }
  unfold AWS.get, AWS.getFromCache. rewrite Hmiss. cbv zeta. rewrite !Hfetch. now split.
Qed.

Lemma azure_get_outage (p : Azure.Provider) (now later : Z) (key : string)
    (cache : gmap string CacheEntry) :
  cache !! key = None ->
  (forall name, isOk (Azure.getSecret (Azure.client p) name) = false) ->
  found (Azure.get p now later key cache) = None
  /\ cacheAfter (Azure.get p now later key cache) = cache.
Proof.
  intros Hmiss Hdown.
  assert (Hfetch : forall name, Azure.fetchSecretFromAzure p name = None).
  { intros name. destruct (isOk_false _ (Hdown name)) as [e He].
    now apply (azure_fetch_swallows p name e). }
  unfold Azure.get, Azure.getFromCache. rewrite Hmiss. cbv zeta. rewrite !Hfetch. now split.
Qed.

(** The adapter over a provider whose [get] resolves. *)
Lemma adapter_get_resolved (a : CloudAdapter.Adapter) (now later : Z) (key : string)
    (cache cache' : gmap string CacheEntry) (v : option string) :
  CloudSecretsProvider.get (CloudAdapter.cloudProvider a) now later key cache
  = (Resolved v, cache') ->
  CloudAdapter.get a now later key cache
  = (match v with
     | Some value => Resolved value
     | None => Rejected (CloudAdapter.notFound a key)
     end, cache').
Proof. intros H. unfold CloudAdapter.get. rewrite H. now destruct v. Qed.

(** X15. What [SecretsService.get] comes to over a cloud provider.  The
    adapter turns the provider's [null] into an error, and since the
    providers answer [null] for every failed read, an unreachable store
    surfaces as "not found": when the key is not cached and every read
    of the store fails, [get] rejects with
    [Secret "KEY" not found in gcp for service "SERVICE" or shared scope.]
    (and likewise [aws], [azure]) and caches nothing.  Over these three
    providers the adapter's [get] rejects with no other message; and
    whenever the provider's [get] resolves, the adapter resolves to the
    very value the provider returned, with the provider's cache, or
    rejects with the not-found message when that value is [null]. *)
Theorem adapter_reports_outage_as_not_found :
  (forall (p : GCP.Provider) (svc : string) (now later : Z) (key : string)
          (cache : gmap string CacheEntry),
      cache !! key = None ->
      (forall name, isOk (GCP.accessSecretVersion (GCP.client p) name) = false) ->
      CloudAdapter.get (CloudAdapter.mkAdapter (CloudAdapter.ofGCP p) svc)
        now later key cache
      = (Rejected ("Secret " +:+ Local.quote +:+ key +:+ Local.quote
                   +:+ " not found in gcp for service "
                   +:+ Local.quote +:+ svc +:+ Local.quote +:+ " or shared scope."),
         cache))
  /\ (forall (p : AWS.Provider) (svc : string) (now later : Z) (key : string)
             (cache : gmap string CacheEntry),
         cache !! key = None ->
         (forall name, isOk (AWS.getSecretValue (AWS.client p) name) = false) ->
         CloudAdapter.get (CloudAdapter.mkAdapter (CloudAdapter.ofAWS p) svc)
           now later key cache
         = (Rejected ("Secret " +:+ Local.quote +:+ key +:+ Local.quote
                      +:+ " not found in aws for service "
                      +:+ Local.quote +:+ svc +:+ Local.quote +:+ " or shared scope."),
            cache))
  /\ (forall (p : Azure.Provider) (svc : string) (now later : Z) (key : string)
             (cache : gmap string CacheEntry),
         cache !! key = None ->
         (forall name, isOk (Azure.getSecret (Azure.client p) name) = false) ->
         CloudAdapter.get (CloudAdapter.mkAdapter (CloudAdapter.ofAzure p) svc)
           now later key cache
         = (Rejected ("Secret " +:+ Local.quote +:+ key +:+ Local.quote
                      +:+ " not found in azure for service "
                      +:+ Local.quote +:+ svc +:+ Local.quote +:+ " or shared scope."),
            cache))
  /\ (forall (c : ProviderFactory.Cloud) (svc : string) (now later : Z) (key : string)
             (cache : gmap string CacheEntry) (message : string),
         fst (CloudAdapter.get (SecretsService.adapt c svc) now later key cache)
         = Rejected message ->
         message = CloudAdapter.notFound (SecretsService.adapt c svc) key)
  /\ (forall (a : CloudAdapter.Adapter) (now later : Z) (key : string)
             (cache cache' : gmap string CacheEntry) (v : option string),
         CloudSecretsProvider.get (CloudAdapter.cloudProvider a) now later key cache
         = (Resolved v, cache') ->
         CloudAdapter.get a now later key cache
         = (match v with
            | Some value => Resolved value
            | None => Rejected (CloudAdapter.notFound a key)
            end, cache'))
  /\ (forall (c : ProviderFactory.Cloud) (svc : string) (now later : Z) (key : string)
             (cache : gmap string CacheEntry) (value : string),
         fst (CloudAdapter.get (SecretsService.adapt c svc) now later key cache)
         = Resolved value
         <-> fst (CloudSecretsProvider.get
                    (CloudAdapter.cloudProvider (SecretsService.adapt c svc))
                    now later key cache)
             = Resolved (Some value)).
Proof.
  split; [|split; [|split; [|split; [|split]]]].
  - intros p svc now later key cache Hmiss Hdown.
    destruct (gcp_get_outage p now later key cache Hmiss Hdown) as [Hf Hc].
    rewrite (adapter_get_resolved _ now later key cache cache None).
    + unfold CloudAdapter.notFound. cbn [CloudAdapter.cloudProvider CloudAdapter.serviceName
        CloudAdapter.ofGCP CloudSecretsProvider.getProviderName].
      reflexivity.
    + cbn [CloudAdapter.cloudProvider CloudAdapter.ofGCP CloudSecretsProvider.get].
      cbv zeta. now rewrite Hf, Hc.
  - intros p svc now later key cache Hmiss Hdown.
    destruct (aws_get_outage p now later key cache Hmiss Hdown) as [Hf Hc].
    rewrite (adapter_get_resolved _ now later key cache cache None).
    + unfold CloudAdapter.notFound. cbn [CloudAdapter.cloudProvider CloudAdapter.serviceName
        CloudAdapter.ofAWS CloudSecretsProvider.getProviderName].
      reflexivity.
    + cbn [CloudAdapter.cloudProvider CloudAdapter.ofAWS CloudSecretsProvider.get].
      cbv zeta. now rewrite Hf, Hc.
  - intros p svc now later key cache Hmiss Hdown.
    destruct (azure_get_outage p now later key cache Hmiss Hdown) as [Hf Hc].
    rewrite (adapter_get_resolved _ now later key cache cache None).
    + unfold CloudAdapter.notFound. cbn [CloudAdapter.cloudProvider CloudAdapter.serviceName
        CloudAdapter.ofAzure CloudSecretsProvider.getProviderName].
      reflexivity.
    + cbn [CloudAdapter.cloudProvider CloudAdapter.ofAzure CloudSecretsProvider.get].
      cbv zeta. now rewrite Hf, Hc.
  - intros c svc now later key cache message.
    unfold CloudAdapter.get.
    destruct c as [p|p|p]; cbn [SecretsService.adapt CloudAdapter.cloudProvider
      CloudAdapter.ofGCP CloudAdapter.ofAWS CloudAdapter.ofAzure CloudSecretsProvider.get];
      cbv zeta;
      match goal with
      | |- context [found ?l] => destruct (found l)
      end; cbn [fst]; intros H; first [discriminate H | now injection H as <-].
  - exact adapter_get_resolved.
  - intros c svc now later key cache value. unfold CloudAdapter.get.
    destruct (CloudSecretsProvider.get _ now later key cache) as [[[v|]|m] cache'];
      cbn [fst]; split; intros H; first [discriminate H | injection H as <-; reflexivity].
Qed.

(** The keys [getAllFrom] adds come from the list it walks. *)
Lemma getAllFrom_keys (a : CloudAdapter.Adapter) (clock : nat -> Z * Z) (i : nat)
    (keys : list string) (result : Obj string) (cache : gmap string CacheEntry)
    (k v : string) :
  objGet k (fst (CloudAdapter.getAllFrom a clock i keys result cache)) = Some v ->
  In k keys \/ objGet k result = Some v.
Proof.
  revert i result cache; induction keys as [|key rest IH]; intros i result cache;
    cbn [CloudAdapter.getAllFrom].
  - intros H. now right.
  - destruct (CloudSecretsProvider.get _ _ _ key cache) as [[[value|]|message] cache'];
      intros H; apply IH in H as [H|H]; try (left; now right); try (now right).
    destruct (String.eqb_spec key k) as [->|Hne]; [left; now left |].
    right. now rewrite objGet_assign_ne in H.
Qed.

Lemma getAllFrom_length (a : CloudAdapter.Adapter) (clock : nat -> Z * Z) (i : nat)
    (keys : list string) (result : Obj string) (cache : gmap string CacheEntry) :
  length (fst (CloudAdapter.getAllFrom a clock i keys result cache))
  <= length result + length keys.
Proof.
  revert i result cache; induction keys as [|key rest IH]; intros i result cache;
    cbn [CloudAdapter.getAllFrom length fst]; [lia |].
  assert (Hset : forall (value : string) (o : Obj string),
             length (assign key value o) <= S (length o)).
  { intros value o. unfold assign. destruct (String.eqb key "__proto__"); [lia |].
    induction o as [|[k w] o IHo]; cbn [objSet length]; [lia |].
    destruct (String.eqb k key); cbn [length]; lia. }
  destruct (CloudSecretsProvider.get _ _ _ key cache) as [[[value|]|message] cache'].
  - specialize (IH (S i) (assign key value result) cache'). specialize (Hset value result). lia.
  - specialize (IH (S i) result cache'). lia.
  - specialize (IH (S i) result cache'). lia.
Qed.

(** X16. [getAll] of the adapter: it rejects exactly when the provider's
    [list] rejects, with the provider's message and the cache untouched;
    otherwise it resolves, whatever the individual reads do, to an
    object with at most one property per listed key, every property
    name being a listed key. *)
Theorem adapter_getAll_lists_then_reads
    (a : CloudAdapter.Adapter) (clock : nat -> Z * Z) (cache : gmap string CacheEntry) :
  (forall message,
      CloudSecretsProvider.list (CloudAdapter.cloudProvider a) = Rejected message ->
      CloudAdapter.getAll a clock cache = (Rejected message, cache))
  /\ (forall keys,
         CloudSecretsProvider.list (CloudAdapter.cloudProvider a) = Resolved keys ->
         exists result cache',
           CloudAdapter.getAll a clock cache = (Resolved result, cache')
           /\ (forall k v, objGet k result = Some v -> In k keys)
           /\ length result <= length keys).
Proof.
  split.
  - intros message H. unfold CloudAdapter.getAll. now rewrite H.
  - intros keys H. unfold CloudAdapter.getAll. rewrite H.
    pose proof (getAllFrom_keys a clock 0 keys [] cache) as Hkeys.
    pose proof (getAllFrom_length a clock 0 keys [] cache) as Hlen.
    destruct (CloudAdapter.getAllFrom a clock 0 keys [] cache) as [result cache'].
    exists result, cache'. split; [reflexivity |]. split.
    + intros k v Hk. destruct (Hkeys k v Hk) as [Hin|Hnil]; [exact Hin | discriminate Hnil].
    + exact Hlen.
Qed.

End AdapterFacts.

Section FactoryFacts.
Import JS Secrets ProviderFactory.

Lemma truthy_toLowerCase (v : option string) :
  truthy (option_map toLowerCase v) = truthy v.
Proof. now destruct v as [[|c s]|]. Qed.

(** The provider type is [local] when the variable is unset, empty, or
    spells "local" in any letter case. *)
Lemma getProviderType_local (env : gmap string string) :
  getProviderType env = Resolved local
  <-> truthy (env !! "SECRETS_PROVIDER") = false
      \/ option_map toLowerCase (env !! "SECRETS_PROVIDER") = Some "local".
Proof.
  unfold getProviderType. cbv zeta. rewrite truthy_toLowerCase.
  destruct (truthy (env !! "SECRETS_PROVIDER")) eqn:Ht; cbn [negb].
  - destruct (option_map toLowerCase (env !! "SECRETS_PROVIDER")) as [given|] eqn:Hg.
    + cbn [default]. unfold id.
      destruct (String.eqb_spec given "local") as [->|Hne].
      * split; [intros _; now right | reflexivity].
      * split.
        -- repeat match goal with
                  | |- context [if ?b then _ else _] => destruct b
                  end; discriminate.
        -- intros [H|H]; [discriminate H | congruence].
    + destruct (env !! "SECRETS_PROVIDER"); discriminate.
  - split; [intros _; now left | reflexivity].
Qed.

Lemma getProviderType_cloud (env : gmap string string) (t : SecretsProviderType) :
  t <> local ->
  option_map toLowerCase (env !! "SECRETS_PROVIDER") = Some (name t) ->
  getProviderType env = Resolved t.
Proof.
  intros Ht Hg. unfold getProviderType. cbv zeta. rewrite Hg.
  destruct t; [congruence | reflexivity | reflexivity | reflexivity].
Qed.

Lemma createProvider_null (env : gmap string string) (svc : string) (sdk : Sdk) :
  createProvider env svc sdk = Resolved None <-> getProviderType env = Resolved local.
Proof.
  unfold createProvider.
  destruct (getProviderType env) as [[]|message]; try tauto;
    (split; [|discriminate]);
    destruct (getProjectName env) as [pn|m]; try discriminate;
    destruct (validateProviderEnvVars env _) as [[]|m]; try discriminate;
    cbv zeta;
    repeat match goal with
           | |- context [match ?x with _ => _ end] => destruct x
           end; discriminate.
Qed.

Lemma validate_passes (env : gmap string string) (t : SecretsProviderType) :
  missing env t = [] -> validateProviderEnvVars env t = Resolved tt.
Proof. intros H. unfold validateProviderEnvVars. now rewrite H. Qed.

Lemma getProjectName_set (env : gmap string string) (pn : string) :
  env !! "PROJECT_NAME" = Some pn -> pn <> "" -> getProjectName env = Resolved pn.
Proof.
  intros H Hne. unfold getProjectName. cbv zeta. now rewrite H, (truthy_true pn Hne).
Qed.

Lemma need_nil (b : bool) (v : string) (rest : list string) :
  ((if b then [v] else []) ++ rest)%list = [] -> b = false /\ rest = [].
Proof. destruct b; [discriminate | now split]. Qed.

(** X17. The factory and the constructors agree on what the
    environment must hold.  [createProvider] returns [null] exactly when
    [SECRETS_PROVIDER] is unset, empty, or spells "local" in any letter
    case; and whenever the provider type is a cloud one, [PROJECT_NAME]
    is set and [validateProviderEnvVars] finds nothing missing, the
    provider's constructor does not throw: [createProvider] resolves to
    the provider built from the environment. *)
Theorem factory_validated_providers_construct :
  (forall (env : gmap string string) (svc : string) (sdk : Sdk),
      createProvider env svc sdk = Resolved None
      <-> truthy (env !! "SECRETS_PROVIDER") = false
          \/ option_map toLowerCase (env !! "SECRETS_PROVIDER") = Some "local")
  /\ (forall (env : gmap string string) (svc pn : string) (sdk : Sdk),
         option_map toLowerCase (env !! "SECRETS_PROVIDER") = Some "gcp" ->
         env !! "PROJECT_NAME" = Some pn -> pn <> "" ->
         missing env gcp = [] ->
         createProvider env svc sdk
         = Resolved (Some (GCPSecretsProvider
                             (GCP.mkProvider (mkConfig pn svc)
                                (default "" (env !! "GCP_PROJECT_ID"))
                                (SecretManagerServiceClient sdk)))))
  /\ (forall (env : gmap string string) (svc pn : string) (sdk : Sdk),
         option_map toLowerCase (env !! "SECRETS_PROVIDER") = Some "aws" ->
         env !! "PROJECT_NAME" = Some pn -> pn <> "" ->
         missing env aws = [] ->
         createProvider env svc sdk
         = Resolved (Some (AWSSecretsProvider
                             (AWS.mkProvider (mkConfig pn svc)
                                (SecretsManagerClient sdk "us-east-1")))))
  /\ (forall (env : gmap string string) (svc pn : string) (sdk : Sdk),
         option_map toLowerCase (env !! "SECRETS_PROVIDER") = Some "azure" ->
         env !! "PROJECT_NAME" = Some pn -> pn <> "" ->
         missing env azure = [] ->
         createProvider env svc sdk
         = Resolved (Some (AzureSecretsProvider
                             (Azure.mkProvider (mkConfig pn svc)
                                (SecretClient sdk
                                   ("https://" +:+ default "" (env !! "AZURE_KEYVAULT_NAME")
                                    +:+ ".vault.azure.net")
                                   (default "" (env !! "AZURE_TENANT_ID"))
                                   (default "" (env !! "AZURE_CLIENT_ID"))
                                   (default "" (env !! "AZURE_CLIENT_SECRET"))))))).
Proof.
  split; [|split; [|split]].
  - intros env svc sdk. rewrite createProvider_null. apply getProviderType_local.
  - intros env svc pn sdk Hg Hpn Hne Hmiss. unfold createProvider.
    rewrite (getProviderType_cloud env gcp) by (first [discriminate | exact Hg]).
    rewrite (getProjectName_set env pn Hpn Hne), (validate_passes env gcp Hmiss). cbv zeta.
    unfold missing in Hmiss. cbv zeta in Hmiss.
    apply need_nil in Hmiss as [Hid _]. apply negb_false_iff in Hid.
    unfold GCP.new, orElse. cbv zeta. rewrite Hid. cbv iota. rewrite Hid. reflexivity.
  - intros env svc pn sdk Hg Hpn Hne Hmiss. unfold createProvider.
    rewrite (getProviderType_cloud env aws) by (first [discriminate | exact Hg]).
    rewrite (getProjectName_set env pn Hpn Hne), (validate_passes env aws Hmiss).
    reflexivity.
  - intros env svc pn sdk Hg Hpn Hne Hmiss. unfold createProvider.
    rewrite (getProviderType_cloud env azure) by (first [discriminate | exact Hg]).
    rewrite (getProjectName_set env pn Hpn Hne), (validate_passes env azure Hmiss). cbv zeta.
    unfold missing in Hmiss. cbv zeta in Hmiss.
    apply need_nil in Hmiss as [Hc Hmiss]. apply need_nil in Hmiss as [Hs Hmiss].
    apply need_nil in Hmiss as [Ht Hmiss].
    assert (Hk : negb (truthy (env !! "AZURE_KEYVAULT_NAME")) = false)
      by (destruct (negb (truthy (env !! "AZURE_KEYVAULT_NAME"))); [discriminate Hmiss | reflexivity]).
    apply negb_false_iff in Hc, Hs, Ht, Hk.
    destruct (env !! "AZURE_KEYVAULT_NAME") as [kv|] eqn:Ekv; [|discriminate Hk].
    unfold Azure.new, orElse. cbv zeta. rewrite Ekv, Hk.
    cbv beta iota delta [from_option id]. rewrite Hk, Hc, Hs, Ht.
    cbv beta iota. rewrite ?Hk. reflexivity.
Qed.

(** X18. The AWS provider the factory builds always talks to
    [us-east-1].  The factory refuses to build it unless [AWS_REGION] is
    set, yet it hands the constructor an empty [providerConfig], and the
    constructor takes the region from there: whatever [AWS_REGION]
    holds, the client is created for the default region. *)
Theorem aws_provider_region_is_default
    (env : gmap string string) (svc : string) (sdk : Sdk) (p : AWS.Provider) :
  createProvider env svc sdk = Resolved (Some (AWSSecretsProvider p)) ->
  truthy (env !! "AWS_REGION") = true
  /\ AWS.client p = SecretsManagerClient sdk "us-east-1".
Proof.
  unfold createProvider.
  destruct (getProviderType env) as [[]|m]; try discriminate;
    destruct (getProjectName env) as [pn|m]; try discriminate;
    destruct (validateProviderEnvVars env _) as [[]|m] eqn:Hv; try discriminate; cbv zeta.
  - destruct (GCP.new _ _ _ _); discriminate.
  - intros H. injection H as <-. split; [|reflexivity].
    unfold validateProviderEnvVars, missing in Hv. cbv zeta in Hv.
    destruct (truthy (env !! "AWS_REGION")); [reflexivity | discriminate Hv].
  - destruct (Azure.new _ _ _ _); discriminate.
Qed.

(** An ECS task in [eu-west-1]: the client is still created for
    [us-east-1]. *)
Lemma aws_provider_region_is_default_example :
  let env : gmap string string :=
    <["SECRETS_PROVIDER" := "aws"]>
      (<["PROJECT_NAME" := "testproject"]>
         (<["AWS_REGION" := "eu-west-1"]>
            (<["AWS_CONTAINER_CREDENTIALS_RELATIVE_URI" := "/v2/credentials/x"]> ∅))) in
  let sdk := mkSdk (GCP.client Fixtures.gcpReadOnly)
               (fun _ => AWS.client (Fixtures.awsWith (fun _ => Ok None)))
               (fun _ _ _ _ => Azure.client (Fixtures.azureWith (fun _ => Ok None))) in
  truthy (env !! "AWS_REGION") = true
  /\ AWS.client (AWS.new ∅ (mkConfig "testproject" "test-service") (SecretsManagerClient sdk))
     = SecretsManagerClient sdk "us-east-1".
Proof.
  intros env sdk.
  apply (aws_provider_region_is_default env "test-service" sdk).
  vm_compute. reflexivity.
Defined.

End FactoryFacts.

Section ServiceFacts.
Import JS Secrets ProviderFactory SecretsService.

(** X19. Which provider [SecretsService] picks.  Unlike the factory,
    which falls back to local files, the service refuses to start when
    [SECRETS_PROVIDER] is unset or empty; it uses the local file provider
    exactly when the variable spells "local" in any letter case (and the
    local provider can be built); a forced provider always wins. *)
Theorem secrets_service_provider_selection :
  (forall (L : Type) (env : gmap string string) (svc : string) (newLocal : Result L)
          (sdk : Sdk),
      truthy (env !! "SECRETS_PROVIDER") = false ->
      createProvider env svc sdk = Resolved None
      /\ detectProvider env svc newLocal sdk
         = Rejected ("SECRETS_PROVIDER environment variable is required." +:+ nl
                     +:+ "Set it to: local, aws, gcp, or azure" +:+ nl
                     +:+ "For local development, tsdevstack automatically sets this in .env file."))
  /\ (forall (L : Type) (env : gmap string string) (svc : string) (newLocal : Result L)
             (sdk : Sdk) (l : L),
         detectProvider env svc newLocal sdk = Resolved (LocalSecretsProvider l)
         <-> newLocal = Resolved l
             /\ option_map toLowerCase (env !! "SECRETS_PROVIDER") = Some "local")
  /\ (forall (L : Type) (env : gmap string string) (svc : string) (newLocal : Result L)
             (sdk : Sdk) (forced : Detected L),
         provider (Some forced) env svc newLocal sdk = Resolved forced).
Proof.
  split; [|split].
  - intros L env svc newLocal sdk Ht. split.
    + apply createProvider_null, getProviderType_local. now left.
    + unfold detectProvider. cbv zeta. now rewrite Ht.
  - intros L env svc newLocal sdk l. unfold detectProvider. cbv zeta.
    destruct (truthy (env !! "SECRETS_PROVIDER")) eqn:Ht; cbn [negb].
    + destruct (String.eqb_spec (default "" (env !! "SECRETS_PROVIDER")) "local") as [He|Hne].
      * assert (Hl : option_map toLowerCase (env !! "SECRETS_PROVIDER") = Some "local").
        { destruct (env !! "SECRETS_PROVIDER") as [v|]; [|discriminate Ht].
          cbn [default] in He. unfold id in He. now subst v. }
        destruct newLocal as [l'|m]; split.
        -- intros H. injection H as <-. now split.
        -- intros [H _]. now injection H as <-.
        -- discriminate.
        -- intros [H _]. discriminate H.
      * destruct (createProvider env svc sdk) as [[cloud|]|m] eqn:Hc.
        -- split; [discriminate |]. intros [_ Hl].
           assert (createProvider env svc sdk = Resolved None)
             by (apply createProvider_null, getProviderType_local; now right).
           congruence.
        -- apply createProvider_null, getProviderType_local in Hc as [Hc|Hc]; [congruence |].
           destruct newLocal as [l'|m]; split.
           ++ intros H. injection H as <-. now split.
           ++ intros [H _]. now injection H as <-.
           ++ discriminate.
           ++ intros [H _]. discriminate H.
        -- split; [discriminate |]. intros [_ Hl].
           assert (createProvider env svc sdk = Resolved None)
             by (apply createProvider_null, getProviderType_local; now right).
           congruence.
    + split; [discriminate |]. intros [_ Hl].
      destruct (env !! "SECRETS_PROVIDER") as [[|c v]|]; discriminate.
  - reflexivity.
Qed.

End ServiceFacts.

Section SchedulerFacts.
Import JS ClaimExtractor AuthGuard SchedulerGuard.

Lemma job_secret_accepted (secret : Outcome string) (jobSecret : option string) :
  (if negb (truthy jobSecret) then Returned false
   else
     tryCatch
       match secret with
       | Thrown e => Thrown e
       | Returned expectedSecret =>
           if negb (truthy (Some expectedSecret)) then Returned false
           else if String.eqb (default "" jobSecret) expectedSecret then Returned true
           else Returned false
       end
       (fun _ => Returned false)) = Returned true
  <-> exists s, s <> "" /\ jobSecret = Some s /\ secret = Returned s.
Proof.
  destruct (truthy jobSecret) eqn:Ht; cbn [negb].
  - apply truthy_Some in Ht as (s & -> & Hne). cbn [default]. unfold id.
    destruct secret as [expected|e]; cbn [tryCatch].
    + destruct (truthy (Some expected)) eqn:Hte; cbn [negb].
      * destruct (String.eqb_spec s expected) as [->|Hd].
        -- split; [intros _; now exists expected | reflexivity].
        -- split; [discriminate |]. intros (s' & _ & Hs & He). congruence.
      * split; [discriminate |]. intros (s' & Hne' & Hs & He).
        injection He as ->. now rewrite (truthy_true s' Hne') in Hte.
    + split; [discriminate |]. intros (s' & _ & _ & He). discriminate He.
  - split; [discriminate |]. intros (s & Hne & -> & _). now rewrite (truthy_true s Hne) in Ht.
Qed.

Lemma gcp_oidc_accepted (env : gmap string string) (c : Collaborators) (hs : Headers) :
  validateGcpOidc env c hs = Returned true
  <-> exists token serviceName serviceUrl,
        objGet "authorization" hs = Some ("Bearer " +:+ token)
        /\ env !! "SERVICE_NAME" = Some serviceName /\ serviceName <> ""
        /\ secrets_get c (urlSecretKey serviceName) = Returned serviceUrl
        /\ verifyIdToken c token serviceUrl = Returned tt.
Proof.
  unfold validateGcpOidc. cbv zeta.
  destruct (objGet "authorization" hs) as [h|] eqn:Hh; cbn [negb].
  - destruct (startsWith "Bearer " h) eqn:Hb; cbn [negb].
    + apply startsWith_spec in Hb as [token ->]. cbn [default]. unfold id.
      change (Secrets.substring 7 ("Bearer " +:+ token)) with token.
      destruct (truthy (env !! "SERVICE_NAME")) eqn:Hs; cbn [negb tryCatch].
      * apply truthy_Some in Hs as (svc & Hsvc & Hne). rewrite Hsvc. cbn [default]. unfold id.
        destruct (secrets_get c (urlSecretKey svc)) as [url|e] eqn:Hurl.
        -- destruct (verifyIdToken c token url) as [[]|e] eqn:Hv.
           ++ split; [intros _; now exists token, svc, url | reflexivity].
           ++ split; [discriminate |].
              intros (t & s & u & Ht & Hs' & _ & Hu & Hv').
              assert (token = t)
                by (apply (f_equal (fun o => Secrets.substring 7 (default "" o))) in Ht;
                    exact Ht).
              subst t. injection Hs' as <-. rewrite Hurl in Hu. injection Hu as <-.
              congruence.
        -- split; [discriminate |].
           intros (t & s & u & _ & Hs' & _ & Hu & _). injection Hs' as <-. congruence.
      * split; [discriminate |].
        intros (t & s & u & _ & Hs' & Hne & _). rewrite Hs' in Hs.
        now rewrite (truthy_true s Hne) in Hs.
    + split; [discriminate |]. intros (t & s & u & Ht & _).
      assert (Hh' : h = "Bearer " +:+ t) by congruence.
      rewrite Hh', startsWith_append in Hb. discriminate Hb.
  - split; [discriminate |]. intros (t & s & u & Ht & _). discriminate Ht.
Qed.

(** X20. The scheduler guard fails closed.  [canActivate] never throws:
    every error of the secrets service or of the token verifier becomes
    [false].  It returns [true] only in local mode, for a GCP request
    whose bearer token the verifier accepts for the audience stored
    under [SERVICE_NAME_URL], or for an AWS (Azure) request whose
    [x-job-secret] equals the non-empty [JOB_AUTH_SECRET] ([JOB_SECRET])
    secret.  [SECRETS_PROVIDER] is compared as it is: with any other
    spelling, "GCP" included, every request is refused. *)
Theorem scheduler_guard_fails_closed
    (env : gmap string string) (c : Collaborators) (hs : Headers) :
  (exists b, canActivate env c hs = Returned b)
  /\ (canActivate env c hs = Returned true
      <-> env !! "SECRETS_PROVIDER" = Some "local"
          \/ (env !! "SECRETS_PROVIDER" = Some "gcp"
              /\ exists token serviceName serviceUrl,
                   objGet "authorization" hs = Some ("Bearer " +:+ token)
                   /\ env !! "SERVICE_NAME" = Some serviceName /\ serviceName <> ""
                   /\ secrets_get c (urlSecretKey serviceName) = Returned serviceUrl
                   /\ verifyIdToken c token serviceUrl = Returned tt)
          \/ (env !! "SECRETS_PROVIDER" = Some "aws"
              /\ exists s, s <> "" /\ objGet "x-job-secret" hs = Some s
                           /\ secrets_get c "JOB_AUTH_SECRET" = Returned s)
          \/ (env !! "SECRETS_PROVIDER" = Some "azure"
              /\ exists s, s <> "" /\ objGet "x-job-secret" hs = Some s
                           /\ secrets_get c "JOB_SECRET" = Returned s))
  /\ (env !! "SECRETS_PROVIDER" <> Some "local" ->
      env !! "SECRETS_PROVIDER" <> Some "gcp" ->
      env !! "SECRETS_PROVIDER" <> Some "aws" ->
      env !! "SECRETS_PROVIDER" <> Some "azure" ->
      canActivate env c hs = Returned false).
Proof.
  split; [|split].
  - unfold canActivate. cbv zeta.
    repeat match goal with
           | |- context [decide ?P] => destruct (decide P)
           end; try (eexists; reflexivity).
    + unfold validateGcpOidc. cbv zeta.
      destruct (negb _); [eexists; reflexivity |].
      destruct (negb _); cbn [tryCatch]; [eexists; reflexivity |].
      destruct (secrets_get c _); [|eexists; reflexivity].
      destruct (verifyIdToken c _ _); eexists; reflexivity.
    + unfold validateAwsJobSecret. cbv zeta.
      destruct (negb _); [eexists; reflexivity |].
      destruct (secrets_get c _); cbn [tryCatch]; [|eexists; reflexivity].
      destruct (negb _); [eexists; reflexivity |].
      destruct (String.eqb _ _); eexists; reflexivity.
    + unfold validateAzureJobSecret. cbv zeta.
      destruct (negb _); [eexists; reflexivity |].
      destruct (secrets_get c _); cbn [tryCatch]; [|eexists; reflexivity].
      destruct (negb _); [eexists; reflexivity |].
      destruct (String.eqb _ _); eexists; reflexivity.
  - unfold canActivate. cbv zeta.
    destruct (decide (env !! "SECRETS_PROVIDER" = Some "local")) as [Hl|Hl].
    { split; [intros _; now left | reflexivity]. }
    destruct (decide (env !! "SECRETS_PROVIDER" = Some "gcp")) as [Hg|Hg].
    { rewrite gcp_oidc_accepted. split.
      - intros H. right. left. now split.
      - intros [H|[[_ H]|[[H _]|[H _]]]]; [congruence | exact H | congruence | congruence]. }
    destruct (decide (env !! "SECRETS_PROVIDER" = Some "aws")) as [Ha|Ha].
    { unfold validateAwsJobSecret. cbv zeta. rewrite job_secret_accepted. split.
      - intros H. right. right. left. now split.
      - intros [H|[[H _]|[[_ H]|[H _]]]]; [congruence | congruence | exact H | congruence]. }
    destruct (decide (env !! "SECRETS_PROVIDER" = Some "azure")) as [Hz|Hz].
    { unfold validateAzureJobSecret. cbv zeta. rewrite job_secret_accepted. split.
      - intros H. right. right. right. now split.
      - intros [H|[[H _]|[[H _]|[_ H]]]]; [congruence | congruence | congruence | exact H]. }
    split; [discriminate |].
    intros [H|[[H _]|[[H _]|[H _]]]]; congruence.
  - intros Hl Hg Ha Hz. unfold canActivate. cbv zeta.
    repeat match goal with
           | |- context [decide ?P] => destruct (decide P); [contradiction |]
           end.
    reflexivity.
Qed.

End SchedulerFacts.

(** ** Rate limiting *)

Section RateLimitFacts.
Import JS ClaimExtractor Secrets Http RateLimitGuard.

(** The window a clock reading falls in ends after the reading and at
    most one window length later. *)
Lemma window_reset (now w : Z) :
  (0 < w)%Z -> (now < (now / w + 1) * w <= now + w)%Z.
Proof.
  intros Hw. pose proof (Z.div_mod now w ltac:(lia)) as Hdm.
  pose proof (Z.mod_pos_bound now w Hw) as Hmod. nia.
Qed.

Lemma checkRateLimit_counted (redis : Redis) (now later : Z) (request : Request)
    (options : RateLimitOptions) (key : string) (n : Z) :
  let w := default (15 * 60 * 1000)%Z (windowMs options) in
  let m := default 100%Z (maxRequests options) in
  generateKey request options = Returned key ->
  incr redis (windowKey key (now / w)) = Ok n ->
  (n = 1%Z -> isOk (expire redis (windowKey key (now / w)) (ceilDiv w 1000)) = true) ->
  checkRateLimit redis now later request options
  = (Returned (mkResult (n <=? m)%Z m (Z.max 0 (m - n)) ((now / w + 1) * w)%Z n),
     if (n =? 1)%Z
     then [Incr (windowKey key (now / w));
           Expire (windowKey key (now / w)) (ceilDiv w 1000)]
     else [Incr (windowKey key (now / w))]).
Proof.
  intros w m Hkey Hincr Hexp. unfold checkRateLimit. fold w m. cbv zeta.
  rewrite Hkey, Hincr. destruct (Z.eqb_spec n 1) as [->|Hn]; [|reflexivity].
  specialize (Hexp eq_refl). destruct (expire redis _ _); [reflexivity | discriminate Hexp].
Qed.

(** X21. The fixed-window decision.  When Redis answers, the request is
    the [n]-th of its window (the counter after [incr]).  It is let in
    exactly when [n <= maxRequests]; the request then carries
    [limit = maxRequests], [remaining = maxRequests - n] and the end of
    the window as [reset], which the headers interceptor writes to
    [X-RateLimit-Limit], [X-RateLimit-Remaining], [X-RateLimit-Reset].
    Otherwise it is refused with the 429 exception, whose body reports
    [remaining = 0].  [reset] lies after the clock reading, at most one
    window length later; the counter is given its time to live only by
    the first request of the window. *)
Theorem rate_limit_window_decision
    (redis : Redis) (now later : Z) (request : Request) (options : RateLimitOptions)
    (key : string) (n : Z) :
  let w := default (15 * 60 * 1000)%Z (windowMs options) in
  let m := default 100%Z (maxRequests options) in
  let reset := ((now / w + 1) * w)%Z in
  let counter := windowKey key (now / w) in
  default false (skipIf options) = false ->
  (0 < w)%Z ->
  generateKey request options = Returned key ->
  incr redis counter = Ok n ->
  (n = 1%Z -> isOk (expire redis counter (ceilDiv w 1000)) = true) ->
  (now < reset <= now + w)%Z
  /\ snd (canActivate redis now later (Some options) request)
     = (if (n =? 1)%Z then [Incr counter; Expire counter (ceilDiv w 1000)]
        else [Incr counter])
  /\ ((n <= m)%Z ->
      let admitted :=
        mkRequest (headers request) (user request) (remoteAddress request)
          (Some (mkRateLimit m (m - n) reset)) in
      fst (canActivate redis now later (Some options) request) = (Returned true, admitted)
      /\ rateLimitHeaders admitted
         = [("X-RateLimit-Limit", numberToString m);
            ("X-RateLimit-Remaining", numberToString (m - n));
            ("X-RateLimit-Reset", numberToString reset)])
  /\ ((m < n)%Z ->
      fst (canActivate redis now later (Some options) request)
      = (Thrown (TooManyRequests
                   (default "Too many requests" (orElse (message options) None))
                   "Too Many Requests" m 0 reset),
         request)).
Proof.
  intros w m reset counter Hskip Hw Hkey Hincr Hexp.
  split; [now apply window_reset |].
  unfold canActivate. rewrite Hskip.
  rewrite (checkRateLimit_counted redis now later request options key n Hkey Hincr Hexp).
  fold w m. cbn [success result_limit result_remaining result_reset].
  split; [|split].
  - destruct (n <=? m)%Z; reflexivity.
  - intros Hle. apply Z.leb_le in Hle as Hle'. rewrite Hle'. cbn [negb fst].
    rewrite Z.max_r by lia. split; reflexivity.
  - intros Hlt. apply Z.leb_gt in Hlt as Hlt'. rewrite Hlt'. cbn [negb fst].
    rewrite Z.max_l by lia. reflexivity.
Qed.

(** The test "should attach rateLimit info to request": the third
    request of ten leaves seven. *)
Lemma rate_limit_window_decision_example :
  let redis := mkRedis (fun _ => Ok 3%Z) (fun _ _ => Ok 1%Z) in
  let options := mkOptions None (Some 10%Z) None None None None in
  let request := mkRequest [("x-forwarded-for", Text "10.0.0.1")] None None None in
  (1700000000000 < (1700000000000 / 900000 + 1) * 900000 <= 1700000000000 + 900000)%Z
  /\ snd (canActivate redis 1700000000000 1700000000001 (Some options) request)
     = [Incr "rate_limit:ip:10.0.0.1:1888888"]
  /\ ((3 <= 10)%Z ->
      let admitted :=
        mkRequest [("x-forwarded-for", Text "10.0.0.1")] None None
          (Some (mkRateLimit 10 (10 - 3) ((1700000000000 / 900000 + 1) * 900000))) in
      fst (canActivate redis 1700000000000 1700000000001 (Some options) request)
      = (Returned true, admitted)
      /\ rateLimitHeaders admitted
         = [("X-RateLimit-Limit", "10"); ("X-RateLimit-Remaining", "7");
            ("X-RateLimit-Reset", "1700000100000")])
  /\ ((10 < 3)%Z ->
      fst (canActivate redis 1700000000000 1700000000001 (Some options) request)
      = (Thrown (TooManyRequests "Too many requests" "Too Many Requests" 10 0
                   ((1700000000000 / 900000 + 1) * 900000)),
         request)).
Proof.
  intros redis options request.
  apply (rate_limit_window_decision redis 1700000000000 1700000000001 request options
           "ip:10.0.0.1" 3);
    first [reflexivity | lia | discriminate].
Defined.

(** X22. The limiter fails open.  When Redis does not answer the
    [incr], or answers the first [incr] of a window but not the [expire]
    that follows it, the request is let in as if nothing had been
    counted: [remaining] is the full [maxRequests] and [reset] is one
    window length after the clock reading taken in the [catch] block. *)
Theorem rate_limit_fails_open
    (redis : Redis) (now later : Z) (request : Request) (options : RateLimitOptions)
    (key : string) :
  let w := default (15 * 60 * 1000)%Z (windowMs options) in
  let m := default 100%Z (maxRequests options) in
  let counter := windowKey key (now / w) in
  default false (skipIf options) = false ->
  (0 < w)%Z ->
  generateKey request options = Returned key ->
  isOk (incr redis counter) = false
  \/ (incr redis counter = Ok 1%Z
      /\ isOk (expire redis counter (ceilDiv w 1000)) = false) ->
  fst (canActivate redis now later (Some options) request)
  = (Returned true,
     mkRequest (headers request) (user request) (remoteAddress request)
       (Some (mkRateLimit m m (later + w)))).
Proof.
  intros w m counter Hskip _ Hkey Hdown.
  unfold canActivate. rewrite Hskip. unfold checkRateLimit. fold w m. cbv zeta.
  rewrite Hkey. fold counter.
  destruct Hdown as [Hincr | [Hincr Hexp]].
  - destruct (incr redis counter); [discriminate Hincr | reflexivity].
  - rewrite Hincr. cbn [Z.eqb Pos.eqb].
    destruct (expire redis counter _); [discriminate Hexp | reflexivity].
Qed.

(** The test "should allow request when Redis fails". *)
Lemma rate_limit_fails_open_example :
  fst (canActivate (mkRedis (fun _ => Fixtures.unreachable) (fun _ _ => Fixtures.unreachable))
         1700000000000 1700000000005
         (Some (mkOptions None (Some 10%Z) None None None None))
         (mkRequest [] None None None))
  = (Returned true,
     mkRequest [] None None (Some (mkRateLimit 10 10 (1700000000005 + 900000)))).
Proof.
  apply (rate_limit_fails_open
           (mkRedis (fun _ => Fixtures.unreachable) (fun _ _ => Fixtures.unreachable))
           1700000000000 1700000000005 (mkRequest [] None None None)
           (mkOptions None (Some 10%Z) None None None None) "ip:unknown");
    first [reflexivity | (left; reflexivity)].
Defined.

(** *** Counter names *)

Lemma string_of_uint_digits (d : Decimal.uint) :
  ~ In ":"%char (chars (NilEmpty.string_of_uint d)).
Proof.
  induction d; cbn [NilEmpty.string_of_uint chars list_ascii_of_string In];
    try tauto; intros [H|H]; first [discriminate H | now apply IHd].
Qed.

Lemma string_of_uint_zero_digits (d : Decimal.uint) :
  ~ In ":"%char (chars (NilZero.string_of_uint d)).
Proof.
  destruct d; try exact (string_of_uint_digits _).
  cbn. intros [H|[]]. discriminate H.
Qed.

Lemma numberToString_no_colon (n : Z) : ~ In ":"%char (chars (numberToString n)).
Proof.
  unfold numberToString, NilZero.string_of_int.
  destruct (Z.to_int n) as [d|d]; [apply string_of_uint_zero_digits |].
  cbn [chars list_ascii_of_string In]. intros [H|H]; [discriminate H |].
  now apply (string_of_uint_zero_digits d).
Qed.

Lemma numberToString_inj (n n' : Z) : numberToString n = numberToString n' -> n = n'.
Proof.
  unfold numberToString. intros H. apply to_int_inj.
  assert (Hn : forall z, Z.to_int z <> Decimal.Pos Decimal.Nil /\ Z.to_int z <> Decimal.Neg Decimal.Nil).
  { intros [|p|p]; cbn [Z.to_int]; split; try discriminate;
      intros E; injection E as E;
      apply (DecimalPos.Unsigned.to_uint_nonnil p); exact E. }
  apply (f_equal NilZero.int_of_string) in H.
  rewrite !NilZero.isi in H by apply Hn. now injection H.
Qed.

(** Cutting at the last colon. *)
Lemma last_colon (a a' b b' : string) :
  ~ In ":"%char (chars b) -> ~ In ":"%char (chars b') ->
  a +:+ ":" +:+ b = a' +:+ ":" +:+ b' -> a = a' /\ b = b'.
Proof.
  intros Hb Hb'. revert a'; induction a as [|c a IH]; intros [|c' a'] H; cbn in H.
  - injection H as H. now split.
  - injection H as Hc H. exfalso. apply Hb. rewrite H, chars_app. apply in_or_app.
    right. now left.
  - injection H as Hc H. exfalso. apply Hb'. rewrite <- H, chars_app. apply in_or_app.
    right. now left.
  - injection H as -> H. destruct (IH a' H) as [-> ->]. now split.
Qed.

(** X23. Counters do not collide.  The Redis key of a counter
    determines the limited subject and the window:
    [rate_limit:KEY:WINDOW] is cut at its last colon, which the decimal
    window number cannot contain.  Without a custom generator the key
    names its kind, [api:] before a non-empty API key, [user:] before
    a non-empty user id, [ip:] otherwise, so that subjects of different
    kinds never share a counter; the [apiKey] and [userId] generators
    throw [UnauthorizedException] rather than count an anonymous
    request. *)
Theorem rate_limit_counters_do_not_collide :
  (forall (key key' : string) (window window' : Z),
      windowKey key window = windowKey key' window' -> key = key' /\ window = window')
  /\ (forall (request : Request) (options : RateLimitOptions) (key : string),
         customKeyGenerator options = None ->
         generateKey request options = Returned key ->
         match keyGenerator options with
         | Some ApiKey => exists v, v <> "" /\ key = "api:" +:+ v
         | Some UserId => exists v, v <> "" /\ key = "user:" +:+ v
         | _ => exists v, key = "ip:" +:+ v
         end)
  /\ (forall (request : Request) (options : RateLimitOptions),
         customKeyGenerator options = None ->
         keyGenerator options = Some ApiKey ->
         objGet "x-api-key" (headers request) = None ->
         generateKey request options
         = Thrown (UnauthorizedException "API key required for this endpoint"))
  /\ (forall (request : Request) (options : RateLimitOptions),
         customKeyGenerator options = None ->
         keyGenerator options = Some UserId ->
         user request = None ->
         generateKey request options
         = Thrown (UnauthorizedException "User authentication required for this endpoint")).
Proof.
  split; [|split; [|split]].
  - intros key key' window window' H. unfold windowKey in H.
    apply (f_equal (Secrets.substring 11)) in H. cbn [Secrets.substring String.append] in H.
    apply last_colon in H as [-> H]; try apply numberToString_no_colon.
    split; [reflexivity | now apply numberToString_inj].
  - intros request options key Hcustom. unfold generateKey. rewrite Hcustom. cbv zeta.
    destruct (keyGenerator options) as [[]|].
    + intros H. injection H as <-. unfold getClientIp. eexists. reflexivity.
    + destruct (truthy _) eqn:Ht; cbn [negb]; [|discriminate].
      intros H. injection H as <-. apply truthy_Some in Ht as (v & -> & Hne).
      exists v. now split.
    + destruct (truthy _) eqn:Ht; cbn [negb]; [|discriminate].
      intros H. injection H as <-. apply truthy_Some in Ht as (v & -> & Hne).
      exists v. now split.
    + intros H. injection H as <-. unfold getClientIp. eexists. reflexivity.
    + intros H. injection H as <-. unfold getClientIp. eexists. reflexivity.
  - intros request options Hcustom Hgen Hno. unfold generateKey, header.
    now rewrite Hcustom, Hgen, Hno.
  - intros request options Hcustom Hgen Hno. unfold generateKey.
    now rewrite Hcustom, Hgen, Hno.
Qed.

End RateLimitFacts.

(** ** Header forwarding *)

Section ForwardFacts.
Import JS ClaimExtractor Http ServiceClient.

(** The keys of an object after an assignment. *)
Lemma objSet_keys {V} (k : string) (v : V) (o : Obj V) :
  map fst (objSet k v o)
  = if existsb (String.eqb k) (map fst o) then map fst o else (map fst o ++ [k])%list.
Proof.
  induction o as [|[k' w] o IH]; cbn [objSet map fst existsb app]; [reflexivity |].
  rewrite (String.eqb_sym k k').
  destruct (String.eqb k' k) eqn:E; cbn [orb map fst]; [reflexivity |].
  rewrite IH. now destruct (existsb (String.eqb k) (map fst o)).
Qed.

Lemma existsb_eqb_In (k : string) (l : list string) :
  existsb (String.eqb k) l = true <-> In k l.
Proof.
  rewrite existsb_exists. split.
  - intros (x & Hin & He). apply String.eqb_eq in He. now subst.
  - intros Hin. exists k. split; [exact Hin | apply String.eqb_refl].
Qed.

Lemma objGet_None {V} (k : string) (o : Obj V) :
  objGet k o = None <-> ~ In k (map fst o).
Proof.
  induction o as [|[k' w] o IH]; cbn [objGet map fst In]; [tauto |].
  destruct (String.eqb_spec k' k) as [->|Hne].
  - split; [discriminate | intros H; exfalso; apply H; now left].
  - rewrite IH. tauto.
Qed.

Lemma objSet_fresh {V} (k : string) (v : V) (o : Obj V) :
  ~ In k (map fst o) -> objSet k v o = (o ++ [(k, v)])%list.
Proof.
  induction o as [|[k' w] o IH]; cbn [objSet map fst In app]; [reflexivity |].
  intros Hno. destruct (String.eqb_spec k' k) as [->|Hne]; [exfalso; apply Hno; now left |].
  rewrite IH; [reflexivity |]. intros Hin. apply Hno. now right.
Qed.

Lemma filterFrom_sound (entries : IncomingHttpHeaders) (result : Obj string)
    (k v : string) :
  objGet k (filterFrom entries result) = Some v ->
  objGet k result = Some v
  \/ (In (k, Text v) entries /\ skipped (toLowerCase k) = false).
Proof.
  revert result; induction entries as [|[key value] rest IH]; intros result;
    cbn [filterFrom]; [now left |].
  destruct (skipped (toLowerCase key)) eqn:Hs.
  - intros H. apply IH in H as [H|[H1 H2]]; [now left | right; split; [now right | exact H2]].
  - destruct value as [s|items|];
      intros H; apply IH in H as [H|[H1 H2]];
      try (now left); try (right; split; [now right | exact H2]).
    destruct (String.eqb_spec key k) as [->|Hne].
    + rewrite objGet_objSet_eq in H. injection H as ->. right. split; [now left | exact Hs].
    + left. now rewrite objGet_objSet_ne in H.
Qed.

Lemma filterFrom_other (entries : IncomingHttpHeaders) (result : Obj string) (k : string) :
  ~ In k (map fst entries) -> objGet k (filterFrom entries result) = objGet k result.
Proof.
  revert result; induction entries as [|[key value] rest IH]; intros result Hno;
    cbn [filterFrom]; [reflexivity |].
  cbn [map fst In] in Hno.
  assert (Hrest : ~ In k (map fst rest)) by tauto.
  assert (Hkey : key <> k) by tauto.
  destruct (skipped (toLowerCase key)); [now apply IH |].
  destruct value as [s|items|]; rewrite IH by exact Hrest; try reflexivity.
  now apply objGet_objSet_ne.
Qed.

Lemma filterFrom_complete (entries : IncomingHttpHeaders) (result : Obj string)
    (k v : string) :
  NoDup (map fst entries) -> In (k, Text v) entries ->
  skipped (toLowerCase k) = false ->
  objGet k (filterFrom entries result) = Some v.
Proof.
  revert result; induction entries as [|[key value] rest IH]; intros result Hnd Hin Hs;
    [destruct Hin |].
  cbn [map fst] in Hnd. apply NoDup_cons in Hnd as [Hfresh Hnd].
  cbn [filterFrom]. destruct Hin as [Hhead|Hin].
  - injection Hhead as -> ->. rewrite Hs.
    rewrite filterFrom_other; [apply objGet_objSet_eq |].
    intros Hin. apply Hfresh. now apply list_elem_of_In.
  - destruct (skipped (toLowerCase key)); [now apply IH |].
    destruct value as [s|items|]; now apply IH.
Qed.

(** Filtering a list of forwardable string headers with fresh names
    appends it. *)
Lemma filterFrom_forwardable (entries result : Obj string) :
  NoDup (map fst result ++ map fst entries) ->
  (forall k v, In (k, v) entries -> skipped (toLowerCase k) = false) ->
  filterFrom (map (fun '(k, v) => (k, Text v)) entries) result = (result ++ entries)%list.
Proof.
  revert result; induction entries as [|[k v] rest IH]; intros result Hnd Hok;
    cbn [map filterFrom]; [now rewrite app_nil_r |].
  rewrite (Hok k v) by now left.
  assert (Hfresh : ~ In k (map fst result)).
  { intros Hin. apply NoDup_app in Hnd as (_ & Hdis & _).
    apply (Hdis k); [now apply list_elem_of_In | cbn [map fst]; left]. }
  rewrite (objSet_fresh k v result Hfresh), IH.
  - now rewrite <- app_assoc.
  - rewrite map_app. cbn [map fst]. rewrite <- app_assoc. exact Hnd.
  - intros k' v' Hin. apply (Hok k' v'). now right.
Qed.

Lemma filterFrom_keys (entries : IncomingHttpHeaders) (result : Obj string) :
  NoDup (map fst result) -> NoDup (map fst (filterFrom entries result)).
Proof.
  revert result; induction entries as [|[key value] rest IH]; intros result Hnd;
    cbn [filterFrom]; [exact Hnd |].
  destruct (skipped (toLowerCase key)); [now apply IH |].
  destruct value as [s|items|]; try now apply IH.
  apply IH. rewrite objSet_keys.
  destruct (existsb (String.eqb key) (map fst result)) eqn:E; [exact Hnd |].
  apply NoDup_app. split; [exact Hnd |]. split; [|apply NoDup_singleton].
  intros x Hx Hx'. apply list_elem_of_In in Hx'. destruct Hx' as [<-|[]].
  apply list_elem_of_In, existsb_eqb_In in Hx. congruence.
Qed.

(** X24. [filterForwardHeaders] forwards exactly the string-valued
    headers whose lower-cased name is not on the skip list: every
    property of the result is such a header of the request with its
    value, and (header names being distinct) every such header is in the
    result.  Array-valued headers are dropped; the skip list applies
    whatever the letter case of the name ([Host], [HOST]).  Filtering is
    idempotent, so headers forwarded over several hops are the ones
    forwarded on the first. *)
Theorem filterForwardHeaders_contract (headers : IncomingHttpHeaders) :
  (forall k v, objGet k (filterForwardHeaders headers) = Some v ->
               In (k, Text v) headers /\ skipped (toLowerCase k) = false)
  /\ (NoDup (map fst headers) ->
      forall k v, In (k, Text v) headers -> skipped (toLowerCase k) = false ->
                  objGet k (filterForwardHeaders headers) = Some v)
  /\ (forall k, skipped (toLowerCase k) = true ->
                objGet k (filterForwardHeaders headers) = None)
  /\ filterForwardHeaders
       (map (fun '(k, v) => (k, Text v)) (filterForwardHeaders headers))
     = filterForwardHeaders headers
  /\ filterForwardHeaders
       [("Host", Text "internal"); ("x-consumer-id", Text "u1");
        ("set-cookie", Many ["a=1"; "b=2"]); ("TE", Text "trailers");
        ("authorization", Text "Bearer t")]
     = [("x-consumer-id", "u1"); ("authorization", "Bearer t")].
Proof.
  assert (Hsound : forall k v, objGet k (filterForwardHeaders headers) = Some v ->
                               In (k, Text v) headers /\ skipped (toLowerCase k) = false).
  { intros k v H. apply filterFrom_sound in H as [H|H]; [discriminate H | exact H]. }
  split; [exact Hsound |]. split; [|split; [|split]].
  - intros Hnd k v Hin Hs. now apply filterFrom_complete.
  - intros k Hs. destruct (objGet k (filterForwardHeaders headers)) as [v|] eqn:E;
      [|reflexivity].
    apply Hsound in E as [_ E]. congruence.
  - unfold filterForwardHeaders at 1.
    rewrite filterFrom_forwardable; [reflexivity | |].
    + cbn [map app]. apply filterFrom_keys. constructor.
    + intros k v Hin. apply (Hsound k v).
      assert (Hnd : NoDup (map fst (filterForwardHeaders headers)))
        by (apply filterFrom_keys; constructor).
      clear Hsound. induction (filterForwardHeaders headers) as [|[k' v'] o IH];
        [destruct Hin |].
      cbn [map fst] in Hnd. apply NoDup_cons in Hnd as [Hfresh Hnd].
      cbn [objGet]. destruct Hin as [Hhead|Hin].
      * injection Hhead as -> ->. now rewrite String.eqb_refl.
      * destruct (String.eqb_spec k' k) as [->|Hne]; [|now apply IH].
        exfalso. apply Hfresh. apply list_elem_of_In. apply in_map_iff.
        now exists (k, v).
  - reflexivity.
Qed.

End ForwardFacts.

(** ** Package metadata *)

Section PackageFacts.
Import JS PackageJson.

Lemma join_cons_char (sep c : ascii) (seg : string) (segs : list string) :
  join sep (String c seg :: segs) = String c (join sep (seg :: segs)).
Proof. destruct segs; reflexivity. Qed.

Lemma titleByPosition_hyphen (s : string) :
  titleByPosition (Some "-"%char) s = titleByPosition None s.
Proof. destruct s; reflexivity. Qed.

Lemma titleCase_positions (s : string) :
  join " " (map capitalize (split "-" s)) = titleByPosition None s
  /\ (forall p, p <> "-"%char ->
                join " " (hd "" (split "-" s) :: map capitalize (tl (split "-" s)))
                = titleByPosition (Some p) s).
Proof.
  induction s as [|c s [IH1 IH2]]; [split; reflexivity |].
  cbn [split]. pose proof (split_nonempty "-" s) as Hne.
  destruct (Ascii.eqb_spec c "-") as [->|Hc].
  - assert (Hmap : map capitalize (split "-" s) <> [])
      by (destruct (split "-" s); [congruence | discriminate]).
    cbn [map hd tl capitalize]. rewrite (join_cons " " "" _ Hmap), IH1.
    cbn [titleByPosition]. rewrite titleByPosition_hyphen.
    split; [reflexivity |]. intros p Hp. reflexivity.
  - destruct (split "-" s) as [|seg segs] eqn:E; [congruence |].
    cbn [map hd tl capitalize] in *. rewrite !join_cons_char.
    rewrite (IH2 c Hc). cbn [titleByPosition]. unfold titleAt.
    apply Ascii.eqb_neq in Hc as Hc'. rewrite Hc'. split; [reflexivity |].
    intros p Hp. apply Ascii.eqb_neq in Hp as Hp'. rewrite Hp'. reflexivity.
Qed.

Lemma toUpperChar_idem (c : ascii) : toUpperChar (toUpperChar c) = toUpperChar c.
Proof. destruct c as [[] [] [] [] [] [] [] []]; reflexivity. Qed.

Lemma toUpperChar_hyphen (c : ascii) : c <> "-"%char -> toUpperChar c <> "-"%char.
Proof. destruct c as [[] [] [] [] [] [] [] []]; intros H; first [discriminate | congruence]. Qed.

Lemma titleAt_hyphen (prev : option ascii) (c : ascii) : titleAt prev c <> "-"%char.
Proof.
  unfold titleAt. destruct (Ascii.eqb_spec c "-") as [->|Hc]; [discriminate |].
  destruct prev as [p|]; [destruct (Ascii.eqb p "-") |];
    first [exact Hc | now apply toUpperChar_hyphen].
Qed.

Lemma titleByPosition_no_hyphen (prev : option ascii) (s : string) :
  ~ In "-"%char (chars (titleByPosition prev s)).
Proof.
  revert prev; induction s as [|c s IH]; intros prev;
    cbn [titleByPosition chars list_ascii_of_string In]; [tauto |].
  intros [H|H]; [now apply (titleAt_hyphen prev c) | now apply (IH (Some c))].
Qed.

Lemma titleByPosition_length (prev : option ascii) (s : string) :
  String.length (titleByPosition prev s) = String.length s.
Proof.
  revert prev; induction s as [|c s IH]; intros prev; cbn; [reflexivity | now rewrite IH].
Qed.

(** A string without hyphens changes at most in its first character. *)
Lemma titleByPosition_plain (p : ascii) (s : string) :
  p <> "-"%char -> ~ In "-"%char (chars s) -> titleByPosition (Some p) s = s.
Proof.
  revert p; induction s as [|c s IH]; intros p Hp Hno; cbn [titleByPosition]; [reflexivity |].
  cbn [chars list_ascii_of_string In] in Hno.
  assert (Hc : c <> "-"%char) by (intros ->; apply Hno; now left).
  rewrite IH by tauto. unfold titleAt.
  apply Ascii.eqb_neq in Hc as Hc'. apply Ascii.eqb_neq in Hp as Hp'. now rewrite Hc', Hp'.
Qed.

(** X25. [titleCase] position by position (for names in ASCII, the
    range of the embedding's [toUpperCase]): every hyphen becomes a
    space, the first character and every character right after a hyphen
    is upper-cased, every other character is kept as it is (nothing is
    lower-cased).  The result has the length of the input and no hyphen,
    and [titleCase] is idempotent.  [extractAuthor] never returns the
    empty string. *)
Theorem titleCase_by_position (s : string) :
  isAscii s ->
  titleCase s = titleByPosition None s
  /\ String.length (titleCase s) = String.length s
  /\ ~ In "-"%char (chars (titleCase s))
  /\ titleCase (titleCase s) = titleCase s
  /\ (forall author, extractAuthor author <> "").
Proof.
  intros _.
  assert (H : titleCase s = titleByPosition None s) by apply titleCase_positions.
  split; [exact H |]. split; [|split; [|split]].
  - rewrite H. apply titleByPosition_length.
  - rewrite H. apply titleByPosition_no_hyphen.
  - assert (Hpos : forall t, titleCase t = titleByPosition None t)
      by (intros t; apply titleCase_positions).
    rewrite (Hpos (titleCase s)), H.
    destruct s as [|c s]; [reflexivity |]. cbn [titleByPosition].
    pose proof (titleByPosition_no_hyphen (Some c) s) as Hno.
    pose proof (titleAt_hyphen None c) as Hhead.
    rewrite (titleByPosition_plain _ _ Hhead Hno). f_equal.
    unfold titleAt at 1. apply Ascii.eqb_neq in Hhead as Hh. rewrite Hh.
    unfold titleAt. destruct (Ascii.eqb c "-"); [reflexivity | apply toUpperChar_idem].
  - intros [[s'|[name|]]|]; cbn [extractAuthor]; try discriminate.
    + destruct s'; cbn; discriminate.
    + unfold orElse. destruct name; cbn; discriminate.
Qed.

(** The documented example: "auth-service" gives "Auth Service". *)
Lemma titleCase_by_position_example :
  titleCase "auth-service" = "Auth Service"
  /\ String.length (titleCase "auth-service") = 12
  /\ ~ In "-"%char (chars (titleCase "auth-service"))
  /\ titleCase (titleCase "auth-service") = titleCase "auth-service"
  /\ (forall author, extractAuthor author <> "").
Proof.
  apply (titleCase_by_position "auth-service").
  unfold isAscii. repeat constructor.
Defined.

End PackageFacts.

(** ** The local provider's lookup order *)

Section LocalFacts.
Import JS Secrets Secrets.Local.

(** X26. The local provider's [get] on a cache miss, the file being
    readable: a non-empty value under the service's own section wins
    over the top-level [secrets] section; without one (no service name
    set, no such section or key, or the empty string) the non-empty
    top-level value is taken; a value found is cached for [cacheTtl]
    from the time it is stored.  When neither section has a non-empty
    value the call is rejected with the not-found message and nothing
    is cached.  In every case the provider keeps the file it has just
    read. *)
Theorem local_get_lookup_order (p : Provider)
    (file : gmap string (gmap string string)) (now later : Z) (key : string)
    (st : State) :
  cache st !! key = None ->
  let own :=
    if truthy (serviceName st) then scoped file (default "" (serviceName st)) key
    else None in
  let top := scoped file "secrets" key in
  let r := get p (Resolved file) now later key st in
  secrets (snd r) = file
  /\ (forall v, own = Some v -> v <> "" ->
        fst r = Resolved v
        /\ cache (snd r) = <[key := mkCacheEntry v (later + cacheTtl p)]> (cache st))
  /\ (forall t, truthy own = false -> top = Some t -> t <> "" ->
        fst r = Resolved t
        /\ cache (snd r) = <[key := mkCacheEntry t (later + cacheTtl p)]> (cache st))
  /\ (truthy own = false -> truthy top = false ->
        fst r = Rejected (notFound key (serviceName st))
        /\ cache (snd r) = cache st).
Proof.
  intros Hmiss own top r. subst r. unfold get. rewrite Hmiss. cbv zeta.
  fold own. fold top.
  split; [|split; [|split]].
  - destruct (truthy own); [destruct (truthy own); reflexivity |].
    destruct top as [t|]; match goal with |- context [if ?b then _ else _] => destruct b end;
      reflexivity.
  - intros v Hv Hne. rewrite Hv. rewrite !(truthy_true v Hne). split; reflexivity.
  - intros t Hown Htop Hne. rewrite Hown, Htop.
    rewrite (truthy_true t Hne). split; reflexivity.
  - intros Hown Htop. rewrite Hown.
    destruct top as [t|] eqn:Et.
    + rewrite Htop. split; reflexivity.
    + rewrite Hown. split; reflexivity.
Qed.

(** A file with [API_KEY] in both sections and [DATABASE_URL] at the top
    level only, read for [auth-service]. *)
Lemma local_get_lookup_order_example :
  let file : gmap string (gmap string string) :=
    <["secrets" := <["API_KEY" := "shared-key"]> (<["DATABASE_URL" := "postgres://db"]> ∅)]>
      (<["auth-service" := <["API_KEY" := "own-key"]> ∅]> ∅) in
  let st := mkState ∅ ∅ (Some "auth-service") in
  fst (get (mkProvider 60000) (Resolved file) 1000 1001 "API_KEY" st) = Resolved "own-key"
  /\ fst (get (mkProvider 60000) (Resolved file) 1000 1001 "DATABASE_URL" st)
     = Resolved "postgres://db".
Proof.
  intros file st. split.
  - refine (proj1 (proj1 (proj2 (local_get_lookup_order (mkProvider 60000) file 1000 1001
                                   "API_KEY" st _)) "own-key" _ _)).
    + reflexivity.
    + vm_compute. reflexivity.
    + discriminate.
  - refine (proj1 (proj1 (proj2 (proj2 (local_get_lookup_order (mkProvider 60000) file
                                   1000 1001 "DATABASE_URL" st _))) "postgres://db" _ _ _)).
    + reflexivity.
    + vm_compute. reflexivity.
    + vm_compute. reflexivity.
    + discriminate.
Defined.

End LocalFacts.

(** ** Health *)

Section HealthFacts.
Import Secrets AuthGuard Health.

(** X27. [RedisService] catches every client error ([get] and [incr]
    then give [null], [set], [expire] and [del] give [false]), so the
    probe of [RedisHealthIndicator] never rejects and the indicator
    reports ['up'] whatever the client replies, a lost connection
    included.  [HealthService.check] therefore never lists Redis as
    down; its overall status is never ['down'], and it is ['degraded']
    exactly when the memory check is enabled, its indicator is injected
    and the heap in use exceeds the indicator's threshold. *)
Theorem health_never_reports_redis_down (options : HealthModuleOptions)
    (redisIndicator : option (Reply (option string))) (memoryIndicator : option Z)
    (heapUsed heapTotal reportUsed reportTotal : Z) :
  let r := check options redisIndicator memoryIndicator
                 heapUsed heapTotal reportUsed reportTotal in
  (forall e, RedisService.get (Fail e) = Returned None
             /\ RedisService.incr (Fail e) = Returned None
             /\ RedisService.set (Fail e) = Returned false
             /\ RedisService.expire (Fail e) = Returned false
             /\ RedisService.del (Fail e) = Returned false)
  /\ (forall reply, redisCheck (RedisService.get reply) = mkIndicator up None)
  /\ (forall result, In ("redis", result) (checks r) -> result = mkIndicator up None)
  /\ overall r <> unhealthy
  /\ (overall r = degraded <->
      exists heapThreshold,
        memory options <> None /\ memoryIndicator = Some heapThreshold
        /\ (heapUsed > heapThreshold)%Z).
Proof.
  intros r.
  assert (Hprobe : forall reply, redisCheck (RedisService.get reply) = mkIndicator up None)
    by (intros [v|e]; reflexivity).
  split; [intros e; repeat split |]. split; [exact Hprobe |].
  subst r. unfold check.
  destruct redisIndicator as [reply|];
    [rewrite (Hprobe reply); destruct (default false (redis options)) |];
    (destruct (memory options) as [cfg|]; [destruct memoryIndicator as [t|] |]);
    cbn [orb app overall checks];
    try (unfold memoryCheck; destruct (Z.gtb_spec heapUsed t) as [Hgt|Hle]);
    cbn [orb app overall checks In];
    (split; [intros result Hin;
             repeat (destruct Hin as [Hin|Hin]; [congruence |]); destruct Hin |]);
    (split; [discriminate |]);
    (split; [intros H; try discriminate H; try (exists t; repeat split; [discriminate | lia])
            | intros (t' & Hm & Hi & Hgt'); try congruence;
              try (injection Hi as <-; lia); try reflexivity]).
Qed.

End HealthFacts.

(** ** The search for the framework configuration *)

Section ConfigSearchFacts.
Import FrameworkConfig.

Lemma search_found (hasConfig : Dir -> bool) (fuel : nat) (d r : Dir) :
  search hasConfig fuel d = Some r <->
  exists k, (k < fuel)%nat /\ r = drop k d /\ hasConfig r = true
            /\ forall j, (j < k)%nat -> hasConfig (drop j d) = false.
Proof.
  revert d; induction fuel as [|fuel IH]; intros d; cbn [search].
  - split; [discriminate | intros (k & Hk & _); lia].
  - destruct (hasConfig d) eqn:Hd.
    + split.
      * intros H. injection H as <-. exists 0%nat. rewrite drop_0.
        repeat split; [lia | exact Hd | intros j Hj; lia].
      * intros (k & Hk & -> & Hr & Hmin). destruct k as [|k]; [now rewrite drop_0 |].
        specialize (Hmin 0%nat ltac:(lia)). rewrite drop_0 in Hmin. congruence.
    + destruct d as [|x d].
      * split; [discriminate |]. intros (k & _ & -> & Hr & _).
        rewrite drop_nil in Hr. congruence.
      * rewrite IH. split.
        -- intros (k & Hk & -> & Hr & Hmin). exists (S k). cbn [drop].
           repeat split; [lia | exact Hr |]. intros [|j] Hj; [now rewrite drop_0 |].
           cbn [drop]. apply Hmin. lia.
        -- intros (k & Hk & -> & Hr & Hmin). destruct k as [|k];
             [rewrite drop_0 in Hr; congruence |].
           exists k. cbn [drop] in *. repeat split; [lia | exact Hr |].
           intros j Hj. apply (Hmin (S j)). lia.
Qed.

Lemma search_none (hasConfig : Dir -> bool) (fuel : nat) (d : Dir) :
  search hasConfig fuel d = None <->
  forall k, (k < fuel)%nat -> hasConfig (drop k d) = false.
Proof.
  revert d; induction fuel as [|fuel IH]; intros d; cbn [search].
  - split; [intros _ k Hk; lia | reflexivity].
  - destruct (hasConfig d) eqn:Hd.
    + split; [discriminate |]. intros H. specialize (H 0%nat ltac:(lia)).
      rewrite drop_0 in H. congruence.
    + destruct d as [|x d].
      * split; [|reflexivity]. intros _ k _. now rewrite drop_nil.
      * rewrite IH. split.
        -- intros H [|k] Hk; [now rewrite drop_0 |]. cbn [drop]. apply H. lia.
        -- intros H k Hk. apply (H (S k)). lia.
Qed.

(** X28. [findFrameworkConfigFile] inspects the working directory and
    at most nine directories above it, nearest first: it returns the
    nearest of these ten that holds [.tsdevstack/config.json], and
    [null] exactly when none of them does (the search stops at the
    file-system root).  A configuration ten or more levels above the
    working directory is never found. *)
Theorem config_search_nearest_of_ten (hasConfig : Dir -> bool) (cwd : Dir) :
  (forall found,
     findFrameworkConfigFile hasConfig cwd = Some found <->
     exists k, (k < 10)%nat /\ found = drop k cwd /\ hasConfig found = true
               /\ forall j, (j < k)%nat -> hasConfig (drop j cwd) = false)
  /\ (findFrameworkConfigFile hasConfig cwd = None <->
      forall k, (k < 10)%nat -> hasConfig (drop k cwd) = false)
  /\ (forall found,
        findFrameworkConfigFile hasConfig cwd = Some found ->
        (length cwd < length found + 10)%nat).
Proof.
  split; [intros found; apply search_found |]. split; [apply search_none |].
  intros found H. apply search_found in H as (k & Hk & -> & _).
  rewrite length_drop. unfold maxDepth in Hk. lia.
Qed.

End ConfigSearchFacts.

(** ** Redaction paths *)

Section RedactFacts.
Import JS Logger.

Lemma unique_In (seen paths : list string) (p : string) :
  In p (unique seen paths) <-> In p paths /\ ~ In p seen.
Proof.
  revert seen; induction paths as [|q rest IH]; intros seen; cbn [unique In]; [tauto |].
  destruct (existsb (String.eqb q) seen) eqn:E.
  - apply existsb_eqb_In in E. rewrite IH. split; [tauto |].
    intros [[<-|H] Hno]; [contradiction | tauto].
  - assert (Hq : ~ In q seen) by (rewrite <- existsb_eqb_In; congruence).
    cbn [In]. rewrite IH. cbn [In]. split.
    + intros [<-|[H Hno]]; [tauto | tauto].
    + intros [[<-|H] Hno]; [now left |].
      destruct (string_dec q p) as [->|Hne]; [now left | right; tauto].
Qed.

Lemma unique_NoDup (seen paths : list string) : NoDup (unique seen paths).
Proof.
  revert seen; induction paths as [|q rest IH]; intros seen; cbn [unique]; [constructor |].
  destruct (existsb (String.eqb q) seen); [apply IH |].
  apply NoDup_cons. split; [|apply IH].
  rewrite list_elem_of_In, unique_In. cbn [In]. tauto.
Qed.

(** Paths that are distinct and not seen yet are all kept, in order. *)
Lemma unique_fresh_prefix (seen fresh more : list string) :
  NoDup fresh -> (forall p, In p fresh -> ~ In p seen) ->
  unique seen (fresh ++ more) = (fresh ++ unique (rev fresh ++ seen) more)%list.
Proof.
  revert seen; induction fresh as [|q fresh IH]; intros seen Hnd Hno; [reflexivity |].
  apply NoDup_cons in Hnd as [Hq Hnd]. cbn [app unique].
  assert (E : existsb (String.eqb q) seen = false).
  { apply not_true_is_false. rewrite existsb_eqb_In. apply Hno. now left. }
  rewrite E, IH; [|exact Hnd|].
  - cbn [rev]. now rewrite <- app_assoc.
  - intros p Hp [<-|Hin]; [apply Hq; now apply list_elem_of_In |].
    apply (Hno p); [now right | exact Hin].
Qed.

(** X29. [buildRedactPaths] returns each configured path once: a path
    is in the result exactly when it is a default path (unless the
    defaults are disabled), one of the [redactPaths] option, or a
    trimmed item of the comma-separated [LOG_REDACT_PATHS].  Unless
    disabled, the fourteen default paths come first, in their order,
    whatever else is configured: no option removes a default.  Empty
    items of [LOG_REDACT_PATHS] are not dropped: a trailing comma adds
    the empty path. *)
Theorem redact_paths_contract (disableDefaultRedaction : bool)
    (redactPaths : option (list string)) (envPaths : option string) :
  let result := buildRedactPaths disableDefaultRedaction redactPaths envPaths in
  NoDup result
  /\ (forall p,
        In p result <->
        (disableDefaultRedaction = false /\ In p DEFAULT_REDACT_PATHS)
        \/ In p (default [] redactPaths)
        \/ (exists env, envPaths = Some env /\ env <> ""
                        /\ In p (map trim (split "," env))))
  /\ (disableDefaultRedaction = false ->
      exists rest, result = (DEFAULT_REDACT_PATHS ++ rest)%list
                   /\ forall p, In p rest -> ~ In p DEFAULT_REDACT_PATHS)
  /\ buildRedactPaths true None (Some "req.headers.cookie, user.phone,")
     = ["req.headers.cookie"; "user.phone"; ""].
Proof.
  intros result. subst result. unfold buildRedactPaths.
  split; [apply unique_NoDup |]. split; [|split; [|reflexivity]].
  - intros p. rewrite unique_In, !in_app_iff.
    assert (A : In p (if negb disableDefaultRedaction then DEFAULT_REDACT_PATHS else [])
                <-> disableDefaultRedaction = false /\ In p DEFAULT_REDACT_PATHS).
    { destruct disableDefaultRedaction; cbn [negb In]; split; try tauto.
      intros [H _]; discriminate H. }
    assert (B : In p (if truthy envPaths
                      then map trim (split "," (default "" envPaths)) else [])
                <-> exists env, envPaths = Some env /\ env <> ""
                                /\ In p (map trim (split "," env))).
    { destruct envPaths as [env|]; [destruct (string_dec env "") as [->|Hne] |].
      - cbn [truthy In]. split; [tauto |]. intros (env' & He & Hn & _).
        injection He as <-. now apply Hn.
      - rewrite (truthy_true env Hne). cbn [default from_option id]. split.
        + intros H. now exists env.
        + intros (env' & He & _ & H). now injection He as <-.
      - cbn [truthy In]. split; [tauto |]. intros (env' & He & _). discriminate He. }
    rewrite A, B. cbn [In]. tauto.
  - intros ->. cbn [negb]. rewrite unique_fresh_prefix.
    + eexists. split; [reflexivity |]. intros p Hp. apply unique_In in Hp as [_ Hno].
      intros Hin. apply Hno. rewrite in_app_iff. left. now apply in_rev in Hin.
    + apply (bool_decide_unpack _). vm_compute. exact I.
    + intros p _ [].
Qed.

End RedactFacts.

(** ** Writing a key that exists in the shared scope only *)

Section SharedOnlyWrites.
Import JS Secrets.

(** X30. A service cannot shadow a shared secret through [set] on AWS
    and GCP.  [set] writes to the service's own secret name, but decides
    between creating and updating by [exists], which also looks at the
    shared scope.  So when the key exists in the shared scope only, the
    AWS provider sends [PutSecretValue], and the GCP provider
    [addSecretVersion], for the service's own name without creating it
    first; the store, which holds no such secret, rejects the write, and
    [set] rejects with the wrapped error and leaves the cache alone,
    whatever [createSecret] would have answered.  When the key
    exists in neither scope the secret is created first. *)
Theorem set_cannot_shadow_shared_secret :
  (forall (p : AWS.Provider) (key v : string) (cache : gmap string CacheEntry),
      let own := AWS.buildSecretName p key (serviceName (AWS.config p)) in
      isOk (AWS.describeSecret (AWS.client p) own) = false ->
      isOk (AWS.putSecretValue (AWS.client p) own v) = false ->
      isOk (AWS.describeSecret (AWS.client p) (AWS.buildSecretName p key "shared")) = true ->
      exists e,
        AWS.putSecretValue (AWS.client p) own v = Fail e
        /\ AWS.set p key v cache
           = (Rejected ("Failed to set secret " +:+ own +:+ " in AWS: " +:+ text e), cache))
  /\ (forall (p : GCP.Provider) (key v : string) (cache : gmap string CacheEntry),
         let own := GCP.buildSecretName p key (serviceName (GCP.config p)) in
         let path (name : string) :=
           GCP.parent p +:+ "/secrets/" +:+ GCP.extractSecretId name in
         isOk (GCP.getSecret (GCP.client p) (path own)) = false ->
         isOk (GCP.addSecretVersion (GCP.client p) (path own) v) = false ->
         isOk (GCP.getSecret (GCP.client p) (path (GCP.buildSecretName p key "shared")))
         = true ->
         exists e,
           GCP.addSecretVersion (GCP.client p) (path own) v = Fail e
           /\ GCP.set p key v cache
              = (Rejected ("Failed to set secret " +:+ own +:+ " in GCP: " +:+ text e),
                 cache))
  /\ (forall (p : AWS.Provider) (key v : string) (cache : gmap string CacheEntry),
         let own := AWS.buildSecretName p key (serviceName (AWS.config p)) in
         isOk (AWS.describeSecret (AWS.client p) own) = false ->
         isOk (AWS.describeSecret (AWS.client p) (AWS.buildSecretName p key "shared"))
         = false ->
         isOk (AWS.createSecret (AWS.client p) own v) = true ->
         AWS.set p key v cache = (Resolved tt, delete key cache)).
Proof.
  split; [|split].
  - intros p key v cache own Hown Hput Hshared.
    destruct (AWS.putSecretValue (AWS.client p) own v) as [u|e] eqn:E; [discriminate Hput |].
    exists e. split; [reflexivity |].
    unfold AWS.set, AWS.exists_. fold own. now rewrite Hown, Hshared, E.
  - intros p key v cache own path Hown Hadd Hshared.
    destruct (GCP.addSecretVersion (GCP.client p) (path own) v) as [u|e] eqn:E;
      [discriminate Hadd |].
    exists e. split; [reflexivity |].
    unfold GCP.set, GCP.exists_. cbv zeta. fold own. fold (path own).
    fold (path (GCP.buildSecretName p key "shared")). now rewrite Hown, Hshared, E.
  - intros p key v cache own Hown Hshared Hcreate.
    unfold AWS.set, AWS.exists_. fold own. rewrite Hown, Hshared. cbn [negb].
    now destruct (AWS.createSecret (AWS.client p) own v).
Qed.

(** An AWS store that holds [DATABASE_URL] in the shared scope only. *)
Lemma set_cannot_shadow_shared_secret_example :
  let missing : Reply unit :=
    Fail (mkStoreError None "Secrets Manager can't find the specified secret.") in
  let held (name : string) : Reply unit :=
    if String.eqb name "testproject-shared-DATABASE_URL" then Ok tt else missing in
  let p := AWS.mkProvider Fixtures.testConfig
             (AWS.mkClient (fun _ => Ok None) held (fun _ _ => Ok tt) (fun name _ => held name)
                (fun name => held name) (AWS.LastPage (Ok None))) in
  exists e,
    AWS.putSecretValue (AWS.client p) "testproject-test-service-DATABASE_URL" "postgres://db"
    = Fail e
    /\ AWS.set p "DATABASE_URL" "postgres://db" ∅
       = (Rejected ("Failed to set secret testproject-test-service-DATABASE_URL in AWS: "
                    +:+ text e), ∅).
Proof.
  intros missing held p.
  apply (proj1 set_cannot_shadow_shared_secret p "DATABASE_URL" "postgres://db" ∅);
    reflexivity.
Defined.

End SharedOnlyWrites.
